(** * bigzec: viral-post analysis and format learning

    A shallow embedding of [dashboard/lib/viral-analyzer.ts], of the format
    learning module (the second unit of [dashboard/lib/content-generator.ts],
    imported by the API routes as [@/lib/format-learner]), of the validator,
    the viral score and the thread conversion of the content generator (the
    first unit of that file) and of the type declarations in
    [lib/types/social-media].

    Conventions of the embedding:
    - a JavaScript string is the list of its UTF-16 code units ([jsstring]);
      [toLowerCase] and [toUpperCase], which follow the Unicode tables of the
      host, are the methods of a class [CaseMapping], with an instance for
      ASCII on which the concrete inputs are evaluated;
    - a regular expression is a term of [regex], matched with the
      backtracking semantics of the language specification;
    - a JavaScript number that only ever holds a length or a count is a [Z];
      every other number is an exact rational ([Q]), which leaves the
      rounding of IEEE 754 doubles out: the rationals serve for what does
      not turn on rounding (which rule fires, integer results, margins);
      the update rule of the learner, whose results do turn on it, is given
      on doubles as well ([PrimFloat]), and the invariant of learning is
      stated and proved on them;
    - [new Date().toISOString()] is an explicit argument [now], one reading
      of the clock per call;
    - the module-level [formatStore] (a [Map], which iterates in insertion
      order) is an association list threaded through the operations. *)

From Stdlib Require Import String Ascii DecimalString PrimFloat.
From Stdlib Require Import List Bool Arith NArith ZArith QArith Qround Lia Lqa.
From Stdlib Require Import Permutation.
From Stdlib Require Import Floats.
From Stdlib Require Uint63.
Import ListNotations.

Set Implicit Arguments.
Close Scope Q_scope.

(** ** JavaScript strings *)

Definition char := N.
Definition jsstring := list char.

(** An ASCII literal as a JavaScript string. *)
Definition str (s : string) : jsstring :=
  map N_of_ascii (list_ascii_of_string s).
Arguments str s%_string.

Fixpoint streq (a b : jsstring) : bool :=
  match a, b with
  | [], [] => true
  | x :: a', y :: b' => N.eqb x y && streq a' b'
  | _, _ => false
  end.

Definition inRange (lo hi c : char) : bool := (N.leb lo c && N.leb c hi)%bool.

(** WhiteSpace and LineTerminator code units of ECMAScript: what [trim]
    strips and what [\s] matches. *)
Definition whiteSpaceRanges : list (char * char) :=
  [ (9, 13); (32, 32); (160, 160); (5760, 5760); (8192, 8202);
    (8232, 8233); (8239, 8239); (8287, 8287); (12288, 12288);
    (65279, 65279) ]%N.

Definition inRanges (rs : list (char * char)) (c : char) : bool :=
  existsb (fun r => inRange (fst r) (snd r) c) rs.

Definition isWhiteSpace (c : char) : bool := inRanges whiteSpaceRanges c.

(** LineTerminator: LF, CR, LS, PS. *)
Definition isLineTerminator (c : char) : bool :=
  (N.eqb c 10%N || N.eqb c 13%N || N.eqb c 8232%N || N.eqb c 8233%N)%bool.

Fixpoint trimStart (s : jsstring) : jsstring :=
  match s with
  | c :: t => if isWhiteSpace c then trimStart t else s
  | [] => []
  end.

Definition trimEnd (s : jsstring) : jsstring := rev (trimStart (rev s)).

Definition trim (s : jsstring) : jsstring := trimEnd (trimStart s).

Fixpoint startsWith (p s : jsstring) : bool :=
  match p, s with
  | [], _ => true
  | x :: p', y :: s' => N.eqb x y && startsWith p' s'
  | _ :: _, [] => false
  end.

Definition endsWith (p s : jsstring) : bool := startsWith (rev p) (rev s).

(** [s.includes(sub)] *)
Fixpoint includes (sub s : jsstring) : bool :=
  startsWith sub s ||
  match s with
  | [] => false
  | _ :: t => includes sub t
  end.

(** [s.split(sep)] for a separator of one code unit. *)
Fixpoint splitChar (sep : char) (s : jsstring) : list jsstring :=
  match s with
  | [] => [[]]
  | c :: t =>
      match splitChar sep t with
      | seg :: segs => if N.eqb c sep then [] :: seg :: segs
                       else (c :: seg) :: segs
      | [] => [[c]]
      end
  end.

(** [parts.join(sep)] *)
Fixpoint join (sep : jsstring) (parts : list jsstring) : jsstring :=
  match parts with
  | [] => []
  | [p] => p
  | p :: ps => p ++ sep ++ join sep ps
  end.

(** [arr.slice(-n)] *)
Definition sliceLast {A} (n : nat) (l : list A) : list A :=
  skipn (length l - n) l.

(** [s.replace(c, d)] with one-code-unit strings: only the first
    occurrence is replaced. *)
Fixpoint replaceFirstChar (c d : char) (s : jsstring) : jsstring :=
  match s with
  | [] => []
  | x :: t => if N.eqb x c then d :: t else x :: replaceFirstChar c d t
  end.

(** [[...new Set(l)]]: first occurrences, in order. *)
Fixpoint dedup (l : list jsstring) : list jsstring :=
  match l with
  | [] => []
  | x :: t => x :: filter (fun y => negb (streq x y)) (dedup t)
  end.

(** String.prototype.toLowerCase and toUpperCase follow the Unicode case
    tables of the host; the embedding is parametric in them. *)
Class CaseMapping := {
  toLowerCase : jsstring -> jsstring;
  toUpperCase : jsstring -> jsstring
}.

Definition asciiLower (c : char) : char :=
  if inRange 65%N 90%N c then (c + 32)%N else c.

Definition asciiUpper (c : char) : char :=
  if inRange 97%N 122%N c then (c - 32)%N else c.

(** The case mapping restricted to ASCII letters. On strings whose code
    units are all below 128 it agrees with the ECMAScript functions. *)
#[global] Instance asciiCase : CaseMapping :=
  {| toLowerCase := map asciiLower; toUpperCase := map asciiUpper |}.

(** ** Regular expressions

    The subset of ECMAScript patterns the analyzer uses, with the
    backtracking semantics of the language specification: alternatives are
    tried left to right, quantifiers are greedy, and the first start position
    that admits a match wins. *)

Inductive regex :=
| Eps
| CharSet (negated : bool) (ranges : list (char * char))
| Dot
| Seq (a b : regex)
| Alt (a b : regex)
| Star (a : regex)
| Bol
| Eol
| WordB.

Record flags := {
  ignoreCase : bool;
  multiline : bool;
  dotAll : bool
}.

Definition noFlags := {| ignoreCase := false; multiline := false; dotAll := false |}.
Definition flagI := {| ignoreCase := true; multiline := false; dotAll := false |}.
Definition flagM := {| ignoreCase := false; multiline := true; dotAll := false |}.
Definition flagIS := {| ignoreCase := true; multiline := false; dotAll := true |}.

Definition digitRanges : list (char * char) := [(48, 57)]%N.
Definition wordRanges : list (char * char) :=
  [(48, 57); (65, 90); (95, 95); (97, 122)]%N.

Definition isWordChar (c : char) : bool := inRanges wordRanges c.

(** Enumeration of an inclusive range of code units. *)
Definition enumRange (lo hi : char) : list char :=
  map (fun i => (lo + N.of_nat i)%N) (seq 0 (N.to_nat (N.succ hi - lo))).

Section Matcher.
Context {CM : CaseMapping}.
Variable fl : flags.

(** Canonicalize of the specification, without the unicode flag. *)
Definition canonicalize (ch : char) : char :=
  if ignoreCase fl then
    match toUpperCase [ch] with
    | [cu] => if (N.leb 128%N ch && N.ltb cu 128%N)%bool then ch else cu
    | _ => ch
    end
  else ch.

(** A class matches [c] when one of its members canonicalizes as [c]
    does. *)
Definition inClass (rs : list (char * char)) (c : char) : bool :=
  if ignoreCase fl then
    existsb (fun r =>
               existsb (fun a => N.eqb (canonicalize a) (canonicalize c))
                       (enumRange (fst r) (snd r))) rs
  else inRanges rs c.

Definition cont := option char -> jsstring -> option (option char * jsstring).

Definition atBol (prev : option char) : bool :=
  match prev with
  | None => true
  | Some p => multiline fl && isLineTerminator p
  end.

Definition atEol (s : jsstring) : bool :=
  match s with
  | [] => true
  | c :: _ => multiline fl && isLineTerminator c
  end.

Definition atWordBoundary (prev : option char) (s : jsstring) : bool :=
  xorb (match prev with Some p => isWordChar p | None => false end)
       (match s with c :: _ => isWordChar c | [] => false end).

(** Greedy iteration; an iteration that consumes nothing is rejected, as
    in RepeatMatcher. *)
Fixpoint starLoop (step : option char -> jsstring -> cont ->
                          option (option char * jsstring))
         (fuel : nat) (prev : option char) (s : jsstring) (k : cont)
  : option (option char * jsstring) :=
  match fuel with
  | O => k prev s
  | S n =>
      match step prev s
              (fun p' s' => if length s' <? length s
                            then starLoop step n p' s' k else None) with
      | Some r => Some r
      | None => k prev s
      end
  end.

(** [rmatch r prev s k]: match [r] at the position whose preceding code
    unit is [prev] and whose remaining input is [s], then continue with
    [k]. *)
Fixpoint rmatch (r : regex) (prev : option char) (s : jsstring) (k : cont)
  : option (option char * jsstring) :=
  match r with
  | Eps => k prev s
  | CharSet neg rs =>
      match s with
      | c :: t => if xorb neg (inClass rs c) then k (Some c) t else None
      | [] => None
      end
  | Dot =>
      match s with
      | c :: t => if (dotAll fl || negb (isLineTerminator c))%bool
                  then k (Some c) t else None
      | [] => None
      end
  | Seq a b => rmatch a prev s (fun p' s' => rmatch b p' s' k)
  | Alt a b =>
      match rmatch a prev s k with
      | Some res => Some res
      | None => rmatch b prev s k
      end
  | Star a => starLoop (rmatch a) (S (length s)) prev s k
  | Bol => if atBol prev then k prev s else None
  | Eol => if atEol s then k prev s else None
  | WordB => if atWordBoundary prev s then k prev s else None
  end.

Definition accept : cont := fun p s => Some (p, s).

(** The outcome of a successful match: [m.index], [m[0]], and the position
    right after the match. *)
Record matchResult := {
  index : nat;
  matched : jsstring;
  prevAfter : option char;
  restAfter : jsstring
}.

(** RegExpBuiltinExec without the sticky flag: the leftmost start position
    where the pattern matches. *)
Fixpoint search (r : regex) (idx : nat) (prev : option char) (s : jsstring)
  : option matchResult :=
  match rmatch r prev s accept with
  | Some (p', s') =>
      Some {| index := idx; matched := firstn (length s - length s') s;
              prevAfter := p'; restAfter := s' |}
  | None =>
      match s with
      | [] => None
      | c :: t => search r (S idx) (Some c) t
      end
  end.

(** [s.match(r)] for a pattern without the global flag. *)
Definition exec (r : regex) (s : jsstring) : option matchResult :=
  search r 0 None s.

(** [r.test(s)] for a pattern without the global flag. *)
Definition test (r : regex) (s : jsstring) : bool :=
  match exec r s with Some _ => true | None => false end.

(** [s.match(r) || []] for a pattern with the global flag: all matches,
    left to right; after an empty match the search resumes one code unit
    further. *)
Fixpoint matchAllFrom (fuel : nat) (r : regex) (prev : option char)
         (s : jsstring) : list jsstring :=
  match fuel with
  | O => []
  | S n =>
      match search r 0 prev s with
      | None => []
      | Some m =>
          matched m ::
            match matched m, restAfter m with
            | [], [] => []
            | [], c :: t => matchAllFrom n r (Some c) t
            | _ :: _, rest => matchAllFrom n r (prevAfter m) rest
            end
      end
  end.

Definition matchAll (r : regex) (s : jsstring) : list jsstring :=
  matchAllFrom (S (length s)) r None s.

(** [s.split(r)] for a pattern without capture groups: the loop of
    RegExp.prototype[Symbol.split]. [acc] holds, reversed, the code units
    between the end of the last separator and the current position. *)
Fixpoint splitLoop (fuel : nat) (r : regex) (acc : jsstring)
         (prev : option char) (s : jsstring) : list jsstring :=
  match fuel with
  | O => [rev acc ++ s]
  | S n =>
      match s with
      | [] => [rev acc]
      | c :: t =>
          match rmatch r prev s accept with
          | Some (p', s') =>
              match acc with
              | [] => if length s' =? length s
                      then splitLoop n r [c] (Some c) t
                      else [] :: splitLoop n r [] p' s'
              | _ :: _ => rev acc :: splitLoop n r [] p' s'
              end
          | None => splitLoop n r (c :: acc) (Some c) t
          end
      end
  end.

Definition split (r : regex) (s : jsstring) : list jsstring :=
  match s with
  | [] => match rmatch r None [] accept with
          | Some _ => []
          | None => [[]]
          end
  | _ :: _ => splitLoop (2 * length s + 2) r [] None s
  end.

(** [s.replace(r, '')] and [s.replace(r, d)] for a global pattern that
    matches exactly one code unit of a class. *)
Definition replaceClass (neg : bool) (rs : list (char * char))
           (d : jsstring) (s : jsstring) : jsstring :=
  flat_map (fun c => if xorb neg (inClass rs c) then d else [c]) s.

End Matcher.

(** *** Pattern combinators *)

Definition chr (c : char) : regex := CharSet false [(c, c)].

Fixpoint lit' (s : jsstring) : regex :=
  match s with
  | [] => Eps
  | [c] => chr c
  | c :: t => Seq (chr c) (lit' t)
  end.

(** A literal run of ASCII characters. *)
Definition lit (s : string) : regex := lit' (str s).
Arguments lit s%_string.

Fixpoint alts (rs : list regex) : regex :=
  match rs with
  | [] => Eps
  | [r] => r
  | r :: t => Alt r (alts t)
  end.

(** [(w1|w2|...)] over ASCII literals. *)
Definition words (ws : list string) : regex := alts (map lit ws).

Fixpoint seqs (rs : list regex) : regex :=
  match rs with
  | [] => Eps
  | [r] => r
  | r :: t => Seq r (seqs t)
  end.

Definition plus (r : regex) : regex := Seq r (Star r).
Definition opt (r : regex) : regex := Alt r Eps.
Definition digit : regex := CharSet false digitRanges.
Definition wordc : regex := CharSet false wordRanges.
Definition space : regex := CharSet false whiteSpaceRanges.
Definition notSpace : regex := CharSet true whiteSpaceRanges.
Definition LF : char := 10%N.

(** A RegExp object: a pattern and its flags. *)
Record RegExp := {
  pattern : regex;
  reFlags : flags
}.

Definition re (r : regex) : RegExp := {| pattern := r; reFlags := noFlags |}.
Definition reI (r : regex) : RegExp := {| pattern := r; reFlags := flagI |}.
Definition reM (r : regex) : RegExp := {| pattern := r; reFlags := flagM |}.
Definition reIS (r : regex) : RegExp := {| pattern := r; reFlags := flagIS |}.

(** [^(w1|w2|...)] and [\b(w1|w2|...)\b] *)
Definition startWords (ws : list string) : regex := Seq Bol (words ws).
Definition boundedWords (ws : list string) : regex :=
  seqs [WordB; words ws; WordB].

(** ** Types ([lib/types/social-media]) *)

Inductive Platform := linkedin | twitter.

Definition platformName (p : Platform) : jsstring :=
  match p with
  | linkedin => str "linkedin"
  | twitter => str "twitter"
  end.

Definition Platform_eqb (a b : Platform) : bool :=
  match a, b with
  | linkedin, linkedin | twitter, twitter => true
  | _, _ => false
  end.

Module HookType.
Inductive t :=
| QUESTION | BOLD_STATEMENT | STORY | LIST | CONTROVERSIAL_TAKE
| STATISTIC | QUOTE | HOW_TO | NONE.

Definition value (h : t) : jsstring :=
  match h with
  | QUESTION => str "question"
  | BOLD_STATEMENT => str "bold_statement"
  | STORY => str "story"
  | LIST => str "list"
  | CONTROVERSIAL_TAKE => str "controversial_take"
  | STATISTIC => str "statistic"
  | QUOTE => str "quote"
  | HOW_TO => str "how_to"
  | NONE => str "none"
  end.

Definition eqb (a b : t) : bool :=
  match a, b with
  | QUESTION, QUESTION | BOLD_STATEMENT, BOLD_STATEMENT | STORY, STORY
  | LIST, LIST | CONTROVERSIAL_TAKE, CONTROVERSIAL_TAKE
  | STATISTIC, STATISTIC | QUOTE, QUOTE | HOW_TO, HOW_TO
  | NONE, NONE => true
  | _, _ => false
  end.
End HookType.

Module BodyType.
Inductive t :=
| PROBLEM_SOLUTION | STORY_DRIVEN | LISTICLE | TUTORIAL | INSIGHT_SHARING
| COMPARISON | MYTH_BUSTING | LESSON_LEARNED | THREAD | NARRATIVE.

Definition value (b : t) : jsstring :=
  match b with
  | PROBLEM_SOLUTION => str "problem_solution"
  | STORY_DRIVEN => str "story_driven"
  | LISTICLE => str "listicle"
  | TUTORIAL => str "tutorial"
  | INSIGHT_SHARING => str "insight_sharing"
  | COMPARISON => str "comparison"
  | MYTH_BUSTING => str "myth_busting"
  | LESSON_LEARNED => str "lesson_learned"
  | THREAD => str "thread"
  | NARRATIVE => str "narrative"
  end.

Definition eqb (a b : t) : bool :=
  match a, b with
  | PROBLEM_SOLUTION, PROBLEM_SOLUTION | STORY_DRIVEN, STORY_DRIVEN
  | LISTICLE, LISTICLE | TUTORIAL, TUTORIAL
  | INSIGHT_SHARING, INSIGHT_SHARING | COMPARISON, COMPARISON
  | MYTH_BUSTING, MYTH_BUSTING | LESSON_LEARNED, LESSON_LEARNED
  | THREAD, THREAD | NARRATIVE, NARRATIVE => true
  | _, _ => false
  end.
End BodyType.

Module CTAType.
Inductive t :=
| QUESTION_TO_AUDIENCE | LINK | ENGAGEMENT_BAIT | FOLLOW_UP
| SAVE_FOR_LATER | SHARE | COMMENT_PROMPT | NONE.

Definition value (c : t) : jsstring :=
  match c with
  | QUESTION_TO_AUDIENCE => str "question_to_audience"
  | LINK => str "link"
  | ENGAGEMENT_BAIT => str "engagement_bait"
  | FOLLOW_UP => str "follow_up"
  | SAVE_FOR_LATER => str "save_for_later"
  | SHARE => str "share"
  | COMMENT_PROMPT => str "comment_prompt"
  | NONE => str "none"
  end.

Definition eqb (a b : t) : bool :=
  match a, b with
  | QUESTION_TO_AUDIENCE, QUESTION_TO_AUDIENCE | LINK, LINK
  | ENGAGEMENT_BAIT, ENGAGEMENT_BAIT | FOLLOW_UP, FOLLOW_UP
  | SAVE_FOR_LATER, SAVE_FOR_LATER | SHARE, SHARE
  | COMMENT_PROMPT, COMMENT_PROMPT | NONE, NONE => true
  | _, _ => false
  end.
End CTAType.

Module EmotionalTrigger.
Inductive t :=
| CURIOSITY | FEAR | EXCITEMENT | VALIDATION | SURPRISE | ANGER
| NOSTALGIA | INSPIRATION | FRUSTRATION | HOPE | URGENCY | FOMO.

Definition value (e : t) : jsstring :=
  match e with
  | CURIOSITY => str "curiosity"
  | FEAR => str "fear"
  | EXCITEMENT => str "excitement"
  | VALIDATION => str "validation"
  | SURPRISE => str "surprise"
  | ANGER => str "anger"
  | NOSTALGIA => str "nostalgia"
  | INSPIRATION => str "inspiration"
  | FRUSTRATION => str "frustration"
  | HOPE => str "hope"
  | URGENCY => str "urgency"
  | FOMO => str "fomo"
  end.

Definition eqb (a b : t) : bool :=
  match a, b with
  | CURIOSITY, CURIOSITY | FEAR, FEAR | EXCITEMENT, EXCITEMENT
  | VALIDATION, VALIDATION | SURPRISE, SURPRISE | ANGER, ANGER
  | NOSTALGIA, NOSTALGIA | INSPIRATION, INSPIRATION
  | FRUSTRATION, FRUSTRATION | HOPE, HOPE | URGENCY, URGENCY
  | FOMO, FOMO => true
  | _, _ => false
  end.
End EmotionalTrigger.

Record PostMetrics := {
  likes : Q;
  comments : Q;
  shares : Q;
  saves : option Q;
  impressions : option Q;
  engagementRate : option Q
}.

Module ViralPost.
Record t := {
  id : jsstring;
  platform : Platform;
  content : jsstring;
  author : option jsstring;
  url : option jsstring;
  metrics : PostMetrics;
  createdAt : jsstring;
  analyzedAt : option jsstring
}.
End ViralPost.

Record CapitalizationPattern := {
  hasAllCaps : bool;
  allCapsWords : list jsstring;
  hasTitleCase : bool;
  averageWordLength : Q
}.

Record LineBreakStructure := {
  totalLineBreaks : Z;
  averageLineLength : Z;
  shortLines : Z;
  mediumLines : Z;
  longLines : Z;
  hasDoubleLineBreaks : bool
}.

Record ParsedContent := {
  original : jsstring;
  lines : list jsstring;
  paragraphs : list jsstring;
  wordCount : Z;
  characterCount : Z;
  hasEmoji : bool;
  emojiCount : Z;
  hasHashtags : bool;
  hashtags : list jsstring;
  hasMentions : bool;
  mentions : list jsstring;
  hasLinks : bool;
  links : list jsstring;
  hasNumbers : bool;
  numbers : list jsstring;
  capitalizationPatterns : CapitalizationPattern;
  lineBreakStructure : LineBreakStructure
}.

Module DetectedFormatPattern.
Record t := {
  hookType : HookType.t;
  hookConfidence : Q;
  hookText : jsstring;
  bodyType : BodyType.t;
  bodyConfidence : Q;
  bodyStructure : jsstring;
  ctaType : CTAType.t;
  ctaConfidence : Q;
  ctaText : jsstring
}.
End DetectedFormatPattern.

Inductive Significance := high | medium | low.

Module FormatElement.
Record t := {
  type : jsstring;
  present : bool;
  count : Z;
  significance : Significance
}.
End FormatElement.

Module TimingSignal.
Record t := {
  type : jsstring;
  detected : bool;
  context : jsstring
}.
End TimingSignal.

Module TopicRelevance.
Record t := {
  topic : jsstring;
  relevanceScore : Q;
  trending : bool
}.
End TopicRelevance.

Module ViralityIndicator.
Record t := {
  indicator : jsstring;
  score : Q;
  reason : jsstring
}.
End ViralityIndicator.

Record ViralSignals := {
  emotionalTriggers : list EmotionalTrigger.t;
  formatElements : list FormatElement.t;
  timingSignals : list TimingSignal.t;
  topicRelevance : list TopicRelevance.t;
  viralityIndicators : list ViralityIndicator.t
}.

Module AnalysisResult.
Record t := {
  postId : jsstring;
  viralityScore : Q;
  confidence : Q;
  formatPattern : DetectedFormatPattern.t;
  viralSignals : ViralSignals;
  recommendations : list jsstring;
  similarFormats : list jsstring;
  analyzedAt : jsstring
}.
End AnalysisResult.

Module FormatPattern.
Record t := {
  id : jsstring;
  name : jsstring;
  description : jsstring;
  platform : Platform;
  hookType : HookType.t;
  bodyType : BodyType.t;
  ctaType : CTAType.t;
  template : jsstring;
  examplePost : jsstring;
  tags : list jsstring;
  effectivenessScore : Q;
  usageCount : Z;
  createdAt : jsstring;
  updatedAt : jsstring
}.
End FormatPattern.

(** ** Rule tables ([viral-analyzer.ts])

    Each table is the list of the entries of the source's object literal, in
    the order [Object.entries] yields them (the order of the literal). *)

Definition digits : regex := plus digit.
Definition spaces : regex := plus space.
Definition anyRun : regex := Star Dot.

Definition HOOK_PATTERNS : list (HookType.t * list RegExp) :=
  [ (HookType.QUESTION,
     [ reI (startWords ["what"; "why"; "how"; "when"; "where"; "who"; "which";
                        "do you"; "did you"; "have you"; "are you"; "is your";
                        "would you"; "could you"]%string);
       re (Seq (lit "?") Eol);
       reI (startWords ["ever wondered"; "have you ever";
                        "did you know"]%string) ]);
    (HookType.BOLD_STATEMENT,
     [ reI (startWords ["this is"; "here's the truth"; "let me be clear";
                        "i'll say it"; "the truth is";
                        "here's what nobody tells you"]%string);
       reI (startWords ["stop"; "don't"; "never"; "always"; "everyone";
                        "nobody"; "nothing"; "everything"]%string);
       reI (boundedWords ["unpopular opinion"; "hot take";
                          "controversial opinion"]%string) ]);
    (HookType.STORY,
     [ reI (startWords ["so"; "i was"; "last week"; "yesterday";
                        "a few years ago"; "when i started"; "back in";
                        "my journey"]%string);
       reI (startWords ["story time"; "let me tell you";
                        "here's a story"]%string);
       reI (boundedWords ["my story"; "this changed everything";
                          "turning point"]%string) ]);
    (HookType.LIST,
     [ reI (seqs [Bol; digits; spaces;
                  words ["ways"; "things"; "reasons"; "tips"; "secrets";
                         "mistakes"; "lessons"; "habits"; "books"; "tools";
                         "apps"]%string]);
       reI (Seq Bol (alts [lit "here are"; Seq (lit "here's ") digits;
                           Seq (lit "top ") digits; Seq (lit "best ") digits;
                           Seq digits (lit " of the")]));
       reI (boundedWords ["step by step"; "checklist"]%string) ]);
    (HookType.CONTROVERSIAL_TAKE,
     [ reI (startWords ["unpopular opinion"; "hot take"; "controversial";
                        "i'll probably get hate";
                        "this might upset"]%string);
       reI (boundedWords ["is overrated"; "is underrated";
                          "everyone is wrong"; "the industry is";
                          "nobody talks about"]%string);
       reI (boundedWords ["gatekeep"; "red flag"; "toxic";
                          "problematic"]%string) ]);
    (HookType.STATISTIC,
     [ reI (Seq Bol (alts [Seq digits (lit "%"); lit "according to";
                           lit "studies show"; lit "research shows";
                           lit "data shows"; lit "statistics show"]));
       reI (Seq WordB (alts [seqs [lit "in "; digits; lit " years"];
                             Seq (lit "by ") digits;
                             seqs [lit "only "; digits; lit "%"];
                             Seq (lit "more than ") digits]));
       reI (boundedWords ["million"; "billion"; "trillion"]%string) ]);
    (HookType.QUOTE,
     [ reI (alts [Seq Bol (CharSet false [(34, 34); (39, 39)]%N);
                  seqs [Bol; plus wordc; spaces; lit "once"; spaces;
                        lit "said"];
                  Seq Bol (alts [lit "as "; chr 34%N; chr 8220%N])]);
       reI (boundedWords ["said it best"; "famous words";
                          "wisdom from"]%string) ]);
    (HookType.HOW_TO,
     [ reI (startWords ["how to"; "how i"; "how you can"; "how we";
                        "the complete guide"; "ultimate guide";
                        "step-by-step"]%string);
       reI (boundedWords ["learn to"; "mastering"; "guide to";
                          "roadmap to"]%string) ]);
    (HookType.NONE, []) ].

Record BodyRules := {
  patterns : list RegExp;
  indicators : list jsstring
}.

(** The non-ASCII literals of the LISTICLE and THREAD rules are given by
    their code units, as they stand in the source file. *)
Definition bullet1 : regex := lit' [226; 8364; 162]%N.
Definition bullet2 : regex := lit' [226; 8224; 8217]%N.
Definition bullet3 : regex := lit' [226; 339; 8220]%N.
Definition bullet4 : regex := lit' [226; 339; 8212]%N.
Definition bullet5 : regex := lit' [226; 8211; 184]%N.
Definition threadGlyph : regex := lit' [240; 376; 167; 181]%N.

Definition BODY_PATTERNS : list (BodyType.t * BodyRules) :=
  [ (BodyType.PROBLEM_SOLUTION,
     {| patterns :=
          [ reIS (seqs [boundedWords ["problem"; "issue"; "challenge";
                                      "struggle"; "pain point"]%string;
                        anyRun;
                        boundedWords ["solution"; "fix"; "answer"; "resolve";
                                      "solve"]%string]);
            reI (seqs [WordB; lit "here's how ";
                       opt (words ["i "; "we "; "you "]%string);
                       words ["solved"; "fixed"; "overcame"]%string]);
            reI (boundedWords ["the fix"; "the solution";
                               "what worked"]%string) ];
        indicators := [str "problem-solution"; str "challenge-overcome";
                       str "struggle-resolution"] |});
    (BodyType.STORY_DRIVEN,
     {| patterns :=
          [ reI (startWords ["so"; "i was"; "when i"; "my journey";
                             "my story"]%string);
            reI (boundedWords ["then one day"; "that's when"; "fast forward";
                               "years later"]%string);
            reI (boundedWords ["the turning point"; "everything changed";
                               "this moment"]%string) ];
        indicators := [str "narrative"; str "personal-experience";
                       str "chronological"] |});
    (BodyType.LISTICLE,
     {| patterns :=
          [ reM (Seq Bol (alts [Seq digits (lit "."); lit "1."; bullet1;
                                lit "-"; bullet2]));
            reM (seqs [chr LF; digits; lit "."]);
            reM (Seq (chr LF) (alts [bullet1; lit "-"; bullet2; bullet3;
                                     bullet4; bullet5])) ];
        indicators := [str "numbered-list"; str "bullet-points";
                       str "enumerated-items"] |});
    (BodyType.TUTORIAL,
     {| patterns :=
          [ reI (seqs [WordB;
                       alts [Seq (lit "step ") digits; lit "first";
                             lit "then"; lit "next"; lit "finally";
                             lit "lastly"];
                       WordB]);
            reI (boundedWords ["here's how"; "follow these";
                               "do this"]%string);
            reI (boundedWords ["tutorial"; "guide"; "walkthrough"]%string) ];
        indicators := [str "step-by-step"; str "instructional";
                       str "how-to"] |});
    (BodyType.INSIGHT_SHARING,
     {| patterns :=
          [ reI (boundedWords ["i learned"; "i realized"; "the key insight";
                               "my biggest takeaway"]%string);
            reI (boundedWords ["here's what"; "i discovered";
                               "what i wish i knew"]%string);
            reI (boundedWords ["the secret"; "the truth about";
                               "reality is"]%string) ];
        indicators := [str "wisdom"; str "lesson"; str "insight";
                       str "realization"] |});
    (BodyType.COMPARISON,
     {| patterns :=
          [ reI (seqs [WordB;
                       alts [Seq (lit "vs") (opt (lit ".")); lit "versus";
                             lit "compared to"; lit "instead of";
                             lit "rather than"];
                       WordB]);
            reI (boundedWords ["the difference between";
                               "this vs that"]%string);
            reI (boundedWords ["while"; "whereas";
                               "on the other hand"]%string) ];
        indicators := [str "comparison"; str "contrast"; str "versus"] |});
    (BodyType.MYTH_BUSTING,
     {| patterns :=
          [ reI (boundedWords ["myth"; "misconception"; "wrong about";
                               "false"; "lie"; "believe"]%string);
            reI (boundedWords ["don't believe"; "stop believing";
                               "the truth about"; "debunking"]%string);
            reI (boundedWords ["actually"; "in reality";
                               "the reality is"]%string) ];
        indicators := [str "myth"; str "misconception"; str "debunking";
                       str "truth-reveal"] |});
    (BodyType.LESSON_LEARNED,
     {| patterns :=
          [ reI (boundedWords ["lesson"; "learned"; "mistake i made";
                               "what i learned"; "biggest lesson"]%string);
            reI (boundedWords ["if i could go back"; "i wish i knew";
                               "i would tell my younger"]%string);
            reI (boundedWords ["regret"; "wish i had";
                               "should have"]%string) ];
        indicators := [str "lesson"; str "mistake"; str "regret";
                       str "learning"] |});
    (BodyType.THREAD,
     {| patterns :=
          [ reI (seqs [WordB; alts [lit "thread"; threadGlyph;
                                    lit "a thread"]; WordB]);
            reM (seqs [chr LF; digits; lit "/"; digits]);
            reI (seqs [WordB;
                       alts [Seq (lit "part ") digits; lit "continued";
                             lit "follow for more"];
                       WordB]) ];
        indicators := [str "thread"; str "series"; str "multi-part"] |});
    (BodyType.NARRATIVE,
     {| patterns :=
          [ reI (boundedWords ["once upon"; "picture this"; "imagine";
                               "let me paint a picture"]%string);
            reI (boundedWords ["the story of"; "this is the story";
                               "tale of"]%string);
            reI (boundedWords ["it all started";
                               "in the beginning"]%string) ];
        indicators := [str "narrative"; str "storytelling";
                       str "scenario"] |}) ].

Definition CTA_PATTERNS : list (CTAType.t * list RegExp) :=
  [ (CTAType.QUESTION_TO_AUDIENCE,
     [ re (Seq (lit "?") Eol);
       reI (seqs [boundedWords ["what do you think"; "your thoughts";
                                "agree or disagree"; "what's your";
                                "how do you"; "share your"]%string;
                  anyRun; lit "?"]);
       reI (seqs [boundedWords ["let me know"; "tell me";
                                "comment below"]%string;
                  anyRun; lit "?"]) ]);
    (CTAType.LINK,
     [ re (seqs [lit "http"; opt (lit "s"); lit "://"]);
       reI (boundedWords ["link in bio"; "check the link"; "visit";
                          "click here"; "read more at"]%string);
       reI (seqs [boundedWords ["link"; "article"; "blog"; "podcast";
                                "video"]%string;
                  anyRun;
                  boundedWords ["below"; "here"]%string]) ]);
    (CTAType.ENGAGEMENT_BAIT,
     [ reI (boundedWords ["like if"; "comment"; "share"; "save"; "follow";
                          "subscribe"; "retweet"]%string);
       reI (seqs [boundedWords ["drop a"; "leave a"; "type";
                                "drop your"]%string;
                  anyRun;
                  boundedWords ["comment"; "below"; "emoji";
                                "reply"]%string]);
       reI (boundedWords ["double tap"; "hit that";
                          "smash that"]%string) ]);
    (CTAType.FOLLOW_UP,
     [ reI (boundedWords ["follow for"; "stay tuned"; "coming next";
                          "tomorrow i'll"; "next post"]%string);
       reI (seqs [WordB;
                  alts [lit "to be continued"; Seq (lit "part ") digits;
                        lit "more to come"];
                  WordB]);
       reI (boundedWords ["turn on notifications";
                          "enable notifications"]%string) ]);
    (CTAType.SAVE_FOR_LATER,
     [ reI (boundedWords ["save this"; "bookmark"; "pin this";
                          "save for later"]%string);
       reI (boundedWords ["save this post"; "worth saving";
                          "reference"]%string) ]);
    (CTAType.SHARE,
     [ reI (boundedWords ["share this"; "send this to"; "tag someone";
                          "forward this"]%string);
       reI (boundedWords ["this might help someone";
                          "someone needs to hear this"]%string);
       reI (boundedWords ["repost"; "retweet";
                          "share with your"]%string) ]);
    (CTAType.COMMENT_PROMPT,
     [ reI (seqs [boundedWords ["comment"; "reply"; "drop"; "type"]%string;
                  anyRun; WordB;
                  alts [lit "below"; lit "your";
                        seqs [lit "a"; opt (lit "n"); lit " emoji"]];
                  WordB]);
       reI (boundedWords ["starting a discussion"; "let's discuss";
                          "conversation starter"]%string);
       reI (boundedWords ["i want to hear from you";
                          "tell me about"]%string) ]);
    (CTAType.NONE, []) ].

Definition EMOTIONAL_TRIGGER_WORDS
  : list (EmotionalTrigger.t * list jsstring) :=
  [ (EmotionalTrigger.CURIOSITY,
     map str ["secret"; "hidden"; "nobody knows"; "revealed"; "discover";
              "find out"; "you need to see"; "must read"]%string);
    (EmotionalTrigger.FEAR,
     map str ["avoid"; "danger"; "warning"; "careful";
              "don't make this mistake"; "at risk"; "losing";
              "scared"]%string);
    (EmotionalTrigger.EXCITEMENT,
     map str ["amazing"; "incredible"; "breakthrough"; "revolutionary";
              "game-changer"; "exciting"; "thrilled"]%string);
    (EmotionalTrigger.VALIDATION,
     map str ["you're not alone"; "it's okay"; "normal";
              "everyone struggles"; "you deserve";
              "your feelings"]%string);
    (EmotionalTrigger.SURPRISE,
     map str ["shocking"; "unexpected"; "you won't believe"; "surprising";
              "never thought"; "plot twist"]%string);
    (EmotionalTrigger.ANGER,
     map str ["outrageous"; "unacceptable"; "ridiculous"; "angry";
              "frustrated"; "unfair"; "injustice"]%string);
    (EmotionalTrigger.NOSTALGIA,
     map str ["remember when"; "back in the day"; "used to"; "growing up";
              "childhood"; "the good old"]%string);
    (EmotionalTrigger.INSPIRATION,
     map str ["dream"; "believe"; "achieve"; "success"; "inspire";
              "motivate"; "you can do it"; "never give up"]%string);
    (EmotionalTrigger.FRUSTRATION,
     map str ["tired of"; "sick of"; "enough is enough"; "frustrating";
              "annoying"; "sick and tired"]%string);
    (EmotionalTrigger.HOPE,
     map str ["hope"; "opportunity"; "possible"; "bright future";
              "looking forward"; "optimistic"; "better days"]%string);
    (EmotionalTrigger.URGENCY,
     map str ["now"; "today"; "immediately"; "don't wait"; "running out";
              "limited time"; "before it's too late"]%string);
    (EmotionalTrigger.FOMO,
     map str ["everyone is"; "don't miss"; "last chance"; "exclusive";
              "only"; " spots left"; "before everyone else"]%string) ].

(** ** Numbers *)

Definition Qltb (a b : Q) : bool := negb (Qle_bool b a).

(** [Math.min] and [Math.round] on exact rationals; [Math.round] rounds
    halves up. *)
Definition Math_min (a b : Q) : Q := if Qle_bool a b then a else b.
Definition Math_round (a : Q) : Z := Qfloor (a + (1 # 2))%Q.

Definition Math_max (a b : Q) : Q := if Qle_bool a b then b else a.

Definition ofZ (z : Z) : Q := inject_Z z.
Definition lengthZ {A} (l : list A) : Z := Z.of_nat (length l).

(** [Array.prototype.sort] with the comparator [(a, b) => key(b) - key(a)]:
    descending by key, and stable. [insertDesc] inserts an element that
    precedes, in the input, all those of the sorted list. *)
Fixpoint insertDesc {A} (key : A -> Q) (x : A) (sorted : list A) : list A :=
  match sorted with
  | [] => [x]
  | y :: t =>
      if Qltb (key x) (key y) then y :: insertDesc key x t
      else x :: y :: t
  end.

Definition sortDesc {A} (key : A -> Q) (l : list A) : list A :=
  fold_right (insertDesc key) [] l.

(** The decimal numeral of a length, as template literals print it. *)
Definition natToString (n : nat) : jsstring :=
  str (DecimalString.NilZero.string_of_uint (Nat.to_uint n)).

(** ** The analyzer ([viral-analyzer.ts]) *)

Fixpoint codePoints (s : jsstring) : list N :=
  match s with
  | [] => []
  | hi :: t =>
      match t with
      | lo :: t' =>
          if (inRange 55296 56319 hi && inRange 56320 57343 lo)%N
          then (65536 + (hi - 55296) * 1024 + (lo - 56320))%N :: codePoints t'
          else hi :: codePoints t
      | [] => [hi]
      end
  end.

Definition utf16 (cp : N) : jsstring :=
  if (cp <? 65536)%N then [cp]
  else [(55296 + (cp - 65536) / 1024)%N; (56320 + (cp - 65536) mod 1024)%N].

(** [/[\u{1F300}-\u{1F9FF}]|[\u{2600}-\u{26FF}]|[\u{2700}-\u{27BF}]/gu] *)
Definition emojiRegex : regex :=
  alts [ CharSet false [(127744, 129535)]%N;
         CharSet false [(9728, 9983)]%N;
         CharSet false [(9984, 10175)]%N ].

(** [/#[\w]+/g], [/@[\w]+/g], [/https?:\/\/[^\s]+/g] and
    [/\b\d+(?:,\d{3})*(?:\.\d+)?%?\b/g] *)
Definition hashtagRegex : regex := Seq (lit "#") (plus wordc).
Definition mentionRegex : regex := Seq (lit "@") (plus wordc).
Definition urlRegex : regex :=
  seqs [lit "http"; opt (lit "s"); lit "://"; plus notSpace].
Definition numberRegex : regex :=
  seqs [ WordB; digits;
         Star (Seq (lit ",") (seqs [digit; digit; digit]));
         opt (Seq (lit ".") digits);
         opt (lit "%"); WordB ].

(** [/\n\d+\./] and the bullet pattern of [detectBodyType]: a line feed and
    one code unit of the class, whose members are those that stand between
    the brackets in the source file (with [-] and [*] among them). *)
Definition numberedItemRegex : regex := seqs [chr LF; digits; lit "."].
Definition bulletPointRegex : regex :=
  Seq (chr LF)
      (CharSet false [(226, 226); (8364, 8364); (162, 162); (45, 45);
                      (42, 42); (226, 226); (8224, 8224); (8217, 8217)]%N).

(** [/\n[...]|\n\d+\./], the list-formatting pattern. *)
Definition listFormattingRegex : regex := Alt bulletPointRegex numberedItemRegex.

(** The five timing patterns of [detectTimingSignals], all with the [i]
    flag, and their type names. *)
Definition timePatterns : list (RegExp * jsstring) :=
  [ (reI (boundedWords ["monday"; "tuesday"; "wednesday"; "thursday";
                        "friday"; "saturday"; "sunday"]%string),
     str "day_mention");
    (reI (boundedWords ["morning"; "afternoon"; "evening"; "night"]%string),
     str "time_of_day");
    (reI (boundedWords ["today"; "tomorrow"; "yesterday"; "this week";
                        "next week"]%string),
     str "temporal_reference");
    (reI (boundedWords ["now"; "right now"; "at this moment";
                        "currently"]%string),
     str "urgency_marker");
    (reI (seqs [WordB; digits; lit " ";
                words ["days"; "weeks"; "months"; "years"]%string;
                lit " ago"; WordB]),
     str "past_reference") ].

Definition topicPatterns : list (jsstring * list jsstring) :=
  [ (str "entrepreneurship",
     map str ["startup"; "business"; "entrepreneur"; "founder";
              "ceo"]%string);
    (str "career",
     map str ["job"; "career"; "interview"; "resume"; "hiring";
              "work"]%string);
    (str "technology",
     map str ["ai"; "tech"; "software"; "code"; "developer";
              "programming"]%string);
    (str "finance",
     map str ["money"; "invest"; "stock"; "crypto"; "finance";
              "wealth"]%string);
    (str "self-improvement",
     map str ["growth"; "habits"; "productivity"; "mindset";
              "success"]%string);
    (str "leadership",
     map str ["leader"; "management"; "team"; "manager"; "lead"]%string) ].

Definition trendingTopics : list jsstring :=
  map str ["ai"; "entrepreneurship"; "remote-work"; "mental-health";
           "sustainability"]%string.

Definition upperRanges : list (char * char) := [(65, 90)]%N.
Definition letterRanges : list (char * char) := [(97, 122); (65, 90)]%N.

Section Analyzer.
Context {CM : CaseMapping}.

Definition execRe (r : RegExp) (s : jsstring) : option matchResult :=
  exec (reFlags r) (pattern r) s.

Definition testRe (r : RegExp) (s : jsstring) : bool :=
  test (reFlags r) (pattern r) s.

Definition nonBlank (s : jsstring) : bool :=
  (0 <? length (trim s))%nat.

Definition analyzeCapitalization (content : jsstring)
  : CapitalizationPattern :=
  let words := split noFlags spaces content in
  let allCapsWords :=
    filter (fun w => (1 <? length w)%nat && streq w (toUpperCase w)
                     && test noFlags (CharSet false upperRanges) w)
           words in
  let titleCaseWords :=
    filter (fun w =>
              let letters := replaceClass noFlags true letterRanges [] w in
              match letters with
              | [] => false
              | c :: rest => streq [c] (toUpperCase [c])
                             && streq rest (toLowerCase rest)
              end) words in
  let letterWords :=
    filter (fun w => test noFlags (CharSet false letterRanges) w) words in
  let avgLength : Q :=
    if (0 <? length letterWords)%nat
    then (ofZ (fold_left (fun sum w => sum + lengthZ w)%Z letterWords 0%Z)
          / ofZ (lengthZ letterWords))%Q
    else 0%Q in
  {| hasAllCaps := (0 <? length allCapsWords)%nat;
     allCapsWords := allCapsWords;
     hasTitleCase := (0 <? length titleCaseWords)%nat;
     averageWordLength := (ofZ (Math_round (avgLength * 10)) / 10)%Q |}.

Definition analyzeLineBreaks (lines : list jsstring) : LineBreakStructure :=
  let lengths := map (fun l => lengthZ l) lines in
  let avgLength : Q :=
    if (0 <? length lengths)%nat
    then (ofZ (fold_left Z.add lengths 0%Z) / ofZ (lengthZ lengths))%Q
    else 0%Q in
  {| totalLineBreaks := (lengthZ lines - 1)%Z;
     averageLineLength := Math_round avgLength;
     shortLines := lengthZ (filter (fun l => l <? 30)%Z lengths);
     mediumLines :=
       lengthZ (filter (fun l => (30 <=? l) && (l <? 100))%Z lengths);
     longLines := lengthZ (filter (fun l => 100 <=? l)%Z lengths);
     hasDoubleLineBreaks :=
       existsb (fun l => (length (trim l) =? 0)%nat) lines |}.

Definition parsePostContent (content : jsstring) : ParsedContent :=
  let lines := filter nonBlank (splitChar LF content) in
  let paragraphs :=
    filter nonBlank
           (split noFlags (seqs [chr LF; Star space; chr LF]) content) in
  let words :=
    filter (fun w => (0 <? length w)%nat) (split noFlags spaces content) in
  let emojis :=
    map (flat_map utf16) (matchAll noFlags emojiRegex (codePoints content)) in
  let hashtags := matchAll noFlags hashtagRegex content in
  let mentions := matchAll noFlags mentionRegex content in
  let links := matchAll noFlags urlRegex content in
  let numbers := matchAll noFlags numberRegex content in
  {| original := content;
     lines := lines;
     paragraphs := paragraphs;
     wordCount := lengthZ words;
     characterCount := lengthZ content;
     hasEmoji := (0 <? length emojis)%nat;
     emojiCount := lengthZ emojis;
     hasHashtags := (0 <? length hashtags)%nat;
     hashtags := hashtags;
     hasMentions := (0 <? length mentions)%nat;
     mentions := mentions;
     hasLinks := (0 <? length links)%nat;
     links := links;
     hasNumbers := (0 <? length numbers)%nat;
     numbers := numbers;
     capitalizationPatterns := analyzeCapitalization content;
     lineBreakStructure := analyzeLineBreaks lines |}.

(** The object the three detectors build: [type], [confidence] and
    [matchedText] (for the body detector, [structure]). *)
Record Detection (T : Type) := {
  dtype : T;
  confidence : Q;
  matchedText : jsstring
}.

(** [a.match(p) || b.match(p)] *)
Definition matchEither (p : RegExp) (a b : jsstring) : option matchResult :=
  match execRe p a with
  | Some m => Some m
  | None => execRe p b
  end.

Definition lastLine (ls : list jsstring) : option jsstring :=
  nth_error ls (length ls - 1).

Definition endsWithQuestionMark (l : option jsstring) : bool :=
  match l with
  | Some s => endsWith (str "?") s
  | None => false
  end.

Definition orEmpty (l : option jsstring) : jsstring :=
  match l with Some s => s | None => [] end.

Definition detectHookType (parsed : ParsedContent)
  : Detection HookType.t :=
  let firstLine := orEmpty (option_map toLowerCase (nth_error (lines parsed) 0)) in
  let firstTwoLines :=
    toLowerCase (join (str " ") (firstn 2 (lines parsed))) in
  let bestMatch :=
    fold_left
      (fun best entry =>
         let '(hookType, patterns) := entry in
         if HookType.eqb hookType HookType.NONE then best
         else
           fold_left
             (fun best pattern =>
                match matchEither pattern firstLine firstTwoLines with
                | Some m =>
                    let confidence' :=
                      if (index m =? 0)%nat then (9 # 10)%Q else (7 # 10)%Q in
                    if Qltb (confidence best) confidence'
                    then {| dtype := hookType; confidence := confidence';
                            matchedText := matched m |}
                    else best
                | None => best
                end)
             patterns best)
      HOOK_PATTERNS
      {| dtype := HookType.NONE; confidence := 0%Q; matchedText := [] |} in
  if endsWithQuestionMark (nth_error (lines parsed) 0)
     && Qltb (confidence bestMatch) (8 # 10)%Q
  then {| dtype := HookType.QUESTION; confidence := (85 # 100)%Q;
          matchedText := orEmpty (nth_error (lines parsed) 0) |}
  else bestMatch.

Definition detectBodyType (parsed : ParsedContent)
  : Detection BodyType.t :=
  let content := toLowerCase (original parsed) in
  let hasNumberedItems := test noFlags numberedItemRegex (original parsed) in
  let hasBulletPoints := test noFlags bulletPointRegex (original parsed) in
  if hasNumberedItems || hasBulletPoints then
    let itemCount :=
      (length (matchAll noFlags numberedItemRegex (original parsed))
       + length (matchAll noFlags bulletPointRegex (original parsed)))%nat in
    {| dtype := BodyType.LISTICLE; confidence := (9 # 10)%Q;
       matchedText := natToString itemCount ++ str " items" |}
  else
    fold_left
      (fun best entry =>
         let '(bodyType, rules) := entry in
         let matchCount : Q :=
           fold_left (fun n pattern =>
                        if testRe pattern content then (n + 1)%Q else n)
                     (patterns rules) 0%Q in
         let '(matchCount, matchedIndicator) :=
           fold_left
             (fun acc indicator =>
                if includes (replaceFirstChar 45%N 32%N indicator) content
                then (fst acc + (1 # 2), indicator)%Q
                else acc)
             (indicators rules) (matchCount, []) in
         if Qltb 0%Q matchCount then
           let confidence' :=
             Math_min (9 # 10) ((4 # 10) + matchCount * (15 # 100))%Q in
           if Qltb (confidence best) confidence'
           then {| dtype := bodyType; confidence := confidence';
                   matchedText :=
                     match matchedIndicator with
                     | [] => str "pattern-detected"
                     | _ :: _ => matchedIndicator
                     end |}
           else best
         else best)
      BODY_PATTERNS
      {| dtype := BodyType.INSIGHT_SHARING; confidence := (3 # 10)%Q;
         matchedText := str "general" |}.

Definition detectCTAType (parsed : ParsedContent) : Detection CTAType.t :=
  let lastLines :=
    toLowerCase (join (str " ") (sliceLast 3 (lines parsed))) in
  let fullContent := toLowerCase (original parsed) in
  let bestMatch :=
    fold_left
      (fun best entry =>
         let '(ctaType, patterns) := entry in
         if CTAType.eqb ctaType CTAType.NONE then best
         else
           fold_left
             (fun best pattern =>
                match matchEither pattern lastLines fullContent with
                | Some m =>
                    let confidence' :=
                      if includes (matched m) lastLines
                      then (85 # 100)%Q else (7 # 10)%Q in
                    if Qltb (confidence best) confidence'
                    then {| dtype := ctaType; confidence := confidence';
                            matchedText := matched m |}
                    else best
                | None => best
                end)
             patterns best)
      CTA_PATTERNS
      {| dtype := CTAType.NONE; confidence := 0%Q; matchedText := [] |} in
  let bestMatch :=
    if endsWithQuestionMark (lastLine (lines parsed))
       && Qltb (confidence bestMatch) (7 # 10)%Q
    then {| dtype := CTAType.QUESTION_TO_AUDIENCE;
            confidence := (75 # 100)%Q;
            matchedText := orEmpty (lastLine (lines parsed)) |}
    else bestMatch in
  if hasLinks parsed && Qltb (confidence bestMatch) (6 # 10)%Q
  then {| dtype := CTAType.LINK; confidence := (6 # 10)%Q;
          matchedText := orEmpty (nth_error (links parsed) 0) |}
  else bestMatch.

Definition detectEmotionalTriggers (parsed : ParsedContent)
  : list EmotionalTrigger.t :=
  let content := toLowerCase (original parsed) in
  fold_left
    (fun detectedTriggers entry =>
       let '(trigger, words) := entry in
       if existsb (fun word => includes (toLowerCase word) content) words
       then if existsb (EmotionalTrigger.eqb trigger) detectedTriggers
            then detectedTriggers
            else detectedTriggers ++ [trigger]
       else detectedTriggers)
    EMOTIONAL_TRIGGER_WORDS [].

Definition identifyFormatPattern (parsed : ParsedContent)
           (platform : Platform) : DetectedFormatPattern.t :=
  let hookResult := detectHookType parsed in
  let bodyResult := detectBodyType parsed in
  let ctaResult := detectCTAType parsed in
  {| DetectedFormatPattern.hookType := dtype hookResult;
     DetectedFormatPattern.hookConfidence := confidence hookResult;
     DetectedFormatPattern.hookText := matchedText hookResult;
     DetectedFormatPattern.bodyType := dtype bodyResult;
     DetectedFormatPattern.bodyConfidence := confidence bodyResult;
     DetectedFormatPattern.bodyStructure := matchedText bodyResult;
     DetectedFormatPattern.ctaType := dtype ctaResult;
     DetectedFormatPattern.ctaConfidence := confidence ctaResult;
     DetectedFormatPattern.ctaText := matchedText ctaResult |}.

Definition analyzeFormatElements (parsed : ParsedContent)
           (platform : Platform) : list FormatElement.t :=
  [ {| FormatElement.type := str "emoji_usage";
       FormatElement.present := hasEmoji parsed;
       FormatElement.count := emojiCount parsed;
       FormatElement.significance :=
         match platform with twitter => medium | linkedin => high end |};
    {| FormatElement.type := str "hashtag_usage";
       FormatElement.present := hasHashtags parsed;
       FormatElement.count := lengthZ (hashtags parsed);
       FormatElement.significance :=
         match platform with twitter => high | linkedin => medium end |};
    {| FormatElement.type := str "line_breaks";
       FormatElement.present :=
         (0 <? totalLineBreaks (lineBreakStructure parsed))%Z;
       FormatElement.count := totalLineBreaks (lineBreakStructure parsed);
       FormatElement.significance :=
         match platform with linkedin => high | twitter => medium end |};
    {| FormatElement.type := str "all_caps_emphasis";
       FormatElement.present := hasAllCaps (capitalizationPatterns parsed);
       FormatElement.count :=
         lengthZ (allCapsWords (capitalizationPatterns parsed));
       FormatElement.significance := high |};
    {| FormatElement.type := str "number_inclusion";
       FormatElement.present := hasNumbers parsed;
       FormatElement.count := lengthZ (numbers parsed);
       FormatElement.significance := high |};
    {| FormatElement.type := str "list_formatting";
       FormatElement.present :=
         test noFlags listFormattingRegex (original parsed);
       FormatElement.count :=
         lengthZ (matchAll noFlags listFormattingRegex (original parsed));
       FormatElement.significance := high |} ].

Definition detectTimingSignals (parsed : ParsedContent)
  : list TimingSignal.t :=
  let content := toLowerCase (original parsed) in
  fold_left
    (fun signals entry =>
       let '(pattern', type') := entry in
       match execRe pattern' content with
       | Some m =>
           signals ++ [ {| TimingSignal.type := type';
                           TimingSignal.detected := true;
                           TimingSignal.context := matched m |} ]
       | None => signals
       end)
    timePatterns [].

Definition isTopicTrending (topic : jsstring) : bool :=
  existsb (streq (toLowerCase topic)) trendingTopics.

Definition analyzeTopicRelevance (parsed : ParsedContent)
  : list TopicRelevance.t :=
  let content := toLowerCase (original parsed) in
  let topics :=
    fold_left
      (fun topics entry =>
         let '(topic', keywords) := entry in
         let matchCount :=
           lengthZ (filter (fun kw => includes kw content) keywords) in
         if (0 <? matchCount)%Z
         then topics
              ++ [ {| TopicRelevance.topic := topic';
                      TopicRelevance.relevanceScore :=
                        Math_min 1 (ofZ matchCount * (3 # 10))%Q;
                      TopicRelevance.trending := isTopicTrending topic' |} ]
         else topics)
      topicPatterns [] in
  sortDesc TopicRelevance.relevanceScore topics.

Definition calculateLengthScore (parsed : ParsedContent)
           (platform : Platform) : Q :=
  let '(min', max') :=
    match platform with
    | linkedin => (150, 300)%Z
    | twitter => (50, 280)%Z
    end in
  let length' := wordCount parsed in
  if ((min' <=? length') && (length' <=? max'))%Z then 100%Q
  else if (length' <? min')%Z
       then Math_max 0 (100 - ofZ (min' - length') * 2)%Q
       else Math_max 0 (100 - ofZ (length' - max') * (1 # 2))%Q.

Definition getLengthReason (parsed : ParsedContent) (platform : Platform)
  : jsstring :=
  let length' := wordCount parsed in
  match platform with
  | linkedin =>
      if (length' <? 100)%Z then str "Post is quite short for LinkedIn"
      else if (500 <? length')%Z
           then str "Post may be too long for optimal engagement"
           else str "Good length for LinkedIn engagement"
  | twitter =>
      if (length' <? 50)%Z then str "Very short for Twitter"
      else if (280 <? length')%Z then str "May need thread format"
           else str "Good length for Twitter engagement"
  end.

(** [/[A-Z]{2,}/], [/^\d+/] and [/[\u{1F300}-\u{1F9FF}]/u] on the first
    line. *)
Definition calculateHookStrengthScore (parsed : ParsedContent) : Q :=
  let firstLine := orEmpty (nth_error (lines parsed) 0) in
  let upper := CharSet false upperRanges in
  let score := 50%Q in
  let score :=
    if endsWith (str "?") firstLine then (score + 20)%Q else score in
  let score :=
    if test noFlags (seqs [upper; upper; Star upper]) firstLine
    then (score + 15)%Q else score in
  let score :=
    if test noFlags (Seq Bol digits) firstLine
    then (score + 15)%Q else score in
  let score :=
    if (length firstLine <? 100)%nat then (score + 10)%Q else score in
  let score :=
    if test noFlags (CharSet false [(127744, 129535)]%N)
            (codePoints firstLine)
    then (score + 10)%Q else score in
  Math_min 100 score.

Definition calculateReadabilityScore (parsed : ParsedContent) : Q :=
  let score := 70%Q in
  let score :=
    if (averageLineLength (lineBreakStructure parsed) <? 80)%Z
    then (score + 10)%Q else score in
  let score :=
    if (1 <? length (paragraphs parsed))%nat then (score + 10)%Q else score in
  let score :=
    if (longLines (lineBreakStructure parsed)
        <? shortLines (lineBreakStructure parsed))%Z
    then (score + 5)%Q else score in
  let score :=
    if Qltb (averageWordLength (capitalizationPatterns parsed)) 6
    then (score + 5)%Q else score in
  Math_min 100 score.

Definition calculateEngagementPotential (parsed : ParsedContent) : Q :=
  let score := 40%Q in
  let score := if hasEmoji parsed then (score + 15)%Q else score in
  let score := if hasHashtags parsed then (score + 10)%Q else score in
  let score := if hasNumbers parsed then (score + 15)%Q else score in
  let score :=
    if includes (str "?") (original parsed) then (score + 10)%Q else score in
  let score :=
    if test noFlags listFormattingRegex (original parsed)
    then (score + 10)%Q else score in
  Math_min 100 score.

Definition calculateViralityIndicators (parsed : ParsedContent)
           (platform : Platform) : list ViralityIndicator.t :=
  [ {| ViralityIndicator.indicator := str "optimal_length";
       ViralityIndicator.score := calculateLengthScore parsed platform;
       ViralityIndicator.reason := getLengthReason parsed platform |};
    {| ViralityIndicator.indicator := str "hook_strength";
       ViralityIndicator.score := calculateHookStrengthScore parsed;
       ViralityIndicator.reason := str "First line engagement potential" |};
    {| ViralityIndicator.indicator := str "readability";
       ViralityIndicator.score := calculateReadabilityScore parsed;
       ViralityIndicator.reason := str "Content structure and flow" |};
    {| ViralityIndicator.indicator := str "engagement_potential";
       ViralityIndicator.score := calculateEngagementPotential parsed;
       ViralityIndicator.reason :=
         str "Elements that encourage interaction" |} ].

Definition extractViralSignals (parsed : ParsedContent)
           (platform : Platform) : ViralSignals :=
  {| emotionalTriggers := detectEmotionalTriggers parsed;
     formatElements := analyzeFormatElements parsed platform;
     timingSignals := detectTimingSignals parsed;
     topicRelevance := analyzeTopicRelevance parsed;
     viralityIndicators := calculateViralityIndicators parsed platform |}.
End Analyzer.

(** *** Scoring *)

Definition calculateHookScore (formatPattern : DetectedFormatPattern.t) : Q :=
  let baseScore :=
    if negb (HookType.eqb (DetectedFormatPattern.hookType formatPattern)
                          HookType.NONE)
    then 15%Q else 5%Q in
  let confidenceBonus :=
    (DetectedFormatPattern.hookConfidence formatPattern * 10)%Q in
  Math_min 25 (baseScore + confidenceBonus)%Q.

Definition calculateBodyScore (parsed : ParsedContent)
           (formatPattern : DetectedFormatPattern.t) : Q :=
  let score := 10%Q in
  let score :=
    if negb (BodyType.eqb (DetectedFormatPattern.bodyType formatPattern)
                          BodyType.INSIGHT_SHARING)
    then (score + 8)%Q else score in
  let score :=
    (score + DetectedFormatPattern.bodyConfidence formatPattern * 7)%Q in
  let score :=
    if (3 <? totalLineBreaks (lineBreakStructure parsed))%Z
    then (score + 3)%Q else score in
  let score :=
    if (1 <? length (paragraphs parsed))%nat then (score + 2)%Q else score in
  Math_min 25 score.

Definition ctaScores (c : CTAType.t) : Q :=
  match c with
  | CTAType.QUESTION_TO_AUDIENCE => 15
  | CTAType.ENGAGEMENT_BAIT => 14
  | CTAType.COMMENT_PROMPT => 13
  | CTAType.SHARE => 12
  | CTAType.SAVE_FOR_LATER => 11
  | CTAType.LINK => 10
  | CTAType.FOLLOW_UP => 9
  | CTAType.NONE => 5
  end%Q.

Definition calculateCTAScore (formatPattern : DetectedFormatPattern.t) : Q :=
  if CTAType.eqb (DetectedFormatPattern.ctaType formatPattern) CTAType.NONE
  then 5%Q
  else
    let baseScore :=
      let b := ctaScores (DetectedFormatPattern.ctaType formatPattern) in
      if Qeq_bool b 0 then 8%Q else b in
    let confidenceBonus :=
      (DetectedFormatPattern.ctaConfidence formatPattern * 5)%Q in
    Math_min 15 (baseScore - 5 + confidenceBonus)%Q.

Definition strongEmotions : list EmotionalTrigger.t :=
  [EmotionalTrigger.CURIOSITY; EmotionalTrigger.SURPRISE;
   EmotionalTrigger.URGENCY].

Definition calculateEmotionalScore (signals : ViralSignals) : Q :=
  let triggerCount := lengthZ (emotionalTriggers signals) in
  let baseScore := Math_min 10 (ofZ triggerCount * 3)%Q in
  let hasStrongEmotion :=
    existsb (fun t => existsb (EmotionalTrigger.eqb t) strongEmotions)
            (emotionalTriggers signals) in
  let strongEmotionBonus := if hasStrongEmotion then 5%Q else 0%Q in
  Math_min 15 (baseScore + strongEmotionBonus)%Q.

Definition calculateFormatScore (parsed : ParsedContent)
           (platform : Platform) : Q :=
  let score := 5%Q in
  let score :=
    match platform with
    | linkedin =>
        let score :=
          if (3 <=? totalLineBreaks (lineBreakStructure parsed))%Z
          then (score + 2)%Q else score in
        let score :=
          if (2 <=? length (paragraphs parsed))%nat
          then (score + 2)%Q else score in
        if ((1 <=? emojiCount parsed) && (emojiCount parsed <=? 5))%Z
        then (score + 1)%Q else score
    | twitter =>
        let score := if hasHashtags parsed then (score + 2)%Q else score in
        let score :=
          if (1 <=? emojiCount parsed)%Z then (score + 2)%Q else score in
        if (wordCount parsed <=? 280)%Z then (score + 1)%Q else score
    end in
  Math_min 10 score.

Definition calculatePlatformFitScore (parsed : ParsedContent)
           (platform : Platform) : Q :=
  let score := 5%Q in
  let score :=
    match platform with
    | linkedin =>
        let score :=
          if ((100 <=? wordCount parsed) && (wordCount parsed <=? 400))%Z
          then (score + 3)%Q else score in
        if (2 <=? length (paragraphs parsed))%nat
        then (score + 2)%Q else score
    | twitter =>
        let score :=
          if (wordCount parsed <=? 280)%Z then (score + 3)%Q else score in
        if hasHashtags parsed then (score + 2)%Q else score
    end in
  Math_min 10 score.

(** The sum of the six terms, before the engagement multiplier. *)
Definition sixTermSum (post : ViralPost.t) (parsed : ParsedContent)
           (formatPattern : DetectedFormatPattern.t)
           (signals : ViralSignals) : Q :=
  (0 + calculateHookScore formatPattern
     + calculateBodyScore parsed formatPattern
     + calculateCTAScore formatPattern
     + calculateEmotionalScore signals
     + calculateFormatScore parsed (ViralPost.platform post)
     + calculatePlatformFitScore parsed (ViralPost.platform post))%Q.

(** [post.metrics.engagementRate && post.metrics.engagementRate > 5] *)
Definition engagementBoost (post : ViralPost.t) : bool :=
  match engagementRate (ViralPost.metrics post) with
  | Some r => Qltb 5 r
  | None => false
  end.

Definition calculateViralityScore (post : ViralPost.t) (parsed : ParsedContent)
           (formatPattern : DetectedFormatPattern.t)
           (signals : ViralSignals) : Q :=
  let score := sixTermSum post parsed formatPattern signals in
  let score :=
    if engagementBoost post
    then Math_min 100 (score * (11 # 10))%Q else score in
  Math_min 100 (ofZ (Math_round score)).

(** The division by [viralityIndicators.length * 100] is by 400 on every
    path of the source: [extractViralSignals] returns four indicators.
    [Math.round] is applied to the exact value here; the double of the code
    can lie just below a half that the exact value reaches, and the result
    then differs by 0.01. *)
Definition calculateOverallConfidence (formatPattern : DetectedFormatPattern.t)
           (signals : ViralSignals) : Q :=
  let hookConfidence := DetectedFormatPattern.hookConfidence formatPattern in
  let bodyConfidence := DetectedFormatPattern.bodyConfidence formatPattern in
  let ctaConfidence := DetectedFormatPattern.ctaConfidence formatPattern in
  let signalStrength :=
    (fold_left (fun sum i => sum + ViralityIndicator.score i)%Q
               (viralityIndicators signals) 0
     / (ofZ (lengthZ (viralityIndicators signals)) * 100))%Q in
  (ofZ (Math_round
          (((hookConfidence + bodyConfidence + ctaConfidence) / 3 * (7 # 10)
            + signalStrength * (3 # 10)) * 100))
   / 100)%Q.

Definition generateRecommendations (parsed : ParsedContent)
           (formatPattern : DetectedFormatPattern.t) (signals : ViralSignals)
           (platform : Platform) : list jsstring :=
  (if HookType.eqb (DetectedFormatPattern.hookType formatPattern)
                   HookType.NONE
   then [str "Add a strong hook at the beginning to grab attention"]
   else [])
  ++ (if CTAType.eqb (DetectedFormatPattern.ctaType formatPattern)
                     CTAType.NONE
      then [str "Include a clear call-to-action to drive engagement"]
      else [])
  ++ (if (length (emotionalTriggers signals) =? 0)%nat
      then [str "Add emotional elements to increase shareability"]
      else [])
  ++ (if Platform_eqb platform linkedin
         && (totalLineBreaks (lineBreakStructure parsed) <? 3)%Z
      then [str "Add more line breaks for better readability on LinkedIn"]
      else [])
  ++ (if Platform_eqb platform twitter && negb (hasHashtags parsed)
      then [str "Consider adding relevant hashtags for discoverability"]
      else [])
  ++ (if negb (hasNumbers parsed)
      then [str "Include specific numbers or statistics for credibility"]
      else []).

Definition formatMap : list (jsstring * list jsstring) :=
  [ (HookType.value HookType.QUESTION ++ str "_"
     ++ BodyType.value BodyType.LISTICLE,
     [str "Q&A List Format"; str "Numbered Answer Format"]);
    (HookType.value HookType.BOLD_STATEMENT ++ str "_"
     ++ BodyType.value BodyType.STORY_DRIVEN,
     [str "Bold Story Opener"; str "Controversial Story"]);
    (HookType.value HookType.STORY ++ str "_"
     ++ BodyType.value BodyType.LESSON_LEARNED,
     [str "Personal Story Lesson"; str "Failure-to-Success"]);
    (HookType.value HookType.LIST ++ str "_"
     ++ BodyType.value BodyType.LISTICLE,
     [str "Pure Listicle"; str "Numbered Tips"]);
    (HookType.value HookType.HOW_TO ++ str "_"
     ++ BodyType.value BodyType.TUTORIAL,
     [str "Step-by-Step Guide"; str "Tutorial Format"]) ].

Definition findSimilarFormats (formatPattern : DetectedFormatPattern.t)
  : list jsstring :=
  let key :=
    HookType.value (DetectedFormatPattern.hookType formatPattern)
    ++ str "_"
    ++ BodyType.value (DetectedFormatPattern.bodyType formatPattern) in
  match find (fun entry => streq (fst entry) key) formatMap with
  | Some entry => snd entry
  | None => [str "General Viral Format"; str "Engagement Optimized"]
  end.

Section AnalyzePost.
Context {CM : CaseMapping}.

Definition analyzePost (now : jsstring) (post : ViralPost.t)
  : AnalysisResult.t :=
  let parsed := parsePostContent (ViralPost.content post) in
  let formatPattern :=
    identifyFormatPattern parsed (ViralPost.platform post) in
  let viralSignals := extractViralSignals parsed (ViralPost.platform post) in
  let viralityScore :=
    calculateViralityScore post parsed formatPattern viralSignals in
  {| AnalysisResult.postId := ViralPost.id post;
     AnalysisResult.viralityScore := viralityScore;
     AnalysisResult.confidence :=
       calculateOverallConfidence formatPattern viralSignals;
     AnalysisResult.formatPattern := formatPattern;
     AnalysisResult.viralSignals := viralSignals;
     AnalysisResult.recommendations :=
       generateRecommendations parsed formatPattern viralSignals
                               (ViralPost.platform post);
     AnalysisResult.similarFormats := findSimilarFormats formatPattern;
     AnalysisResult.analyzedAt := now |}.
End AnalyzePost.

(** ** The format learner ([format-learner]) *)

(** [formatStore]: a [Map<string, FormatPattern>], in insertion order. *)
Definition Store := list (jsstring * FormatPattern.t).

Fixpoint Map_get (k : jsstring) (m : Store) : option FormatPattern.t :=
  match m with
  | [] => None
  | (k', v) :: t => if streq k' k then Some v else Map_get k t
  end.

Definition Map_has (k : jsstring) (m : Store) : bool :=
  match Map_get k m with Some _ => true | None => false end.

(** [Map.prototype.set]: an existing key keeps its position. *)
Fixpoint Map_set (k : jsstring) (v : FormatPattern.t) (m : Store) : Store :=
  match m with
  | [] => [(k, v)]
  | (k', v') :: t =>
      if streq k' k then (k', v) :: t else (k', v') :: Map_set k v t
  end.

(** [Map.prototype.delete]: whether the key was present, and the map
    without it. *)
Fixpoint Map_delete (k : jsstring) (m : Store) : bool * Store :=
  match m with
  | [] => (false, [])
  | (k', v) :: t =>
      if streq k' k then (true, t)
      else let (found, t') := Map_delete k t in (found, (k', v) :: t')
  end.

Definition Map_values (m : Store) : list FormatPattern.t := map snd m.

Record FormatMatchResult := {
  formatId : jsstring;
  formatName : jsstring;
  matchScore : Q;
  matchingElements : list jsstring;
  suggestedModifications : list jsstring
}.

(** [Partial<Omit<FormatPattern, 'id' | 'createdAt'>>] *)
Module FormatUpdates.
Record t := {
  name : option jsstring;
  description : option jsstring;
  platform : option Platform;
  hookType : option HookType.t;
  bodyType : option BodyType.t;
  ctaType : option CTAType.t;
  template : option jsstring;
  examplePost : option jsstring;
  tags : option (list jsstring);
  effectivenessScore : option Q;
  usageCount : option Z;
  updatedAt : option jsstring
}.
End FormatUpdates.

(** The options object of [findBestMatch]. *)
Record MatchOptions := {
  preferredHook : option HookType.t;
  preferredBody : option BodyType.t;
  preferredCTA : option CTAType.t;
  targetEmotions : option (list EmotionalTrigger.t);
  minEffectiveness : option Q
}.

Inductive MergeStrategy := replace | merge | skip.

Definition orElse {A} (o : option A) (d : A) : A :=
  match o with Some a => a | None => d end.

(** On exact rationals. On the doubles of the code the result is rounded,
    and can leave the interval of the two scores: see
    [calculateUpdatedEffectiveness64] and [learnFromPost64]. *)
Definition calculateUpdatedEffectiveness (currentScore newScore : Q)
           (usageCount : Z) : Q :=
  let weight :=
    if (usageCount + 1 =? 0)%Z then (3 # 10)%Q
    else Math_min (3 # 10) (1 / ofZ (usageCount + 1))%Q in
  (currentScore * (1 - weight) + newScore * weight)%Q.

Definition hookNames (h : HookType.t) : jsstring :=
  match h with
  | HookType.QUESTION => str "Question Hook"
  | HookType.BOLD_STATEMENT => str "Bold Statement"
  | HookType.STORY => str "Story Opener"
  | HookType.LIST => str "List Intro"
  | HookType.CONTROVERSIAL_TAKE => str "Controversial"
  | HookType.STATISTIC => str "Data-Led"
  | HookType.QUOTE => str "Quote-Led"
  | HookType.HOW_TO => str "How-To"
  | HookType.NONE => str "Direct"
  end.

Definition bodyNames (b : BodyType.t) : jsstring :=
  match b with
  | BodyType.PROBLEM_SOLUTION => str "Problem-Solution"
  | BodyType.STORY_DRIVEN => str "Story-Driven"
  | BodyType.LISTICLE => str "Listicle"
  | BodyType.TUTORIAL => str "Tutorial"
  | BodyType.INSIGHT_SHARING => str "Insight"
  | BodyType.COMPARISON => str "Comparison"
  | BodyType.MYTH_BUSTING => str "Myth-Buster"
  | BodyType.LESSON_LEARNED => str "Lesson"
  | BodyType.THREAD => str "Thread"
  | BodyType.NARRATIVE => str "Narrative"
  end.

Definition generateFormatName (formatPattern : DetectedFormatPattern.t)
  : jsstring :=
  hookNames (DetectedFormatPattern.hookType formatPattern) ++ str " "
  ++ bodyNames (DetectedFormatPattern.bodyType formatPattern).

Definition generateFormatDescription
           (formatPattern : DetectedFormatPattern.t) (platform : Platform)
  : jsstring :=
  let platformNote :=
    match platform with
    | linkedin => str "Optimized for LinkedIn professional audience."
    | twitter => str "Optimized for Twitter/X engagement."
    end in
  str "Format using "
  ++ HookType.value (DetectedFormatPattern.hookType formatPattern)
  ++ str " hook with "
  ++ BodyType.value (DetectedFormatPattern.bodyType formatPattern)
  ++ str " structure and "
  ++ CTAType.value (DetectedFormatPattern.ctaType formatPattern)
  ++ str " call-to-action. " ++ platformNote.

Definition topicKeywords : list (jsstring * list jsstring) :=
  [ (str "entrepreneurship",
     map str ["startup"; "business"; "entrepreneur"; "founder";
              "company"]%string);
    (str "career",
     map str ["job"; "career"; "interview"; "resume"; "hiring";
              "promotion"]%string);
    (str "leadership",
     map str ["leader"; "management"; "team"; "manager";
              "executive"]%string);
    (str "technology",
     map str ["ai"; "tech"; "software"; "code"; "developer";
              "automation"]%string);
    (str "finance",
     map str ["money"; "invest"; "wealth"; "financial"; "income";
              "revenue"]%string);
    (str "productivity",
     map str ["productivity"; "habits"; "efficiency"; "time";
              "focus"]%string);
    (str "marketing",
     map str ["marketing"; "sales"; "growth"; "customer"; "brand"]%string);
    (str "self-improvement",
     map str ["growth"; "mindset"; "success"; "goals"; "improve"]%string) ].

Section FormatLearner.
Context {CM : CaseMapping}.

(** [/[^a-z0-9-]/g] replaced by ["-"] *)
Definition generateFormatId (formatPattern : DetectedFormatPattern.t)
           (platform : Platform) : jsstring :=
  let hash :=
    platformName platform ++ str "-"
    ++ HookType.value (DetectedFormatPattern.hookType formatPattern)
    ++ str "-"
    ++ BodyType.value (DetectedFormatPattern.bodyType formatPattern)
    ++ str "-"
    ++ CTAType.value (DetectedFormatPattern.ctaType formatPattern) in
  replaceClass noFlags true [(97, 122); (48, 57); (45, 45)]%N (str "-")
               (toLowerCase hash).

Definition generateTemplate (content : jsstring)
           (formatPattern : DetectedFormatPattern.t) : jsstring :=
  let lines := filter nonBlank (splitChar LF content) in
  let templateParts :=
    if (0 <? length lines)%nat then
      [ str "[HOOK: "
        ++ toUpperCase
             (HookType.value (DetectedFormatPattern.hookType formatPattern))
        ++ str "]";
        str "{First line - grab attention}";
        [] ]
      ++ (match DetectedFormatPattern.bodyType formatPattern with
          | BodyType.LISTICLE =>
              [ str "[BODY: LIST FORMAT]"; str "1. {Point one}";
                str "2. {Point two}"; str "3. {Point three}" ]
          | BodyType.PROBLEM_SOLUTION =>
              [ str "[BODY: PROBLEM " ++ [8594%N] ++ str " SOLUTION]";
                str "{Describe the problem}"; [];
                str "{Present the solution}" ]
          | BodyType.STORY_DRIVEN =>
              [ str "[BODY: STORY]"; str "{Set the scene}"; [];
                str "{The conflict or challenge}"; [];
                str "{The resolution or insight}" ]
          | _ =>
              [ str "[BODY: MAIN CONTENT]";
                str "{Key insights and value}" ]
          end)
      ++ [ [];
           str "[CTA: "
           ++ toUpperCase
                (CTAType.value (DetectedFormatPattern.ctaType formatPattern))
           ++ str "]";
           str "{Call to action}" ]
    else [] in
  join [LF] templateParts.

Definition extractTags (content : jsstring) (analysis : AnalysisResult.t)
  : list jsstring :=
  let lowerContent := toLowerCase content in
  let tags :=
    fold_left
      (fun tags entry =>
         let '(topic, keywords) := entry in
         if existsb (fun kw => includes kw lowerContent) keywords
         then tags ++ [topic] else tags)
      topicKeywords [] in
  let tags :=
    fold_left (fun tags trigger => tags ++ [EmotionalTrigger.value trigger])
              (emotionalTriggers (AnalysisResult.viralSignals analysis))
              tags in
  firstn 10 (dedup tags).

(** [learnFromPost(post, analysisResult?)]: the returned format and the
    store after the call. *)
Definition learnFromPost (now : jsstring) (post : ViralPost.t)
           (analysisResult : option AnalysisResult.t) (formatStore : Store)
  : FormatPattern.t * Store :=
  let analysis := orElse analysisResult (analyzePost now post) in
  let formatId' :=
    generateFormatId (AnalysisResult.formatPattern analysis)
                     (ViralPost.platform post) in
  match Map_get formatId' formatStore with
  | Some existingFormat =>
      let updatedFormat :=
        {| FormatPattern.id := FormatPattern.id existingFormat;
           FormatPattern.name := FormatPattern.name existingFormat;
           FormatPattern.description :=
             FormatPattern.description existingFormat;
           FormatPattern.platform := FormatPattern.platform existingFormat;
           FormatPattern.hookType := FormatPattern.hookType existingFormat;
           FormatPattern.bodyType := FormatPattern.bodyType existingFormat;
           FormatPattern.ctaType := FormatPattern.ctaType existingFormat;
           FormatPattern.template := FormatPattern.template existingFormat;
           FormatPattern.examplePost :=
             FormatPattern.examplePost existingFormat;
           FormatPattern.tags := FormatPattern.tags existingFormat;
           FormatPattern.effectivenessScore :=
             calculateUpdatedEffectiveness
               (FormatPattern.effectivenessScore existingFormat)
               (AnalysisResult.viralityScore analysis)
               (FormatPattern.usageCount existingFormat);
           FormatPattern.usageCount :=
             (FormatPattern.usageCount existingFormat + 1)%Z;
           FormatPattern.createdAt := FormatPattern.createdAt existingFormat;
           FormatPattern.updatedAt := now |} in
      (updatedFormat, Map_set formatId' updatedFormat formatStore)
  | None =>
      let template' :=
        generateTemplate (ViralPost.content post)
                         (AnalysisResult.formatPattern analysis) in
      let newFormat :=
        {| FormatPattern.id := formatId';
           FormatPattern.name :=
             generateFormatName (AnalysisResult.formatPattern analysis);
           FormatPattern.description :=
             generateFormatDescription
               (AnalysisResult.formatPattern analysis)
               (ViralPost.platform post);
           FormatPattern.platform := ViralPost.platform post;
           FormatPattern.hookType :=
             DetectedFormatPattern.hookType
               (AnalysisResult.formatPattern analysis);
           FormatPattern.bodyType :=
             DetectedFormatPattern.bodyType
               (AnalysisResult.formatPattern analysis);
           FormatPattern.ctaType :=
             DetectedFormatPattern.ctaType
               (AnalysisResult.formatPattern analysis);
           FormatPattern.template := template';
           FormatPattern.examplePost := ViralPost.content post;
           FormatPattern.tags := extractTags (ViralPost.content post) analysis;
           FormatPattern.effectivenessScore :=
             AnalysisResult.viralityScore analysis;
           FormatPattern.usageCount := 1%Z;
           FormatPattern.createdAt := now;
           FormatPattern.updatedAt := now |} in
      (newFormat, Map_set formatId' newFormat formatStore)
  end.

Definition getStoredFormats (platform : option Platform)
           (formatStore : Store) : list FormatPattern.t :=
  let formats := Map_values formatStore in
  match platform with
  | Some platform' =>
      filter (fun f => Platform_eqb (FormatPattern.platform f) platform')
             formats
  | None => sortDesc FormatPattern.effectivenessScore formats
  end.

Definition getFormatById (id : jsstring) (formatStore : Store)
  : option FormatPattern.t :=
  Map_get id formatStore.

Definition updateFormat (now : jsstring) (id : jsstring)
           (updates : FormatUpdates.t) (formatStore : Store)
  : option FormatPattern.t * Store :=
  match Map_get id formatStore with
  | None => (None, formatStore)
  | Some existing =>
      let updated :=
        {| FormatPattern.id := FormatPattern.id existing;
           FormatPattern.name :=
             orElse (FormatUpdates.name updates) (FormatPattern.name existing);
           FormatPattern.description :=
             orElse (FormatUpdates.description updates)
                    (FormatPattern.description existing);
           FormatPattern.platform :=
             orElse (FormatUpdates.platform updates)
                    (FormatPattern.platform existing);
           FormatPattern.hookType :=
             orElse (FormatUpdates.hookType updates)
                    (FormatPattern.hookType existing);
           FormatPattern.bodyType :=
             orElse (FormatUpdates.bodyType updates)
                    (FormatPattern.bodyType existing);
           FormatPattern.ctaType :=
             orElse (FormatUpdates.ctaType updates)
                    (FormatPattern.ctaType existing);
           FormatPattern.template :=
             orElse (FormatUpdates.template updates)
                    (FormatPattern.template existing);
           FormatPattern.examplePost :=
             orElse (FormatUpdates.examplePost updates)
                    (FormatPattern.examplePost existing);
           FormatPattern.tags :=
             orElse (FormatUpdates.tags updates) (FormatPattern.tags existing);
           FormatPattern.effectivenessScore :=
             orElse (FormatUpdates.effectivenessScore updates)
                    (FormatPattern.effectivenessScore existing);
           FormatPattern.usageCount :=
             orElse (FormatUpdates.usageCount updates)
                    (FormatPattern.usageCount existing);
           FormatPattern.createdAt := FormatPattern.createdAt existing;
           FormatPattern.updatedAt := now |} in
      (Some updated, Map_set id updated formatStore)
  end.

Definition deleteFormat (id : jsstring) (formatStore : Store)
  : bool * Store :=
  Map_delete id formatStore.

(** [posts.map(post => learnFromPost(post))] *)
Fixpoint batchLearn (now : jsstring) (posts : list ViralPost.t)
         (formatStore : Store) : list FormatPattern.t * Store :=
  match posts with
  | [] => ([], formatStore)
  | post :: rest =>
      let (f, st1) := learnFromPost now post None formatStore in
      let (fs, st2) := batchLearn now rest st1 in
      (f :: fs, st2)
  end.

Definition exportFormats (formatStore : Store) : list FormatPattern.t :=
  Map_values formatStore.

Definition importFormats (now : jsstring) (formats : list FormatPattern.t)
           (mergeStrategy : MergeStrategy) (formatStore : Store) : Store :=
  fold_left
    (fun st format =>
       match Map_get (FormatPattern.id format) st with
       | None => Map_set (FormatPattern.id format) format st
       | Some existing =>
           match mergeStrategy with
           | replace => Map_set (FormatPattern.id format) format st
           | merge =>
               let merged :=
                 {| FormatPattern.id := FormatPattern.id existing;
                    FormatPattern.name := FormatPattern.name existing;
                    FormatPattern.description :=
                      FormatPattern.description existing;
                    FormatPattern.platform := FormatPattern.platform existing;
                    FormatPattern.hookType := FormatPattern.hookType existing;
                    FormatPattern.bodyType := FormatPattern.bodyType existing;
                    FormatPattern.ctaType := FormatPattern.ctaType existing;
                    FormatPattern.template := FormatPattern.template existing;
                    FormatPattern.examplePost :=
                      FormatPattern.examplePost existing;
                    FormatPattern.tags :=
                      dedup (FormatPattern.tags existing
                             ++ FormatPattern.tags format);
                    FormatPattern.effectivenessScore :=
                      ((FormatPattern.effectivenessScore existing
                        + FormatPattern.effectivenessScore format) / 2)%Q;
                    FormatPattern.usageCount :=
                      (FormatPattern.usageCount existing
                       + FormatPattern.usageCount format)%Z;
                    FormatPattern.createdAt :=
                      FormatPattern.createdAt existing;
                    FormatPattern.updatedAt := now |} in
               Map_set (FormatPattern.id format) merged st
           | skip => st
           end
       end)
    formats formatStore.

Definition clearFormats (formatStore : Store) : Store := [].

(** On exact rationals: scores that are equal here can differ in the last
    bit on doubles, so that the code may break a tie the other way. *)
Definition calculateMatchScore (format : FormatPattern.t) (topic : jsstring)
           (options : option MatchOptions) : Q * list jsstring :=
  let score := (FormatPattern.effectivenessScore format / 100 * 40)%Q in
  let lowerTopic := toLowerCase topic in
  let matchingTags :=
    filter (fun tag =>
              includes (toLowerCase tag) lowerTopic
              || includes (hd [] (splitChar 32%N lowerTopic))
                          (toLowerCase tag))
           (FormatPattern.tags format) in
  let score := (score + ofZ (lengthZ matchingTags) * 10)%Q in
  let matchingElements :=
    map (fun t => str "Topic match: " ++ t) matchingTags in
  let '(score, matchingElements) :=
    match option_map preferredHook options with
    | Some (Some h) =>
        if HookType.eqb (FormatPattern.hookType format) h
        then ((score + 15)%Q, matchingElements ++ [str "Preferred hook type"])
        else (score, matchingElements)
    | _ => (score, matchingElements)
    end in
  let '(score, matchingElements) :=
    match option_map preferredBody options with
    | Some (Some b) =>
        if BodyType.eqb (FormatPattern.bodyType format) b
        then ((score + 15)%Q,
              matchingElements ++ [str "Preferred body structure"])
        else (score, matchingElements)
    | _ => (score, matchingElements)
    end in
  let '(score, matchingElements) :=
    match option_map preferredCTA options with
    | Some (Some c) =>
        if CTAType.eqb (FormatPattern.ctaType format) c
        then ((score + 10)%Q, matchingElements ++ [str "Preferred CTA type"])
        else (score, matchingElements)
    | _ => (score, matchingElements)
    end in
  let '(score, matchingElements) :=
    match option_map targetEmotions options with
    | Some (Some emotions) =>
        let emotionMatches :=
          filter (fun e => existsb (streq (EmotionalTrigger.value e))
                                   (FormatPattern.tags format))
                 emotions in
        ((score + ofZ (lengthZ emotionMatches) * 8)%Q,
         matchingElements
         ++ map (fun e => str "Emotion match: " ++ EmotionalTrigger.value e)
                emotionMatches)
    | _ => (score, matchingElements)
    end in
  let score :=
    match option_map minEffectiveness options with
    | Some (Some m) =>
        if negb (Qeq_bool m 0)
           && Qltb (FormatPattern.effectivenessScore format) m
        then (score * (1 # 2))%Q else score
    | _ => score
    end in
  let score :=
    (score + Math_min (ofZ (FormatPattern.usageCount format) * 2) 10)%Q in
  (Math_min 100 score, matchingElements).

Definition generateModifications (format : FormatPattern.t)
           (topic : jsstring) (options : option MatchOptions)
  : list jsstring :=
  let modifications :=
    match option_map preferredHook options with
    | Some (Some h) =>
        if negb (HookType.eqb (FormatPattern.hookType format) h)
        then [ str "Consider switching to " ++ HookType.value h
               ++ str " hook for better alignment" ]
        else []
    | _ => []
    end in
  let modifications :=
    match option_map preferredCTA options with
    | Some (Some c) =>
        if negb (CTAType.eqb (FormatPattern.ctaType format) c)
        then modifications
             ++ [ str "Try " ++ CTAType.value c
                  ++ str " CTA for higher engagement" ]
        else modifications
    | _ => modifications
    end in
  match option_map targetEmotions options with
  | Some (Some emotions) =>
      let missingEmotions :=
        filter (fun e => negb (existsb (streq (EmotionalTrigger.value e))
                                       (FormatPattern.tags format)))
               emotions in
      match missingEmotions with
      | e :: _ =>
          modifications
          ++ [ str "Add " ++ EmotionalTrigger.value e
               ++ str " emotional elements" ]
      | [] => modifications
      end
  | _ => modifications
  end.

Definition getDefaultFormat (now : jsstring) (topic : jsstring)
           (platform : Platform) (formatStore : Store)
  : FormatMatchResult * Store :=
  let defaultFormat :=
    {| FormatPattern.id := str "default-" ++ platformName platform;
       FormatPattern.name := str "Default Viral Format";
       FormatPattern.description :=
         str "A balanced format suitable for most content types";
       FormatPattern.platform := platform;
       FormatPattern.hookType := HookType.QUESTION;
       FormatPattern.bodyType := BodyType.INSIGHT_SHARING;
       FormatPattern.ctaType := CTAType.QUESTION_TO_AUDIENCE;
       FormatPattern.template :=
         join [LF]
              [ str "[HOOK: QUESTION]";
                str "{Ask a compelling question related to " ++ topic
                ++ str "}";
                [];
                str "[BODY: INSIGHT]";
                str "{Share your key insight or perspective}";
                str "{Support with examples or data}";
                [];
                str "[CTA: QUESTION]";
                str "{Ask the audience for their thoughts}" ];
       FormatPattern.examplePost := [];
       FormatPattern.tags := [topic];
       FormatPattern.effectivenessScore := 50%Q;
       FormatPattern.usageCount := 0%Z;
       FormatPattern.createdAt := now;
       FormatPattern.updatedAt := now |} in
  let formatStore :=
    if negb (Map_has (FormatPattern.id defaultFormat) formatStore)
    then Map_set (FormatPattern.id defaultFormat) defaultFormat formatStore
    else formatStore in
  ({| formatId := FormatPattern.id defaultFormat;
      formatName := FormatPattern.name defaultFormat;
      matchScore := 30%Q;
      matchingElements := [str "Default fallback format"];
      suggestedModifications :=
        [ str "Add more specific formats by learning from successful posts" ]
   |}, formatStore).

Definition findBestMatch (now : jsstring) (topic : jsstring)
           (platform : Platform) (options : option MatchOptions)
           (formatStore : Store) : FormatMatchResult * Store :=
  let formats := getStoredFormats (Some platform) formatStore in
  if (length formats =? 0)%nat
  then getDefaultFormat now topic platform formatStore
  else
    let bestMatch :=
      fold_left
        (fun bestMatch format =>
           let '(score, matchingElements') :=
             calculateMatchScore format topic options in
           match bestMatch with
           | None => Some (format, score, matchingElements')
           | Some (_, bestScore, _) =>
               if Qltb bestScore score
               then Some (format, score, matchingElements')
               else bestMatch
           end)
        formats None in
    match bestMatch with
    | None => getDefaultFormat now topic platform formatStore
    | Some (format, score, elements) =>
        ({| formatId := FormatPattern.id format;
            formatName := FormatPattern.name format;
            matchScore := score;
            matchingElements := elements;
            suggestedModifications :=
              generateModifications format topic options |},
         formatStore)
    end.

Definition defaultFormats (now : jsstring) : list FormatPattern.t :=
  [ {| FormatPattern.id := str "linkedin-question-listicle";
       FormatPattern.name := str "Question Hook Listicle";
       FormatPattern.description :=
         str "Opens with a question, delivers value through a numbered list";
       FormatPattern.platform := linkedin;
       FormatPattern.hookType := HookType.QUESTION;
       FormatPattern.bodyType := BodyType.LISTICLE;
       FormatPattern.ctaType := CTAType.SAVE_FOR_LATER;
       FormatPattern.template :=
         join [LF]
              [ str "[HOOK: QUESTION]";
                str "{Ask a specific question your audience faces}";
                [];
                str "[BODY: NUMBERED LIST]";
                str "1. {First valuable point}";
                str "2. {Second valuable point}";
                str "3. {Third valuable point}";
                [];
                str "[CTA: SAVE]";
                str "Save this for later reference" ];
       FormatPattern.examplePost := [];
       FormatPattern.tags := [str "educational"; str "value-driven"];
       FormatPattern.effectivenessScore := 75%Q;
       FormatPattern.usageCount := 100%Z;
       FormatPattern.createdAt := now;
       FormatPattern.updatedAt := now |};
    {| FormatPattern.id := str "linkedin-story-lesson";
       FormatPattern.name := str "Story-Driven Lesson";
       FormatPattern.description :=
         str "Personal story that leads to a valuable lesson";
       FormatPattern.platform := linkedin;
       FormatPattern.hookType := HookType.STORY;
       FormatPattern.bodyType := BodyType.LESSON_LEARNED;
       FormatPattern.ctaType := CTAType.COMMENT_PROMPT;
       FormatPattern.template :=
         join [LF]
              [ str "[HOOK: STORY]";
                str "{Set up the story with context}";
                [];
                str "[BODY: STORY + LESSON]";
                str "{Tell your story with the challenge}";
                str "{Share what you learned}";
                [];
                str "[CTA: COMMENT]";
                str "Have you experienced something similar? Share below." ];
       FormatPattern.examplePost := [];
       FormatPattern.tags := [str "personal"; str "relatable"; str "story"];
       FormatPattern.effectivenessScore := 80%Q;
       FormatPattern.usageCount := 150%Z;
       FormatPattern.createdAt := now;
       FormatPattern.updatedAt := now |};
    {| FormatPattern.id := str "twitter-bold-insight";
       FormatPattern.name := str "Bold Statement Insight";
       FormatPattern.description :=
         str "Controversial or bold opening that delivers valuable insight";
       FormatPattern.platform := twitter;
       FormatPattern.hookType := HookType.BOLD_STATEMENT;
       FormatPattern.bodyType := BodyType.INSIGHT_SHARING;
       FormatPattern.ctaType := CTAType.ENGAGEMENT_BAIT;
       FormatPattern.template :=
         join [LF]
              [ str "[HOOK: BOLD]";
                str "{Make a bold, attention-grabbing statement}";
                [];
                str "[BODY: INSIGHT]";
                str "{Back it up with insight}";
                [];
                str "[CTA: ENGAGEMENT]";
                str "RT if you agree " ++ [55357; 56391]%N ];
       FormatPattern.examplePost := [];
       FormatPattern.tags := [str "bold"; str "controversial"];
       FormatPattern.effectivenessScore := 70%Q;
       FormatPattern.usageCount := 200%Z;
       FormatPattern.createdAt := now;
       FormatPattern.updatedAt := now |} ].

Definition initializeDefaultFormats (now : jsstring) (formatStore : Store)
  : Store :=
  fold_left
    (fun st format =>
       if negb (Map_has (FormatPattern.id format) st)
       then Map_set (FormatPattern.id format) format st
       else st)
    (defaultFormats now) formatStore.

(** The store once the module is loaded: [new Map()], then
    [initializeDefaultFormats()]. *)
Definition initialStore (now : jsstring) : Store :=
  initializeDefaultFormats now [].
End FormatLearner.

(** ** Specification-side definitions *)

Section HookSpec.
Context {CM : CaseMapping}.

Definition noHook : Detection HookType.t :=
  {| dtype := HookType.NONE; confidence := 0%Q; matchedText := [] |}.

Definition hookFirstLine (parsed : ParsedContent) : jsstring :=
  orEmpty (option_map toLowerCase (nth_error (lines parsed) 0)).

Definition hookFirstTwoLines (parsed : ParsedContent) : jsstring :=
  toLowerCase (join (str " ") (firstn 2 (lines parsed))).

(** What one rule of one hook type contributes: nothing when it matches
    neither string, and otherwise its type, 0.9 or 0.7 by the position of
    the match, and the matched text. *)
Definition hookCandidate (parsed : ParsedContent) (hookType : HookType.t)
           (pattern : RegExp) : list (Detection HookType.t) :=
  match matchEither pattern (hookFirstLine parsed)
                    (hookFirstTwoLines parsed) with
  | Some m =>
      [ {| dtype := hookType;
           confidence :=
             if (index m =? 0)%nat then (9 # 10)%Q else (7 # 10)%Q;
           matchedText := matched m |} ]
  | None => []
  end.

(** The matches of all rules of all hook types other than NONE, in table
    order. *)
Definition hookCandidates (parsed : ParsedContent)
  : list (Detection HookType.t) :=
  flat_map
    (fun entry =>
       if HookType.eqb (fst entry) HookType.NONE then []
       else flat_map (hookCandidate parsed (fst entry)) (snd entry))
    HOOK_PATTERNS.

(** Per hook type, only the first rule that matches. *)
Definition firstRuleCandidates (parsed : ParsedContent)
  : list (Detection HookType.t) :=
  flat_map
    (fun entry =>
       if HookType.eqb (fst entry) HookType.NONE then []
       else firstn 1 (flat_map (hookCandidate parsed (fst entry))
                               (snd entry)))
    HOOK_PATTERNS.

Definition better (best c : Detection HookType.t) : Detection HookType.t :=
  if Qltb (confidence best) (confidence c) then c else best.

(** The highest confidence of a list of candidates, the earliest among
    equals, and [noHook] for the empty list. *)
Definition pickBest (cands : list (Detection HookType.t))
  : Detection HookType.t :=
  fold_left better cands noHook.

Definition questionFallback (parsed : ParsedContent)
           (best : Detection HookType.t) : Detection HookType.t :=
  if endsWithQuestionMark (nth_error (lines parsed) 0)
     && Qltb (confidence best) (8 # 10)%Q
  then {| dtype := HookType.QUESTION; confidence := (85 # 100)%Q;
          matchedText := orEmpty (nth_error (lines parsed) 0) |}
  else best.

(** Hook detection as the specification words it: the first matching rule
    of a type stands for the type. *)
Definition detectHookType_spec (parsed : ParsedContent)
  : Detection HookType.t :=
  questionFallback parsed (pickBest (firstRuleCandidates parsed)).
End HookSpec.

Definition unitInterval (q : Q) : Prop := (0 <= q)%Q /\ (q <= 1)%Q.

(** A list of scores in descending order. *)
Fixpoint descending (l : list Q) : Prop :=
  match l with
  | [] => True
  | x :: t => match t with
              | [] => True
              | y :: _ => (y <= x)%Q
              end /\ descending t
  end.

(** Every key of the map is the id of its value, and no key occurs twice. *)
Definition keyedById (st : Store) : Prop :=
  Forall (fun kv => fst kv = FormatPattern.id (snd kv)) st
  /\ NoDup (map fst st).

Section Reachability.
Context {CM : CaseMapping}.

(** [analysisResult || analyzePost(post)]: the analysis a call of
    [learnFromPost] works with. *)
Definition usedAnalysis (now : jsstring) (post : ViralPost.t)
           (analysisResult : option AnalysisResult.t) : AnalysisResult.t :=
  orElse analysisResult (analyzePost now post).

(** A learning call: [learnFromPost(post, analysisResult?)] or
    [batchLearn(posts)], with the clock reading of the call. *)
Inductive LearnCall :=
| CallLearn (now : jsstring) (post : ViralPost.t)
            (analysisResult : option AnalysisResult.t)
| CallBatch (now : jsstring) (posts : list ViralPost.t).

Definition runLearnCall (st : Store) (c : LearnCall) : Store :=
  match c with
  | CallLearn now post analysisResult =>
      snd (learnFromPost now post analysisResult st)
  | CallBatch now posts => snd (batchLearn now posts st)
  end.

Definition runLearnCalls (calls : list LearnCall) (st : Store) : Store :=
  fold_left runLearnCall calls st.

(** The states of [formatStore] that the exported operations of the module
    produce, starting from the store of a freshly loaded module. *)
Inductive reachable : Store -> Prop :=
| reach_init now : reachable (initialStore now)
| reach_learn now post analysisResult st :
    reachable st ->
    reachable (snd (learnFromPost now post analysisResult st))
| reach_batch now posts st :
    reachable st -> reachable (snd (batchLearn now posts st))
| reach_update now id updates st :
    reachable st -> reachable (snd (updateFormat now id updates st))
| reach_delete id st :
    reachable st -> reachable (snd (deleteFormat id st))
| reach_import now formats mergeStrategy st :
    reachable st -> reachable (importFormats now formats mergeStrategy st)
| reach_clear st :
    reachable st -> reachable (clearFormats st)
| reach_match now topic platform options st :
    reachable st ->
    reachable (snd (findBestMatch now topic platform options st))
| reach_initialize now st :
    reachable st -> reachable (initializeDefaultFormats now st).
End Reachability.

(** *** Concrete inputs *)

Definition scenario1 : jsstring :=
  join [LF; LF]
       [ str "RIP cold outreach.";
         str "Agencies charge $5K for this. I automated it.";
         str "Comment SYSTEM below." ].

Definition statisticLine : jsstring := str "million users by 2030".

Definition emptyMetrics : PostMetrics :=
  {| likes := 0%Q; comments := 0%Q; shares := 0%Q; saves := None;
     impressions := None; engagementRate := None |}.

Definition samplePost (platform : Platform) (content : jsstring)
  : ViralPost.t :=
  {| ViralPost.id := str "post-1";
     ViralPost.platform := platform;
     ViralPost.content := content;
     ViralPost.author := None;
     ViralPost.url := None;
     ViralPost.metrics := emptyMetrics;
     ViralPost.createdAt := str "2026-01-01T00:00:00.000Z";
     ViralPost.analyzedAt := None |}.

Definition sampleNow : jsstring := str "2026-01-02T00:00:00.000Z".

(** An analysis with the triad BOLD_STATEMENT / LISTICLE / SHARE and a
    given score, as a caller may pass it to [learnFromPost]. *)
Definition sampleAnalysis (score : Q) : AnalysisResult.t :=
  {| AnalysisResult.postId := str "post-1";
     AnalysisResult.viralityScore := score;
     AnalysisResult.confidence := (8 # 10)%Q;
     AnalysisResult.formatPattern :=
       {| DetectedFormatPattern.hookType := HookType.BOLD_STATEMENT;
          DetectedFormatPattern.hookConfidence := (9 # 10)%Q;
          DetectedFormatPattern.hookText := str "stop";
          DetectedFormatPattern.bodyType := BodyType.LISTICLE;
          DetectedFormatPattern.bodyConfidence := (9 # 10)%Q;
          DetectedFormatPattern.bodyStructure := str "3 items";
          DetectedFormatPattern.ctaType := CTAType.SHARE;
          DetectedFormatPattern.ctaConfidence := (85 # 100)%Q;
          DetectedFormatPattern.ctaText := str "share this" |};
     AnalysisResult.viralSignals :=
       {| emotionalTriggers := []; formatElements := [];
          timingSignals := []; topicRelevance := [];
          viralityIndicators := [] |};
     AnalysisResult.recommendations := [];
     AnalysisResult.similarFormats := [];
     AnalysisResult.analyzedAt := sampleNow |}.

(** *** The update rule in binary64

    [calculateUpdatedEffectiveness] once more, on IEEE 754 doubles, to
    evaluate the scenario of two learns with the rounding of the host. *)

(** [Math.min] on doubles: NaN if an argument is NaN, and [-0] below [+0]. *)
Definition Math_min64 (a b : float) : float :=
  if PrimFloat.is_nan a then a
  else if PrimFloat.is_nan b then b
  else if PrimFloat.ltb a b then a
  else if PrimFloat.ltb b a then b
  else if PrimFloat.ltb (1 / a)%float 0%float then a
  else b.

(** The literal [0.3] denotes the double [0x1.3333333333333p-2]. *)
Definition calculateUpdatedEffectiveness64 (currentScore newScore : float)
           (usageCount : float) : float :=
  let weight := Math_min64 0x1.3333333333333p-2%float (1 / (usageCount + 1))%float in
  (currentScore * (1 - weight) + newScore * weight)%float.

(** An update object with no field set. *)
Definition noUpdates : FormatUpdates.t :=
  {| FormatUpdates.name := None;
     FormatUpdates.description := None;
     FormatUpdates.platform := None;
     FormatUpdates.hookType := None;
     FormatUpdates.bodyType := None;
     FormatUpdates.ctaType := None;
     FormatUpdates.template := None;
     FormatUpdates.examplePost := None;
     FormatUpdates.tags := None;
     FormatUpdates.effectivenessScore := None;
     FormatUpdates.usageCount := None;
     FormatUpdates.updatedAt := None |}.

(** The weight of a new observation, as the specification gives it. *)
Definition emaWeight (usageCount : Z) : Q :=
  Math_min (3 # 10) (1 / ofZ (usageCount + 1))%Q.

(** The hook, body and call-to-action types of an analysis. *)
Definition hasTriad (a : AnalysisResult.t) (h : HookType.t) (b : BodyType.t)
           (c : CTAType.t) : Prop :=
  DetectedFormatPattern.hookType (AnalysisResult.formatPattern a) = h
  /\ DetectedFormatPattern.bodyType (AnalysisResult.formatPattern a) = b
  /\ DetectedFormatPattern.ctaType (AnalysisResult.formatPattern a) = c.

(** The number of entries of the store under a key. *)
Definition countKey (k : jsstring) (st : Store) : nat :=
  length (filter (fun kv => streq (fst kv) k) st).

(** ** Further operations of the format learner *)

(** The aggregate of [getFormatStats]; an entry [{ hook, count }] is a
    pair. *)
Record FormatStats := {
  totalFormats : Z;
  averageEffectiveness : Q;
  topHooks : list (HookType.t * Z);
  topBodies : list (BodyType.t * Z);
  topCTAs : list (CTAType.t * Z)
}.

(** [counts.set(k, (counts.get(k) || 0) + 1)] on a [Map<K, number>]. *)
Fixpoint bumpCount {K} (eqb : K -> K -> bool) (k : K) (counts : list (K * Z))
  : list (K * Z) :=
  match counts with
  | [] => [(k, (0 + 1)%Z)]
  | (k', c) :: t =>
      if eqb k' k then (k', (c + 1)%Z) :: t
      else (k', c) :: bumpCount eqb k t
  end.

Definition countAll {K} (eqb : K -> K -> bool) (ks : list K)
  : list (K * Z) :=
  fold_left (fun counts k => bumpCount eqb k counts) ks [].

(** [Array.from(counts.entries()).map(...).sort((a, b) => b.count -
    a.count).slice(0, 5)] *)
Definition topFive {K} (counts : list (K * Z)) : list (K * Z) :=
  firstn 5 (sortDesc (fun e => ofZ (snd e)) counts).

Section FormatStatistics.
Context {CM : CaseMapping}.

(** [averageEffectiveness] is the exact mean; the mean that the code
    computes on doubles can differ from it in the last bits. *)
Definition getFormatStats (platform : option Platform) (formatStore : Store)
  : FormatStats :=
  let formats := getStoredFormats platform formatStore in
  let hookCounts := countAll HookType.eqb (map FormatPattern.hookType formats) in
  let bodyCounts := countAll BodyType.eqb (map FormatPattern.bodyType formats) in
  let ctaCounts := countAll CTAType.eqb (map FormatPattern.ctaType formats) in
  {| totalFormats := lengthZ formats;
     averageEffectiveness :=
       if (0 <? length formats)%nat
       then (fold_left (fun sum f => sum + FormatPattern.effectivenessScore f)%Q
                       formats 0
             / ofZ (lengthZ formats))%Q
       else 0%Q;
     topHooks := topFive hookCounts;
     topBodies := topFive bodyCounts;
     topCTAs := topFive ctaCounts |}.
End FormatStatistics.

(** ** The content validator (first unit of [content-generator.ts]) *)

Module PlatformLimits.
Record t := {
  optimal : Z;
  max : Z;
  min : Z
}.
End PlatformLimits.

Definition PLATFORM_LIMITS (platform : Platform) : PlatformLimits.t :=
  match platform with
  | linkedin => {| PlatformLimits.optimal := 1500;
                   PlatformLimits.max := 3000;
                   PlatformLimits.min := 100 |}
  | twitter => {| PlatformLimits.optimal := 240;
                  PlatformLimits.max := 280;
                  PlatformLimits.min := 20 |}
  end%Z.

(** [PLATFORM_CONFIGS[platform].emojiLimit] *)
Definition emojiLimit (platform : Platform) : Z :=
  match platform with
  | linkedin => 4
  | twitter => 2
  end%Z.

Record ContentValidation := {
  isValid : bool;
  errors : list jsstring;
  warnings : list jsstring;
  score : Z
}.

(** [/[\uD83C-\uDBFF\uDC00-\uDFFF\u2600-\u27BF]/g], on code units. *)
Definition validatorEmojiRegex : regex :=
  CharSet false [(55356, 56319); (56320, 57343); (9728, 10175)]%N.

(** [/^\d+\./m] *)
Definition numberedLineRegex : regex := seqs [Bol; digits; lit "."].

Definition zToString (z : Z) : jsstring := natToString (Z.to_nat z).

Section Validator.
Context {CM : CaseMapping}.

Definition calculateQualityScore (content : jsstring) (platform : Platform)
           (errors' warnings' : list jsstring) : Z :=
  let score := 100%Z in
  let score := (score - lengthZ errors' * 25)%Z in
  let score := (score - lengthZ warnings' * 10)%Z in
  let score :=
    if includes [LF] content && Platform_eqb platform linkedin
    then (score + 5)%Z else score in
  let score :=
    if test flagM numberedLineRegex content then (score + 5)%Z else score in
  let score :=
    if includes (str "?") content then (score + 3)%Z else score in
  Z.max 0 (Z.min 100 score).

Definition validateContent (content : jsstring) (platform : Platform)
  : ContentValidation :=
  let limits := PLATFORM_LIMITS platform in
  let len := lengthZ content in
  let errors' :=
    (if (len <? PlatformLimits.min limits)%Z
     then [ str "Content too short (" ++ zToString len
            ++ str " chars). Minimum: " ++ zToString (PlatformLimits.min limits) ]
     else [])
    ++ (if (PlatformLimits.max limits <? len)%Z
        then [ str "Content too long (" ++ zToString len
               ++ str " chars). Maximum: " ++ zToString (PlatformLimits.max limits) ]
        else [])
    ++ (if (length (trim content) =? 0)%nat
        then [str "Content is empty"] else []) in
  let emojiCount' :=
    lengthZ (matchAll noFlags validatorEmojiRegex content) in
  let warnings' :=
    (if Platform_eqb platform twitter && (250 <? len)%Z && (len <=? 280)%Z
     then [str "Content is near character limit"] else [])
    ++ (if (emojiLimit platform <? emojiCount')%Z
        then [ str "Too many emojis (" ++ zToString emojiCount'
               ++ str "). Recommended: " ++ zToString (emojiLimit platform) ]
        else [])
    ++ (if Platform_eqb platform linkedin
        then let hashtags' := matchAll noFlags hashtagRegex content in
             if (5 <? length hashtags')%nat
             then [ str "Too many hashtags ("
                    ++ natToString (length hashtags')
                    ++ str "). Recommended: 3-5" ]
             else []
        else []) in
  {| isValid := (length errors' =? 0)%nat;
     errors := errors';
     warnings := warnings';
     score := calculateQualityScore content platform errors' warnings' |}.

Definition viralKeywords : list jsstring :=
  map str ["secret"; "nobody"; "mistake"; "truth"; "shocking"; "finally";
           "proven"; "guaranteed"]%string.

Definition hookIndicators : list jsstring :=
  map str ["why"; "how"; "what"; "this"; "my"; "unpopular"]%string.

(** [calculateViralScore] of the content generator. *)
Definition calculateViralScore (content : jsstring) (platform : Platform)
  : Z :=
  let score := 50%Z in
  let score :=
    fold_left (fun score keyword =>
                 if includes keyword (toLowerCase content)
                 then (score + 5)%Z else score)
              viralKeywords score in
  let score := if includes (str "?") content then (score + 5)%Z else score in
  let score :=
    if test noFlags digits content then (score + 5)%Z else score in
  let score :=
    if includes [LF; LF] content then (score + 5)%Z else score in
  let firstWords :=
    toLowerCase (join (str " ") (firstn 3 (splitChar 32%N content))) in
  let score :=
    fold_left (fun score indicator =>
                 if includes indicator firstWords
                 then (score + 5)%Z else score)
              hookIndicators score in
  Z.min 100 score.
End Validator.

(** ** Enumerations and helpers for the properties *)

Definition allPlatforms : list Platform := [linkedin; twitter].

Definition allHookTypes : list HookType.t :=
  [ HookType.QUESTION; HookType.BOLD_STATEMENT; HookType.STORY; HookType.LIST;
    HookType.CONTROVERSIAL_TAKE; HookType.STATISTIC; HookType.QUOTE;
    HookType.HOW_TO; HookType.NONE ].

Definition allBodyTypes : list BodyType.t :=
  [ BodyType.PROBLEM_SOLUTION; BodyType.STORY_DRIVEN; BodyType.LISTICLE;
    BodyType.TUTORIAL; BodyType.INSIGHT_SHARING; BodyType.COMPARISON;
    BodyType.MYTH_BUSTING; BodyType.LESSON_LEARNED; BodyType.THREAD;
    BodyType.NARRATIVE ].

Definition allCTATypes : list CTAType.t :=
  [ CTAType.QUESTION_TO_AUDIENCE; CTAType.LINK; CTAType.ENGAGEMENT_BAIT;
    CTAType.FOLLOW_UP; CTAType.SAVE_FOR_LATER; CTAType.SHARE;
    CTAType.COMMENT_PROMPT; CTAType.NONE ].

(** A detected pattern with the given three types. *)
Definition triadPattern (h : HookType.t) (b : BodyType.t) (c : CTAType.t)
  : DetectedFormatPattern.t :=
  {| DetectedFormatPattern.hookType := h;
     DetectedFormatPattern.hookConfidence := 0%Q;
     DetectedFormatPattern.hookText := [];
     DetectedFormatPattern.bodyType := b;
     DetectedFormatPattern.bodyConfidence := 0%Q;
     DetectedFormatPattern.bodyStructure := [];
     DetectedFormatPattern.ctaType := c;
     DetectedFormatPattern.ctaConfidence := 0%Q;
     DetectedFormatPattern.ctaText := [] |}.

(** The format ids of all platform and type combinations, under the ASCII
    case mapping, each with its combination. *)
Definition allFormatIds
  : list (jsstring * (Platform * HookType.t * BodyType.t * CTAType.t)) :=
  flat_map
    (fun pl =>
       flat_map
         (fun h =>
            flat_map
              (fun b =>
                 map (fun c =>
                        (@generateFormatId asciiCase (triadPattern h b c) pl,
                         (pl, h, b, c)))
                     allCTATypes)
              allBodyTypes)
         allHookTypes)
    allPlatforms.

(** No two entries of a list of keyed items share a key. *)
Fixpoint distinctKeys {A} (l : list (jsstring * A)) : bool :=
  match l with
  | [] => true
  | (k, _) :: t =>
      forallb (fun e => negb (streq k (fst e))) t && distinctKeys t
  end.

(** The ids of the seeded formats. *)
Definition seedIds : list jsstring :=
  map FormatPattern.id (@defaultFormats []).

Definition isSlugChar (c : char) : bool :=
  inRanges [(97, 122); (48, 57); (45, 45)]%N c.

(** The number of elements of a list that a test accepts. *)
Definition countIf {A} (f : A -> bool) (l : list A) : Z :=
  lengthZ (filter f l).

(** A sequence of [learnFromPost] calls. *)
Definition learnCalls
           (calls : list (jsstring * ViralPost.t * option AnalysisResult.t))
  : list LearnCall :=
  map (fun c => CallLearn (fst (fst c)) (snd (fst c)) (snd c)) calls.

(** A stored format, for the concrete instances of the properties. *)
Definition sampleFormat : FormatPattern.t :=
  {| FormatPattern.id := str "twitter-list-listicle-share";
     FormatPattern.name := str "List Intro Listicle";
     FormatPattern.description := str "A list post";
     FormatPattern.platform := twitter;
     FormatPattern.hookType := HookType.LIST;
     FormatPattern.bodyType := BodyType.LISTICLE;
     FormatPattern.ctaType := CTAType.SHARE;
     FormatPattern.template := str "{list}";
     FormatPattern.examplePost := str "3 ways to ship";
     FormatPattern.tags := [str "technology"];
     FormatPattern.effectivenessScore := 60%Q;
     FormatPattern.usageCount := 4%Z;
     FormatPattern.createdAt := str "2026-01-01T00:00:00.000Z";
     FormatPattern.updatedAt := str "2026-01-01T00:00:00.000Z" |}.

(** The second seeded format, [linkedin-story-lesson]. *)
Definition storyLessonSeed (now : jsstring) : FormatPattern.t :=
  nth 1 (defaultFormats now) sampleFormat.

(** The count that a [Map<K, number>] of counts holds for a key, 0 when it
    holds none. *)
Definition getCount {K} (eqb : K -> K -> bool) (k : K)
           (counts : list (K * Z)) : Z :=
  match find (fun e => eqb (fst e) k) counts with
  | Some e => snd e
  | None => 0%Z
  end.

(** The number of elements of [keys] equal to [k]. *)
Definition occurrences {K} (eqb : K -> K -> bool) (k : K) (keys : list K)
  : Z :=
  countIf (fun k' => eqb k' k) keys.

(** [top] is a list of the most frequent elements of [keys], at most five,
    each once and with its number of occurrences, the more frequent first;
    an element of [keys] that is left out occurs no more often than any
    that is listed. *)
Definition mostFrequent {K} (eqb : K -> K -> bool) (keys : list K)
           (top : list (K * Z)) : Prop :=
  (length top <= 5)%nat
  /\ NoDup (map fst top)
  /\ descending (map (fun e => ofZ (snd e)) top)
  /\ (forall k c, In (k, c) top ->
                  In k keys /\ c = occurrences eqb k keys /\ (1 <= c)%Z)
  /\ (forall k, In k keys ->
                In k (map fst top)
                \/ (length top = 5%nat
                    /\ forall e, In e top ->
                                 (occurrences eqb k keys <= snd e)%Z)).
(** The case mapping lowers a string of ASCII code units as the ASCII
    mapping does, which [String.prototype.toLowerCase] does. *)
Definition lowersAscii (CM : CaseMapping) : Prop :=
  forall s, forallb (fun c => (c <? 128)%N) s = true ->
            toLowerCase s = map asciiLower s.

Section LearnedId.
Context {CM : CaseMapping}.

(** The id under which a call of [learnFromPost] looks up and stores. *)
Definition learnedId (now : jsstring) (post : ViralPost.t)
           (analysisResult : option AnalysisResult.t) : jsstring :=
  generateFormatId
    (AnalysisResult.formatPattern (usedAnalysis now post analysisResult))
    (ViralPost.platform post).

(** The virality score that a call of [learnFromPost] works with. *)
Definition learnedScore (now : jsstring) (post : ViralPost.t)
           (analysisResult : option AnalysisResult.t) : Q :=
  AnalysisResult.viralityScore (usedAnalysis now post analysisResult).
End LearnedId.

Section LearnCalls.
Context {CM : CaseMapping}.

(** The id of a [learnFromPost] call given by its clock reading, post and
    optional analysis. *)
Definition callId (c : jsstring * ViralPost.t * option AnalysisResult.t)
  : jsstring :=
  learnedId (fst (fst c)) (snd (fst c)) (snd c).
End LearnCalls.
(** What the three detectors can return: the levels of confidence, and the
    types that go with them. *)
Definition hookLevel (d : Detection HookType.t) : Prop :=
  (dtype d = HookType.NONE /\ confidence d = 0%Q)
  \/ (dtype d <> HookType.NONE
      /\ (confidence d = (7 # 10)%Q \/ confidence d = (9 # 10)%Q))
  \/ (dtype d = HookType.QUESTION /\ confidence d = (85 # 100)%Q).

Definition ctaLevel (d : Detection CTAType.t) : Prop :=
  (dtype d = CTAType.NONE /\ confidence d = 0%Q)
  \/ (dtype d <> CTAType.NONE
      /\ (confidence d = (7 # 10)%Q \/ confidence d = (85 # 100)%Q))
  \/ (dtype d = CTAType.QUESTION_TO_AUDIENCE
      /\ confidence d = (75 # 100)%Q)
  \/ (dtype d = CTAType.LINK /\ confidence d = (6 # 10)%Q).

Definition bodyLevel (d : Detection BodyType.t) : Prop :=
  (dtype d = BodyType.INSIGHT_SHARING /\ confidence d = (3 # 10)%Q
   /\ matchedText d = str "general")
  \/ ((475 # 1000 <= confidence d)%Q /\ (confidence d <= 9 # 10)%Q).
Section TopicHits.
Context {CM : CaseMapping}.

(** The number of keywords of a topic entry that occur in the lowercased
    content, and the entry of the result for it. *)
Definition topicHits (parsed : ParsedContent)
           (entry : jsstring * list jsstring) : Z :=
  lengthZ (filter (fun kw => includes kw (toLowerCase (original parsed)))
                  (snd entry)).

Definition topicEntry (parsed : ParsedContent)
           (entry : jsstring * list jsstring) : TopicRelevance.t :=
  {| TopicRelevance.topic := fst entry;
     TopicRelevance.relevanceScore :=
       Math_min 1 (ofZ (topicHits parsed entry) * (3 # 10))%Q;
     TopicRelevance.trending := isTopicTrending (fst entry) |}.
End TopicHits.

(** *** What a pattern matches

    [Matches fl r prev s prev' s']: the pattern [r] matches from the position
    whose preceding code unit is [prev] and whose remaining input is [s], up
    to the position with [prev'] and [s']. The relation gives all the
    matches, without the order in which backtracking tries them. *)

Section MatchRelation.
Context {CM : CaseMapping}.
Variable fl : flags.

Inductive Matches
  : regex -> option char -> jsstring -> option char -> jsstring -> Prop :=
| MatchEps p s : Matches Eps p s p s
| MatchCharSet neg rs p c t :
    xorb neg (inClass fl rs c) = true ->
    Matches (CharSet neg rs) p (c :: t) (Some c) t
| MatchDot p c t :
    (dotAll fl || negb (isLineTerminator c))%bool = true ->
    Matches Dot p (c :: t) (Some c) t
| MatchSeq a b p s p1 s1 p2 s2 :
    Matches a p s p1 s1 -> Matches b p1 s1 p2 s2 ->
    Matches (Seq a b) p s p2 s2
| MatchAltL a b p s p' s' :
    Matches a p s p' s' -> Matches (Alt a b) p s p' s'
| MatchAltR a b p s p' s' :
    Matches b p s p' s' -> Matches (Alt a b) p s p' s'
| MatchStarStop a p s : Matches (Star a) p s p s
| MatchStarStep a p s p1 s1 p2 s2 :
    Matches a p s p1 s1 -> (length s1 < length s)%nat ->
    Matches (Star a) p1 s1 p2 s2 ->
    Matches (Star a) p s p2 s2
| MatchBol p s : atBol fl p = true -> Matches Bol p s p s
| MatchEol p s : atEol fl s = true -> Matches Eol p s p s
| MatchWordB p s : atWordBoundary p s = true -> Matches WordB p s p s.
End MatchRelation.
(** ** Threads (first unit of [content-generator.ts]) *)

Module GeneratedContent.
Record t := {
  content : jsstring;
  hook : jsstring;
  cta : jsstring;
  platform : Platform;
  characterCount : Z;
  wordCount : Z;
  hashtags : list jsstring;
  estimatedReadTime : jsstring;
  viralScore : Z;
  suggestions : list jsstring;
  isThread : option bool;
  threadContent : option (list jsstring)
}.
End GeneratedContent.

(** [/[^.!?]+[.!?]+/g] *)
Definition terminators : list (char * char) :=
  [(46, 46); (33, 33); (63, 63)]%N.

Definition sentenceRegex : regex :=
  Seq (plus (CharSet true terminators)) (plus (CharSet false terminators)).

Definition Math_ceil (q : Q) : Z := Qceiling q.

Section Threads.
Context {CM : CaseMapping}.

Definition calculateReadTime (content : jsstring) : jsstring :=
  let words := lengthZ (split noFlags spaces content) in
  let seconds := Math_ceil (ofZ words / 4) in
  if (seconds <? 60)%Z then zToString seconds ++ str " seconds"
  else zToString (Math_ceil (ofZ seconds / 60)) ++ str " min".

(** [content.match(/[^.!?]+[.!?]+/g) || [content]] *)
Definition threadSentences (content : jsstring) : list jsstring :=
  match matchAll noFlags sentenceRegex content with
  | [] => [content]
  | sentences => sentences
  end.

(** The body of the loop over the sentences, on the pair of [tweets] and
    [currentTweet]. *)
Definition packStep (state : list jsstring * jsstring) (sentence : jsstring)
  : list jsstring * jsstring :=
  let '(tweets, currentTweet) := state in
  if (length (currentTweet ++ sentence) <=? 270)%nat
  then (tweets, currentTweet ++ sentence)
  else ((if (0 <? length currentTweet)%nat
         then tweets ++ [trim currentTweet] else tweets),
        sentence).

(** The loop and the push of the last tweet. *)
Definition packTweets (sentences : list jsstring) : list jsstring :=
  let '(tweets, currentTweet) := fold_left packStep sentences ([], []) in
  if (0 <? length currentTweet)%nat
  then tweets ++ [trim currentTweet] else tweets.

(** [tweets.map((tweet, i) => (i === 0 ? '' : `${i + 1}/${tweets.length} `)
    + tweet)] *)
Definition numberTweets (tweets : list jsstring) : list jsstring :=
  map (fun it =>
         (if (fst it =? 0)%nat then []
          else natToString (fst it + 1) ++ str "/"
               ++ natToString (length tweets) ++ str " ")
         ++ snd it)
      (combine (seq 0 (length tweets)) tweets).

(** [convertToThread(content, topic)]; [None] stands for the TypeError of
    [numberedTweets[0].split] when there is no tweet. *)
Definition convertToThread (content : jsstring) (topic : jsstring)
  : option GeneratedContent.t :=
  let tweets := packTweets (threadSentences content) in
  let numberedTweets := numberTweets tweets in
  match numberedTweets with
  | [] => None
  | first :: _ =>
      Some {| GeneratedContent.content := first;
              GeneratedContent.hook :=
                join (str " ") (firstn 10 (splitChar 32%N first));
              GeneratedContent.cta := last numberedTweets first;
              GeneratedContent.platform := twitter;
              GeneratedContent.characterCount := lengthZ first;
              GeneratedContent.wordCount :=
                lengthZ (split noFlags spaces
                               (join (str " ") numberedTweets));
              GeneratedContent.hashtags := [];
              GeneratedContent.estimatedReadTime :=
                calculateReadTime (join (str " ") numberedTweets);
              GeneratedContent.viralScore := 70%Z;
              GeneratedContent.suggestions :=
                [str "Thread created for longer content"];
              GeneratedContent.isThread := Some true;
              GeneratedContent.threadContent := Some numberedTweets |}
  end.
End Threads.

(** A tweet of a thread before it is trimmed: one or more whole sentences,
    at most 270 code units unless it is a single sentence. *)
Definition tweetGroup (group : list jsstring) : Prop :=
  group <> []
  /\ ((length (concat group) <= 270)%nat \/ exists s, group = [s]).

(** A format with another effectiveness score. *)
Definition withEffectiveness (format : FormatPattern.t) (score : Q)
  : FormatPattern.t :=
  {| FormatPattern.id := FormatPattern.id format;
     FormatPattern.name := FormatPattern.name format;
     FormatPattern.description := FormatPattern.description format;
     FormatPattern.platform := FormatPattern.platform format;
     FormatPattern.hookType := FormatPattern.hookType format;
     FormatPattern.bodyType := FormatPattern.bodyType format;
     FormatPattern.ctaType := FormatPattern.ctaType format;
     FormatPattern.template := FormatPattern.template format;
     FormatPattern.examplePost := FormatPattern.examplePost format;
     FormatPattern.tags := FormatPattern.tags format;
     FormatPattern.effectivenessScore := score;
     FormatPattern.usageCount := FormatPattern.usageCount format;
     FormatPattern.createdAt := FormatPattern.createdAt format;
     FormatPattern.updatedAt := FormatPattern.updatedAt format |}.

(** ** Scores as doubles

    [effectivenessScore] is a JavaScript number, an IEEE 754 double, and
    [calculateUpdatedEffectiveness] rounds at each of its operations. The
    definitions of this part follow the two numeric fields of a stored
    format, the score as the double the code holds and the usage count,
    through [learnFromPost]; no other field of the store enters them. *)

(** A count as a double; the conversion is exact below [2^53]. *)
Definition ofCount (n : Z) : float := PrimFloat.of_uint63 (Uint63.of_Z n).

Module Stored64.
Record t := {
  effectivenessScore : float;
  usageCount : Z
}.
End Stored64.

(** [formatStore], projected on these two fields. *)
Definition Store64 := list (jsstring * Stored64.t).

Fixpoint Map_get64 (k : jsstring) (m : Store64) : option Stored64.t :=
  match m with
  | [] => None
  | (k', v) :: t => if streq k' k then Some v else Map_get64 k t
  end.

Fixpoint Map_set64 (k : jsstring) (v : Stored64.t) (m : Store64) : Store64 :=
  match m with
  | [] => [(k, v)]
  | (k', v') :: t =>
      if streq k' k then (k', v) :: t else (k', v') :: Map_set64 k v t
  end.

(** [learnFromPost] on the two fields. [formatId] is the id that the call
    generates and [viralityScore] the score of its analysis. *)
Definition learnFromPost64 (formatId' : jsstring) (viralityScore : float)
           (formatStore : Store64) : Store64 :=
  match Map_get64 formatId' formatStore with
  | Some existingFormat =>
      Map_set64 formatId'
        {| Stored64.effectivenessScore :=
             calculateUpdatedEffectiveness64
               (Stored64.effectivenessScore existingFormat)
               viralityScore
               (ofCount (Stored64.usageCount existingFormat));
           Stored64.usageCount :=
             (Stored64.usageCount existingFormat + 1)%Z |}
        formatStore
  | None =>
      Map_set64 formatId'
        {| Stored64.effectivenessScore := viralityScore;
           Stored64.usageCount := 1%Z |}
        formatStore
  end.

(** A sequence of learns, each given by its id and its score. *)
Definition learnAll64 (calls : list (jsstring * float)) (st : Store64)
  : Store64 :=
  fold_left (fun st c => learnFromPost64 (fst c) (snd c) st) calls st.

(** A score that is an integer, as the double of that integer. The scores
    of the seeded formats and those that [calculateViralityScore] returns
    ([Math.round]) are integers. *)
Definition scoreAsDouble (score : Q) : float := ofCount (Qfloor score).

Definition project64 (st : Store) : Store64 :=
  map (fun kv =>
         (fst kv,
          {| Stored64.effectivenessScore :=
               scoreAsDouble (FormatPattern.effectivenessScore (snd kv));
             Stored64.usageCount := FormatPattern.usageCount (snd kv) |}))
      st.

(** The store of a freshly loaded module. *)
Definition initialStore64 : Store64 := project64 (initialStore []).

Section Calls64.
Context {CM : CaseMapping}.

(** The id and the score with which [learnFromPost(post)] enters the
    store. *)
Definition call64 (now : jsstring) (post : ViralPost.t) : jsstring * float :=
  (learnedId now post None, scoreAsDouble (learnedScore now post None)).

(** [batchLearn(posts)] on the two fields. *)
Definition batchLearn64 (now : jsstring) (posts : list ViralPost.t)
           (st : Store64) : Store64 :=
  learnAll64 (map (call64 now) posts) st.
End Calls64.

(** A virality score within [0, 100]. *)
Definition validScore64 (s : float) : Prop :=
  (0 <=? s)%float = true /\ (s <=? 100)%float = true.

(** The bounds that hold of the stored doubles. *)
Definition storedOk64 (f : Stored64.t) : Prop :=
  (0 <=? Stored64.effectivenessScore f)%float = true
  /\ (1 <= Stored64.usageCount f)%Z.

(** The bounds of the learning invariant, on the stored doubles. *)
Definition inBounds64 (f : Stored64.t) : Prop :=
  (0 <=? Stored64.effectivenessScore f)%float = true
  /\ (Stored64.effectivenessScore f <=? 100)%float = true
  /\ (1 <= Stored64.usageCount f)%Z.

(** The ids and usage counts of a store. *)
Definition keyCounts (st : Store) : list (jsstring * Z) :=
  map (fun kv => (fst kv, FormatPattern.usageCount (snd kv))) st.

Definition keyCounts64 (st : Store64) : list (jsstring * Z) :=
  map (fun kv => (fst kv, Stored64.usageCount (snd kv))) st.

(** A post that the analyzer scores 100. *)
Definition viralContent : jsstring :=
  str "Stop guessing. #growth" ++ [10%N]
  ++ str "1. The secret is amazing" ++ [10%N]
  ++ str "2. Avoid this now" ++ [10%N]
  ++ str "3. Share this today" ++ [10%N]
  ++ str "4. Hope wins" ++ [10%N]
  ++ str "What do you think?".

Definition viralPost : ViralPost.t :=
  {| ViralPost.id := str "post-100";
     ViralPost.platform := twitter;
     ViralPost.content := viralContent;
     ViralPost.author := None;
     ViralPost.url := None;
     ViralPost.metrics :=
       {| likes := 550%Q; comments := 0%Q; shares := 0%Q; saves := None;
          impressions := Some 10000%Q; engagementRate := Some (55 # 10)%Q |};
     ViralPost.createdAt := str "2026-01-01T00:00:00.000Z";
     ViralPost.analyzedAt := None |}.

(** Classes of doubles by sign, on their specification. *)
Definition SFsigned (sx : bool) (f : spec_float) : Prop :=
  match f with
  | S754_zero s | S754_infinity s | S754_finite s _ _ => s = sx
  | S754_nan => False
  end.

(** [0 <= f]: a zero, a positive number or [+Infinity]. *)
Definition SFnonneg (f : spec_float) : Prop :=
  match f with
  | S754_zero _ => True
  | S754_infinity s | S754_finite s _ _ => s = false
  | S754_nan => False
  end.

Definition SFposfin (f : spec_float) : Prop :=
  match f with
  | S754_finite s _ _ => s = false
  | _ => False
  end.

Definition SFfinite (f : spec_float) : Prop :=
  match f with
  | S754_zero _ | S754_finite _ _ _ => True
  | _ => False
  end.

(** The usage count that the store holds for an id, 0 when it holds no
    format for it. *)
Definition storedCount (id : jsstring) (st : Store) : Z :=
  match Map_get id st with
  | Some f => FormatPattern.usageCount f
  | None => 0%Z
  end.

(** The sum of the counts of a top list. *)
Definition sumCounts {K} (top : list (K * Z)) : Z :=
  fold_right Z.add 0%Z (map snd top).

(** * Properties *)

(** ** Strings and numbers *)

Lemma streq_refl (a : jsstring) : streq a a = true.
Proof.
  induction a as [|x a IH]; simpl; [reflexivity|].
  now rewrite N.eqb_refl, IH.
Qed.

Lemma streq_eq (a b : jsstring) : streq a b = true <-> a = b.
Proof.
  split.
  - revert b; induction a as [|x a IH]; intros [|y b] H; simpl in H;
      try discriminate; [reflexivity|].
    apply andb_true_iff in H as [Hx Ha].
    apply N.eqb_eq in Hx. f_equal; auto.
  - intros ->. apply streq_refl.
Qed.

Lemma streq_neq (a b : jsstring) : streq a b = false <-> a <> b.
Proof.
  split.
  - intros H E. apply streq_eq in E. congruence.
  - intros H. destruct (streq a b) eqn:E; [|reflexivity].
    apply streq_eq in E. contradiction.
Qed.

Lemma Qltb_lt (a b : Q) : Qltb a b = true <-> (a < b)%Q.
Proof.
  unfold Qltb. rewrite negb_true_iff. split.
  - intros H. apply Qnot_le_lt. intros Hle.
    apply Qle_bool_iff in Hle. congruence.
  - intros H. destruct (Qle_bool b a) eqn:E; [|reflexivity].
    apply Qle_bool_iff in E. exfalso. apply (Qlt_not_le _ _ H E).
Qed.

Lemma Qltb_ge (a b : Q) : Qltb a b = false <-> (b <= a)%Q.
Proof.
  unfold Qltb. rewrite negb_false_iff. apply Qle_bool_iff.
Qed.

Lemma Math_min_spec (a b : Q) :
  ((a <= b)%Q /\ Math_min a b = a) \/ ((b < a)%Q /\ Math_min a b = b).
Proof.
  unfold Math_min. destruct (Qle_bool a b) eqn:E.
  - left. split; [now apply Qle_bool_iff|reflexivity].
  - right. split; [|reflexivity].
    apply Qnot_le_lt. intros H. apply Qle_bool_iff in H. congruence.
Qed.

Lemma Math_min_le_l (a b : Q) : (Math_min a b <= a)%Q.
Proof. destruct (Math_min_spec a b) as [[H ->]|[H ->]]; lra. Qed.

Lemma Math_min_le_r (a b : Q) : (Math_min a b <= b)%Q.
Proof. destruct (Math_min_spec a b) as [[H ->]|[H ->]]; lra. Qed.

Lemma Math_min_glb (a b c : Q) :
  (c <= a)%Q -> (c <= b)%Q -> (c <= Math_min a b)%Q.
Proof. intros Ha Hb. destruct (Math_min_spec a b) as [[H ->]|[H ->]]; lra. Qed.

(** ** The content parser *)

Lemma existsb_blank_filter_nonBlank (ls : list jsstring) :
  existsb (fun l => (length (trim l) =? 0)%nat) (filter nonBlank ls) = false.
Proof.
  induction ls as [|l ls IH]; simpl; [reflexivity|].
  destruct (nonBlank l) eqn:E; [|exact IH].
  simpl. rewrite IH, orb_false_r.
  unfold nonBlank in E. apply Nat.ltb_lt in E.
  apply Nat.eqb_neq. lia.
Qed.

(** C10. For every input string the parsed content has
    [lineBreakStructure.hasDoubleLineBreaks = false]: the blank lines are
    filtered out of [lines] before [analyzeLineBreaks] looks for one. *)
Theorem hasDoubleLineBreaks_never_true `{CaseMapping} (content : jsstring) :
  hasDoubleLineBreaks (lineBreakStructure (parsePostContent content)) = false.
Proof.
  unfold parsePostContent, analyzeLineBreaks; simpl.
  apply existsb_blank_filter_nonBlank.
Qed.

(** C1. On the empty string the parser returns [wordCount = 0], no emoji,
    hashtag, mention, link or number, and [totalLineBreaks = -1]: the count
    is [lines.length - 1] with no floor at 0, whereas [averageLineLength],
    computed next to it, is guarded for the empty list of lines and is 0. *)
Theorem parsePostContent_empty `{CaseMapping} :
  let parsed := parsePostContent [] in
  lines parsed = []
  /\ wordCount parsed = 0%Z
  /\ emojiCount parsed = 0%Z
  /\ hashtags parsed = []
  /\ mentions parsed = []
  /\ links parsed = []
  /\ numbers parsed = []
  /\ averageLineLength (lineBreakStructure parsed) = 0%Z
  /\ totalLineBreaks (lineBreakStructure parsed) = (-1)%Z.
Proof.
  cbv zeta. repeat split; reflexivity.
Qed.

(** ** Scenario 1 *)

(** C3, as stated, fails on the scenario input: the hook is neither
    BOLD_STATEMENT nor CONTROVERSIAL_TAKE, and no numeric token is
    extracted. *)
Lemma scenario1_claim_fails :
  ~ (let parsed := parsePostContent scenario1 in
     let detected := identifyFormatPattern parsed linkedin in
     (DetectedFormatPattern.hookType detected = HookType.BOLD_STATEMENT
      \/ DetectedFormatPattern.hookType detected
         = HookType.CONTROVERSIAL_TAKE)
     /\ (7 # 10 <= DetectedFormatPattern.hookConfidence detected)%Q
     /\ (DetectedFormatPattern.ctaType detected = CTAType.COMMENT_PROMPT
         \/ DetectedFormatPattern.ctaType detected = CTAType.ENGAGEMENT_BAIT)
     /\ (7 # 10 <= DetectedFormatPattern.ctaConfidence detected)%Q
     /\ hasNumbers parsed = true
     /\ In (str "5") (numbers parsed)).
Proof.
  cbv zeta. intros (_ & _ & _ & _ & Hnum & _).
  vm_compute in Hnum. discriminate.
Qed.

(** C3, amended. On the scenario input (platform linkedin) no hook rule
    matches, so the hook is NONE at confidence 0; the call to action is
    ENGAGEMENT_BAIT at confidence 0.85; and the parser extracts no numeric
    token ([5K] is not a number between word boundaries), so [hasNumbers] is
    false. *)
Theorem scenario1_detected :
  let parsed := parsePostContent scenario1 in
  let detected := identifyFormatPattern parsed linkedin in
  DetectedFormatPattern.hookType detected = HookType.NONE
  /\ DetectedFormatPattern.hookConfidence detected = 0%Q
  /\ DetectedFormatPattern.ctaType detected = CTAType.ENGAGEMENT_BAIT
  /\ DetectedFormatPattern.ctaConfidence detected = (85 # 100)%Q
  /\ (7 # 10 <= DetectedFormatPattern.ctaConfidence detected)%Q
  /\ hasNumbers parsed = false
  /\ numbers parsed = [].
Proof.
  cbv zeta.
  assert (E : identifyFormatPattern (parsePostContent scenario1) linkedin
              = {| DetectedFormatPattern.hookType := HookType.NONE;
                   DetectedFormatPattern.hookConfidence := 0%Q;
                   DetectedFormatPattern.hookText := [];
                   DetectedFormatPattern.bodyType := BodyType.INSIGHT_SHARING;
                   DetectedFormatPattern.bodyConfidence := (3 # 10)%Q;
                   DetectedFormatPattern.bodyStructure := str "general";
                   DetectedFormatPattern.ctaType := CTAType.ENGAGEMENT_BAIT;
                   DetectedFormatPattern.ctaConfidence := (85 # 100)%Q;
                   DetectedFormatPattern.ctaText := str "comment" |})
    by (vm_compute; reflexivity).
  rewrite E; simpl.
  repeat split; try reflexivity; try (vm_compute; congruence).
Qed.

(** ** Hook detection *)

Lemma fold_left_ext {A B} (f g : A -> B -> A) (l : list B) (a : A) :
  (forall a x, f a x = g a x) -> fold_left f l a = fold_left g l a.
Proof.
  intros E. revert a. induction l as [|x l IH]; intros a; simpl;
    [reflexivity|].
  now rewrite E, IH.
Qed.

Lemma fold_left_flat_map {A B C} (g : A -> C -> A) (f : B -> list C)
      (l : list B) (a : A) :
  fold_left g (flat_map f l) a
  = fold_left (fun a x => fold_left g (f x) a) l a.
Proof.
  revert a. induction l as [|x l IH]; intros a; simpl; [reflexivity|].
  now rewrite fold_left_app, IH.
Qed.

Section HookDetection.
Context {CM : CaseMapping}.

(** The nested loops of [detectHookType] visit the candidates of all rules
    of all types and keep the best one. *)
Lemma detectHookType_pickBest (parsed : ParsedContent) :
  detectHookType parsed
  = questionFallback parsed (pickBest (hookCandidates parsed)).
Proof.
  unfold detectHookType, questionFallback, pickBest, hookCandidates.
  rewrite fold_left_flat_map.
  match goal with
  | |- (if _ && Qltb (confidence ?x) _ then _ else _)
       = (if _ && Qltb (confidence ?y) _ then _ else _) =>
      assert (E : x = y); [|now rewrite E]
  end.
  apply fold_left_ext. intros best [hookType pats]; simpl.
  destruct (HookType.eqb hookType HookType.NONE); [reflexivity|].
  rewrite fold_left_flat_map.
  apply fold_left_ext. intros b p.
  unfold hookCandidate, hookFirstLine, hookFirstTwoLines, better.
  destruct (matchEither p _ _); reflexivity.
Qed.

Lemma fold_better_first_max (l : list (Detection HookType.t))
      (b : Detection HookType.t) :
  let r := fold_left better l b in
  (r = b /\ forall c, In c l -> (confidence c <= confidence b)%Q)
  \/ (exists l1 l2,
         l = l1 ++ r :: l2
         /\ (confidence b < confidence r)%Q
         /\ (forall c, In c l1 -> (confidence c < confidence r)%Q)
         /\ (forall c, In c l2 -> (confidence c <= confidence r)%Q)).
Proof.
  revert b. induction l as [|c l IH]; intros b; simpl.
  - left. split; [reflexivity|]. intros c [].
  - unfold better at 2 4 6 8 10.
    destruct (Qltb (confidence b) (confidence c)) eqn:E.
    + apply Qltb_lt in E.
      destruct (IH c) as [[Hr Hall]|(l1 & l2 & Hl & Hlt & H1 & H2)].
      * right. exists [], l. simpl in Hr. rewrite Hr.
        repeat split; auto. intros x [].
      * right. exists (c :: l1), l2. simpl.
        repeat split; auto.
        -- now rewrite Hl at 1.
        -- lra.
        -- intros x [<-|Hx]; auto.
    + apply Qltb_ge in E.
      destruct (IH b) as [[Hr Hall]|(l1 & l2 & Hl & Hlt & H1 & H2)].
      * left. split; [exact Hr|]. intros x [<-|Hx]; auto.
      * right. exists (c :: l1), l2. simpl.
        repeat split; auto.
        -- now rewrite Hl at 1.
        -- intros x [<-|Hx]; auto. lra.
Qed.

Lemma hookCandidate_confidence parsed hookType p c :
  In c (hookCandidate parsed hookType p) ->
  confidence c = (9 # 10)%Q \/ confidence c = (7 # 10)%Q.
Proof.
  unfold hookCandidate. destruct (matchEither p _ _) as [m|]; [|intros []].
  intros [<-|[]]; simpl. destruct (index m =? 0)%nat; auto.
Qed.

(** The candidates are exactly the matches of the rules of the table. *)
Lemma hookCandidates_spec (parsed : ParsedContent)
      (c : Detection HookType.t) :
  In c (hookCandidates parsed) <->
  exists hookType pats p m,
    In (hookType, pats) HOOK_PATTERNS
    /\ hookType <> HookType.NONE
    /\ In p pats
    /\ matchEither p (hookFirstLine parsed) (hookFirstTwoLines parsed)
       = Some m
    /\ c = {| dtype := hookType;
              confidence :=
                if (index m =? 0)%nat then (9 # 10)%Q else (7 # 10)%Q;
              matchedText := matched m |}.
Proof.
  unfold hookCandidates. rewrite in_flat_map. split.
  - intros ([hookType pats] & Hin & Hc); simpl in Hc.
    destruct (HookType.eqb hookType HookType.NONE) eqn:E; [destruct Hc|].
    apply in_flat_map in Hc as (p & Hp & Hc).
    unfold hookCandidate in Hc.
    destruct (matchEither p _ _) as [m|] eqn:Em; [|destruct Hc].
    destruct Hc as [<-|[]].
    exists hookType, pats, p, m. repeat split; auto.
    intros ->. discriminate.
  - intros (hookType & pats & p & m & Hin & Hne & Hp & Em & ->).
    exists (hookType, pats). split; [exact Hin|]. simpl.
    destruct (HookType.eqb hookType HookType.NONE) eqn:E.
    + destruct hookType; try discriminate. contradiction.
    + apply in_flat_map. exists p. split; [exact Hp|].
      unfold hookCandidate. rewrite Em. now left.
Qed.
End HookDetection.

Lemma endsWith_question_head (s : jsstring) :
  endsWith (str "?") s = true <-> exists t, rev s = 63%N :: t.
Proof.
  unfold endsWith. change (rev (str "?")) with [63%N].
  destruct (rev s) as [|y t]; cbn -[N.eqb].
  - split; [discriminate|]. intros (t & [=]).
  - rewrite andb_true_r. split.
    + intros E. apply N.eqb_eq in E. subst. now exists t.
    + intros (t' & [= -> _]). reflexivity.
Qed.

Lemma endsWith_question_cons (c : char) (t : jsstring) :
  t <> [] -> endsWith (str "?") (c :: t) = endsWith (str "?") t.
Proof.
  intros Ht. unfold endsWith. simpl rev at 2.
  destruct (rev t) as [|y l] eqn:E.
  - exfalso. apply Ht. apply (f_equal (@rev char)) in E.
    now rewrite rev_involutive in E.
  - reflexivity.
Qed.

Lemma search_unfold `{CaseMapping} (fl : flags) (r : regex) (idx : nat)
      (prev : option char) (s : jsstring) :
  search fl r idx prev s
  = match rmatch fl r prev s accept with
    | Some (p', s') =>
        Some {| index := idx; matched := firstn (length s - length s') s;
                prevAfter := p'; restAfter := s' |}
    | None =>
        match s with
        | [] => None
        | c :: t => search fl r (S idx) (Some c) t
        end
    end.
Proof. destruct s; reflexivity. Qed.

(** The QUESTION rule [/\?$/] matches every string that ends in [?]. *)
Lemma question_rule_matches `{CaseMapping} (s : jsstring) (idx : nat)
      (prev : option char) :
  endsWith (str "?") s = true ->
  search noFlags (Seq (lit "?") Eol) idx prev s <> None.
Proof.
  revert idx prev. induction s as [|c t IH]; intros idx prev Hs.
  - discriminate.
  - rewrite search_unfold.
    destruct (rmatch noFlags (Seq (lit "?") Eol) prev (c :: t) accept)
      as [[p' s']|] eqn:E; [discriminate|].
    destruct t as [|d t'].
    + exfalso. apply endsWith_question_head in Hs as (l & Hl).
      simpl in Hl. injection Hl as -> _. vm_compute in E. discriminate.
    + apply IH. rewrite endsWith_question_cons in Hs by discriminate.
      exact Hs.
Qed.

Lemma asciiCase_keeps_question_mark (s : jsstring) :
  endsWith (str "?") s = true ->
  endsWith (str "?") (@toLowerCase asciiCase s) = true.
Proof.
  rewrite !endsWith_question_head. intros (t & Ht).
  simpl. rewrite <- map_rev, Ht. simpl. eauto.
Qed.

Section HookFallback.
Context {CM : CaseMapping}.

(** When lowercasing keeps a final [?], a first line that ends in [?] is
    matched by a rule, so "nothing matches" leaves no room for the
    question-mark fallback. *)
Lemma no_candidate_no_question_mark (parsed : ParsedContent) :
  (forall s, endsWith (str "?") s = true ->
             endsWith (str "?") (toLowerCase s) = true) ->
  hookCandidates parsed = [] ->
  endsWithQuestionMark (nth_error (lines parsed) 0) = false.
Proof.
  intros Hlower Hnone.
  destruct (endsWithQuestionMark (nth_error (lines parsed) 0)) eqn:Eq;
    [exfalso|reflexivity].
  unfold endsWithQuestionMark in Eq.
  destruct (nth_error (lines parsed) 0) as [line0|] eqn:El; [|discriminate].
  apply Hlower in Eq.
  pose proof (@question_rule_matches _ (toLowerCase line0) 0%nat None Eq)
    as Hm.
  destruct (search noFlags (Seq (lit "?") Eol) 0 None (toLowerCase line0))
    as [m|] eqn:Em; [clear Hm|now apply Hm].
  assert (Hin : In {| dtype := HookType.QUESTION;
                      confidence :=
                        if (index m =? 0)%nat then (9 # 10)%Q
                        else (7 # 10)%Q;
                      matchedText := matched m |}
                   (hookCandidates parsed)).
  { apply hookCandidates_spec.
    exists HookType.QUESTION,
           [ reI (startWords ["what"; "why"; "how"; "when"; "where"; "who";
                              "which"; "do you"; "did you"; "have you";
                              "are you"; "is your"; "would you";
                              "could you"]%string);
             re (Seq (lit "?") Eol);
             reI (startWords ["ever wondered"; "have you ever";
                              "did you know"]%string) ],
           (re (Seq (lit "?") Eol)), m.
    split; [left; reflexivity|]. split; [discriminate|].
    split; [right; left; reflexivity|]. split; [|reflexivity].
    unfold matchEither, execRe, exec, hookFirstLine.
    rewrite El. simpl option_map. simpl orEmpty.
    change (reFlags (re (Seq (lit "?") Eol))) with noFlags.
    change (pattern (re (Seq (lit "?") Eol))) with (Seq (lit "?") Eol).
    now rewrite Em. }
  rewrite Hnone in Hin. destruct Hin.
Qed.
End HookFallback.

(** C5, as stated, fails: on the line [million users by 2030] the first
    STATISTIC rule that matches is the second one, away from position 0, and
    would stand for the type at 0.7; the code goes on to the third rule,
    which matches at position 0, and returns 0.9. *)
Lemma first_rule_does_not_win :
  let parsed := parsePostContent statisticLine in
  confidence (detectHookType parsed) = (9 # 10)%Q
  /\ confidence (detectHookType_spec parsed) = (7 # 10)%Q
  /\ detectHookType parsed <> detectHookType_spec parsed.
Proof.
  cbv zeta.
  assert (E1 : detectHookType (parsePostContent statisticLine)
               = {| dtype := HookType.STATISTIC; confidence := (9 # 10)%Q;
                    matchedText := str "million" |})
    by (vm_compute; reflexivity).
  assert (E2 : detectHookType_spec (parsePostContent statisticLine)
               = {| dtype := HookType.STATISTIC; confidence := (7 # 10)%Q;
                    matchedText := str "by 2030" |})
    by (vm_compute; reflexivity).
  rewrite E1, E2. repeat split. discriminate.
Qed.

(** C5, amended. Every rule of every hook type other than NONE is tried on
    the lowercased first line and, failing that, on the first two lines
    joined; a rule that matches is a candidate at 0.9 when its match starts
    at position 0 and at 0.7 otherwise (no rule stands for its type: a later
    rule of the same type competes like any other). The best candidate is
    the one of highest confidence, the earliest in table order among equals,
    and NONE at confidence 0 when there is no candidate. The result is the
    best candidate, replaced by QUESTION at 0.85 when its confidence is
    below 0.8 and the first line ends in [?]; it is NONE at confidence 0
    when nothing matches at all (lowercasing keeps a final [?], which the
    QUESTION rule [/\?$/] matches). *)
Theorem detectHookType_best_of_all_rules `{CaseMapping}
        (parsed : ParsedContent) :
  let cands := hookCandidates parsed in
  let best := pickBest cands in
  (forall c, In c cands <->
     exists hookType pats p m,
       In (hookType, pats) HOOK_PATTERNS
       /\ hookType <> HookType.NONE
       /\ In p pats
       /\ matchEither p (hookFirstLine parsed) (hookFirstTwoLines parsed)
          = Some m
       /\ c = {| dtype := hookType;
                 confidence :=
                   if (index m =? 0)%nat then (9 # 10)%Q else (7 # 10)%Q;
                 matchedText := matched m |})
  /\ (cands = [] -> best = noHook)
  /\ (cands <> [] ->
      exists l1 l2,
        cands = l1 ++ best :: l2
        /\ (forall c, In c l1 -> (confidence c < confidence best)%Q)
        /\ (forall c, In c l2 -> (confidence c <= confidence best)%Q))
  /\ detectHookType parsed
     = (if endsWithQuestionMark (nth_error (lines parsed) 0)
           && Qltb (confidence best) (8 # 10)%Q
        then {| dtype := HookType.QUESTION; confidence := (85 # 100)%Q;
                matchedText := orEmpty (nth_error (lines parsed) 0) |}
        else best)
  /\ ((forall s, endsWith (str "?") s = true ->
                 endsWith (str "?") (toLowerCase s) = true) ->
      cands = [] -> detectHookType parsed = noHook).
Proof.
  cbv zeta. split; [|split; [|split; [|split]]].
  - intros c. apply hookCandidates_spec.
  - intros ->. reflexivity.
  - intros Hne.
    destruct (fold_better_first_max (hookCandidates parsed) noHook)
      as [[Hr Hall]|(l1 & l2 & Hl & _ & H1 & H2)].
    + exfalso. destruct (hookCandidates parsed) as [|c l] eqn:Ec;
        [now apply Hne|].
      assert (Hin : In c (hookCandidates parsed)) by (rewrite Ec; now left).
      specialize (Hall c (or_introl eq_refl)).
      apply hookCandidates_spec in Hin
        as (ht & pats & p & m & _ & _ & _ & _ & ->).
      simpl in Hall. destruct (index m =? 0)%nat; vm_compute in Hall;
        now apply Hall.
    + exists l1, l2. repeat split; assumption.
  - apply detectHookType_pickBest.
  - intros Hlower Hnone. rewrite detectHookType_pickBest.
    unfold questionFallback.
    rewrite (no_candidate_no_question_mark parsed Hlower Hnone), Hnone.
    reflexivity.
Qed.

Lemma detectHookType_best_of_all_rules_witness :
  detectHookType (parsePostContent scenario1) = noHook.
Proof.
  apply (proj2 (proj2 (proj2 (proj2
           (@detectHookType_best_of_all_rules asciiCase
              (parsePostContent scenario1)))))).
  - exact asciiCase_keeps_question_mark.
  - vm_compute. reflexivity.
Defined.

(** ** Confidences and the virality score *)

Lemma fold_left_inv {A B} (P : A -> Prop) (f : A -> B -> A) (l : list B)
      (a : A) :
  P a -> (forall a x, P a -> P (f a x)) -> P (fold_left f l a).
Proof.
  intros Ha Hstep. revert a Ha.
  induction l as [|x l IH]; intros a Ha; simpl; auto.
Qed.

Section Confidences.
Context {CM : CaseMapping}.

Lemma detectHookType_confidence (parsed : ParsedContent) :
  unitInterval (confidence (detectHookType parsed)).
Proof.
  rewrite detectHookType_pickBest. unfold questionFallback.
  destruct (_ && _); [simpl; unfold unitInterval; lra|].
  unfold pickBest.
  destruct (fold_better_first_max (hookCandidates parsed) noHook)
    as [[-> _]|(l1 & l2 & Hl & _)].
  - simpl. unfold unitInterval; lra.
  - assert (Hin : In (fold_left better (hookCandidates parsed) noHook)
                     (hookCandidates parsed))
      by (rewrite Hl at 2; apply in_or_app; right; now left).
    apply hookCandidates_spec in Hin
      as (ht & pats & p & m & _ & _ & _ & _ & ->).
    simpl. destruct (index m =? 0)%nat; unfold unitInterval; lra.
Qed.

Lemma detectBodyType_confidence (parsed : ParsedContent) :
  unitInterval (confidence (detectBodyType parsed)).
Proof.
  unfold detectBodyType.
  destruct (_ || _); [simpl; unfold unitInterval; lra|].
  apply fold_left_inv; [simpl; unfold unitInterval; lra|].
  intros best [bodyType rules] Hbest.
  destruct (fold_left _ (indicators rules) _) as [matchCount ind].
  destruct (Qltb 0 matchCount) eqn:Epos; [|exact Hbest].
  destruct (Qltb (confidence best) _); [|exact Hbest].
  simpl. apply Qltb_lt in Epos. split.
  - apply Math_min_glb; lra.
  - pose proof (Math_min_le_l (9 # 10) ((4 # 10) + matchCount * (15 # 100))).
    lra.
Qed.

Lemma detectCTAType_confidence (parsed : ParsedContent) :
  unitInterval (confidence (detectCTAType parsed)).
Proof.
  unfold detectCTAType.
  destruct (hasLinks parsed && _); [simpl; unfold unitInterval; lra|].
  destruct (endsWithQuestionMark _ && _);
    [simpl; unfold unitInterval; lra|].
  apply fold_left_inv; [simpl; unfold unitInterval; lra|].
  intros best [ctaType pats] Hbest.
  destruct (CTAType.eqb ctaType CTAType.NONE); [exact Hbest|].
  apply fold_left_inv; [exact Hbest|].
  intros b p Hb.
  destruct (matchEither p _ _) as [m|]; [|exact Hb].
  destruct (Qltb (confidence b) _); [|exact Hb].
  simpl. destruct (includes _ _); unfold unitInterval; lra.
Qed.
End Confidences.

Lemma calculateHookScore_bounds (d : DetectedFormatPattern.t) :
  (0 <= DetectedFormatPattern.hookConfidence d)%Q ->
  (0 <= calculateHookScore d <= 25)%Q.
Proof.
  intros Hc. unfold calculateHookScore. split.
  - apply Math_min_glb; [lra|]. destruct (negb _); lra.
  - apply Math_min_le_l.
Qed.

Lemma calculateBodyScore_bounds (parsed : ParsedContent)
      (d : DetectedFormatPattern.t) :
  (0 <= DetectedFormatPattern.bodyConfidence d)%Q ->
  (0 <= calculateBodyScore parsed d <= 25)%Q.
Proof.
  intros Hc. unfold calculateBodyScore. split.
  - apply Math_min_glb; [lra|].
    destruct (negb _), (3 <? _)%Z, (1 <? _)%nat; lra.
  - apply Math_min_le_l.
Qed.

Lemma calculateCTAScore_bounds (d : DetectedFormatPattern.t) :
  (0 <= DetectedFormatPattern.ctaConfidence d)%Q ->
  (0 <= calculateCTAScore d <= 15)%Q.
Proof.
  intros Hc. unfold calculateCTAScore.
  destruct (CTAType.eqb _ _); [lra|]. split.
  - apply Math_min_glb; [lra|].
    destruct (DetectedFormatPattern.ctaType d); simpl; lra.
  - apply Math_min_le_l.
Qed.

Lemma calculateEmotionalScore_bounds (signals : ViralSignals) :
  (0 <= calculateEmotionalScore signals <= 15)%Q.
Proof.
  unfold calculateEmotionalScore. split; [|apply Math_min_le_l].
  apply Math_min_glb; [lra|].
  assert (0 <= Math_min 10 (ofZ (lengthZ (emotionalTriggers signals)) * 3))%Q.
  { apply Math_min_glb; [lra|].
    assert (0 <= ofZ (lengthZ (emotionalTriggers signals)))%Q.
    { unfold ofZ, lengthZ. rewrite <- (Zle_Qle 0). lia. }
    lra. }
  destruct (existsb _ _); lra.
Qed.

Lemma calculateFormatScore_bounds (parsed : ParsedContent) (pl : Platform) :
  (0 <= calculateFormatScore parsed pl <= 10)%Q.
Proof.
  unfold calculateFormatScore. split; [|apply Math_min_le_l].
  apply Math_min_glb; [lra|].
  destruct pl.
  - destruct (3 <=? _)%Z, (2 <=? _)%nat, (_ && _); lra.
  - destruct (hasHashtags parsed), (1 <=? _)%Z, (_ <=? 280)%Z; lra.
Qed.

Lemma calculatePlatformFitScore_bounds (parsed : ParsedContent)
      (pl : Platform) :
  (0 <= calculatePlatformFitScore parsed pl <= 10)%Q.
Proof.
  unfold calculatePlatformFitScore. split; [|apply Math_min_le_l].
  apply Math_min_glb; [lra|].
  destruct pl.
  - destruct (_ && _), (2 <=? _)%nat; lra.
  - destruct (_ <=? 280)%Z, (hasHashtags parsed); lra.
Qed.

Lemma Math_round_bounds (q : Q) :
  (0 <= q <= 100)%Q -> (0 <= Math_round q <= 100)%Z.
Proof.
  intros [H0 H100]. unfold Math_round. split.
  - change 0%Z with (Qfloor 0). apply Qfloor_resp_le. lra.
  - change 100%Z with (Qfloor (100 + (1 # 2))). apply Qfloor_resp_le. lra.
Qed.

Lemma Math_min_100_ofZ (z : Z) :
  (z <= 100)%Z -> Math_min 100 (ofZ z) = ofZ z.
Proof.
  intros Hz. destruct (Math_min_spec 100 (ofZ z)) as [[H ->]|[H ->]];
    [|reflexivity].
  unfold ofZ in *. change 100%Q with (inject_Z 100) in H.
  rewrite <- Zle_Qle in H. assert (z = 100%Z) by lia. now subst.
Qed.

Lemma engagementBoost_spec (post : ViralPost.t) :
  engagementBoost post = true <->
  exists r, engagementRate (ViralPost.metrics post) = Some r /\ (5 < r)%Q.
Proof.
  unfold engagementBoost.
  destruct (engagementRate (ViralPost.metrics post)) as [r|]; split.
  - intros H. exists r. split; [reflexivity|now apply Qltb_lt].
  - intros (r' & [= <-] & H). now apply Qltb_lt.
  - discriminate.
  - intros (r' & [=] & _).
Qed.

(** The scorer on any inputs whose three confidences are not negative. *)
Lemma calculateViralityScore_bounds (post : ViralPost.t)
      (parsed : ParsedContent) (d : DetectedFormatPattern.t)
      (signals : ViralSignals) :
  (0 <= DetectedFormatPattern.hookConfidence d)%Q ->
  (0 <= DetectedFormatPattern.bodyConfidence d)%Q ->
  (0 <= DetectedFormatPattern.ctaConfidence d)%Q ->
  let sum := sixTermSum post parsed d signals in
  let score := calculateViralityScore post parsed d signals in
  (0 <= sum <= 100)%Q
  /\ (engagementBoost post = true ->
      score = ofZ (Math_round (Math_min 100 (sum * (11 # 10)))))
  /\ (engagementBoost post = false -> score = ofZ (Math_round sum))
  /\ exists z, score = ofZ z /\ (0 <= z <= 100)%Z.
Proof.
  intros Hh Hb Hc. cbv zeta.
  pose proof (calculateHookScore_bounds d Hh).
  pose proof (calculateBodyScore_bounds parsed d Hb).
  pose proof (calculateCTAScore_bounds d Hc).
  pose proof (calculateEmotionalScore_bounds signals).
  pose proof (calculateFormatScore_bounds parsed (ViralPost.platform post)).
  pose proof (calculatePlatformFitScore_bounds parsed
                                               (ViralPost.platform post)).
  assert (Hsum : (0 <= sixTermSum post parsed d signals <= 100)%Q)
    by (unfold sixTermSum; lra).
  assert (Hboosted :
           (0 <= Math_min 100 (sixTermSum post parsed d signals * (11 # 10))
            <= 100)%Q).
  { split; [apply Math_min_glb; lra|apply Math_min_le_l]. }
  unfold calculateViralityScore.
  split; [exact Hsum|].
  destruct (engagementBoost post); (split; [|split]); try discriminate;
    intros; try (apply Math_min_100_ofZ; now apply Math_round_bounds).
  - eexists. split; [apply Math_min_100_ofZ|];
      now apply Math_round_bounds.
  - eexists. split; [apply Math_min_100_ofZ|];
      now apply Math_round_bounds.
Qed.

(** C4. For every post, the three confidences of [identifyFormatPattern]
    lie in [0, 1]; each of the six terms of the score lies between 0 and its
    cap (25, 25, 15, 15, 10, 10); the running total is multiplied by 1.1
    (and cut at 100) exactly when the post's engagement rate exceeds 5; and
    [calculateViralityScore] returns the rounded total, an integer in
    [0, 100]. *)
Theorem virality_score_integer_in_range `{CaseMapping} (post : ViralPost.t) :
  let parsed := parsePostContent (ViralPost.content post) in
  let detected := identifyFormatPattern parsed (ViralPost.platform post) in
  let signals := extractViralSignals parsed (ViralPost.platform post) in
  let sum := sixTermSum post parsed detected signals in
  let score := calculateViralityScore post parsed detected signals in
  unitInterval (DetectedFormatPattern.hookConfidence detected)
  /\ unitInterval (DetectedFormatPattern.bodyConfidence detected)
  /\ unitInterval (DetectedFormatPattern.ctaConfidence detected)
  /\ (0 <= calculateHookScore detected <= 25)%Q
  /\ (0 <= calculateBodyScore parsed detected <= 25)%Q
  /\ (0 <= calculateCTAScore detected <= 15)%Q
  /\ (0 <= calculateEmotionalScore signals <= 15)%Q
  /\ (0 <= calculateFormatScore parsed (ViralPost.platform post) <= 10)%Q
  /\ (0 <= calculatePlatformFitScore parsed (ViralPost.platform post)
      <= 10)%Q
  /\ (sum == calculateHookScore detected
             + calculateBodyScore parsed detected
             + calculateCTAScore detected
             + calculateEmotionalScore signals
             + calculateFormatScore parsed (ViralPost.platform post)
             + calculatePlatformFitScore parsed (ViralPost.platform post))%Q
  /\ (engagementBoost post = true <->
      exists r, engagementRate (ViralPost.metrics post) = Some r
                /\ (5 < r)%Q)
  /\ (engagementBoost post = true ->
      score = ofZ (Math_round (Math_min 100 (sum * (11 # 10)))))
  /\ (engagementBoost post = false -> score = ofZ (Math_round sum))
  /\ exists z, score = ofZ z /\ (0 <= z <= 100)%Z.
Proof.
  cbv zeta.
  set (parsed := parsePostContent (ViralPost.content post)).
  set (detected := identifyFormatPattern parsed (ViralPost.platform post)).
  pose proof (detectHookType_confidence parsed) as Hh.
  pose proof (detectBodyType_confidence parsed) as Hb.
  pose proof (detectCTAType_confidence parsed) as Hc.
  assert (Hh' : unitInterval (DetectedFormatPattern.hookConfidence detected))
    by exact Hh.
  assert (Hb' : unitInterval (DetectedFormatPattern.bodyConfidence detected))
    by exact Hb.
  assert (Hc' : unitInterval (DetectedFormatPattern.ctaConfidence detected))
    by exact Hc.
  destruct Hh' as [Hh0 Hh1], Hb' as [Hb0 Hb1], Hc' as [Hc0 Hc1].
  destruct (calculateViralityScore_bounds post parsed detected
              (extractViralSignals parsed (ViralPost.platform post))
              Hh0 Hb0 Hc0) as (_ & Hboost & Hplain & Hz).
  split; [split; assumption|].
  split; [split; assumption|].
  split; [split; assumption|].
  split; [now apply calculateHookScore_bounds|].
  split; [now apply calculateBodyScore_bounds|].
  split; [now apply calculateCTAScore_bounds|].
  split; [apply calculateEmotionalScore_bounds|].
  split; [apply calculateFormatScore_bounds|].
  split; [apply calculatePlatformFitScore_bounds|].
  split; [unfold sixTermSum; lra|].
  split; [apply engagementBoost_spec|].
  split; [exact Hboost|].
  split; [exact Hplain|exact Hz].
Qed.

(** ** The format store *)

Lemma Map_get_None_keys (k : jsstring) (st : Store) :
  Map_get k st = None <-> ~ In k (map fst st).
Proof.
  induction st as [|[k' v] st IH]; simpl.
  - split; auto.
  - destruct (streq k' k) eqn:E.
    + apply streq_eq in E. split; [discriminate|]. intros H. exfalso. auto.
    + apply streq_neq in E. rewrite IH. tauto.
Qed.

Lemma Map_get_In (k : jsstring) (v : FormatPattern.t) (st : Store) :
  Map_get k st = Some v -> In (k, v) st.
Proof.
  induction st as [|[k' v'] st IH]; simpl; [discriminate|].
  destruct (streq k' k) eqn:E.
  - apply streq_eq in E. intros [= ->]. left. now subst.
  - auto.
Qed.

Lemma Map_get_set_same (k : jsstring) (v : FormatPattern.t) (st : Store) :
  Map_get k (Map_set k v st) = Some v.
Proof.
  induction st as [|[k' v'] st IH]; simpl.
  - now rewrite streq_refl.
  - destruct (streq k' k) eqn:E; simpl; rewrite E; auto.
Qed.

Lemma Map_set_absent (k : jsstring) (v : FormatPattern.t) (st : Store) :
  Map_get k st = None -> Map_set k v st = st ++ [(k, v)].
Proof.
  induction st as [|[k' v'] st IH]; simpl; [reflexivity|].
  destruct (streq k' k); [discriminate|].
  intros H. now rewrite IH.
Qed.

Lemma Map_set_keys_present (k : jsstring) (v v0 : FormatPattern.t)
      (st : Store) :
  Map_get k st = Some v0 -> map fst (Map_set k v st) = map fst st.
Proof.
  induction st as [|[k' v'] st IH]; simpl; [discriminate|].
  destruct (streq k' k); [reflexivity|].
  intros H. simpl. now rewrite IH.
Qed.

Lemma Map_set_same (k : jsstring) (v : FormatPattern.t) (st : Store) :
  NoDup (map fst st) -> In (k, v) st -> Map_set k v st = st.
Proof.
  induction st as [|[k' v'] st IH]; simpl; [intros _ []|].
  intros Hnd [[= -> ->]|Hin].
  - now rewrite streq_refl.
  - inversion Hnd as [|? ? Hnotin Hnd']; subst.
    destruct (streq k' k) eqn:E.
    + apply streq_eq in E. subst. exfalso. apply Hnotin.
      now apply (in_map fst) in Hin.
    + now rewrite IH.
Qed.

Lemma Map_delete_absent (k : jsstring) (st : Store) :
  Map_get k st = None -> Map_delete k st = (false, st).
Proof.
  induction st as [|[k' v'] st IH]; simpl; [reflexivity|].
  destruct (streq k' k); [discriminate|].
  intros H. now rewrite IH.
Qed.

Lemma Map_delete_incl (k : jsstring) (st : Store) :
  exists l1 l2, st = l1 ++ l2
                /\ (snd (Map_delete k st) = l1 ++ tl l2).
Proof.
  induction st as [|[k' v'] st IH]; simpl.
  - exists [], []. auto.
  - destruct (streq k' k).
    + exists [], ((k', v') :: st). auto.
    + destruct IH as (l1 & l2 & Hst & Hdel).
      destruct (Map_delete k st) as [found t'] eqn:E. simpl in *.
      exists ((k', v') :: l1), l2. simpl. now rewrite <- Hst, Hdel.
Qed.

Lemma keyedById_nil : keyedById [].
Proof. split; constructor. Qed.

Lemma keyedById_set (k : jsstring) (v : FormatPattern.t) (st : Store) :
  keyedById st -> k = FormatPattern.id v -> keyedById (Map_set k v st).
Proof.
  intros [Hid Hnd] Hk. split.
  - clear Hnd. induction st as [|[k' v'] st IH]; simpl.
    + constructor; auto.
    + inversion Hid; subst. destruct (streq k' (FormatPattern.id v)) eqn:E.
      * apply streq_eq in E. constructor; auto.
      * constructor; auto.
  - destruct (Map_get k st) as [v0|] eqn:E.
    + now rewrite (@Map_set_keys_present k v v0 st E).
    + rewrite (@Map_set_absent k v st E), map_app. simpl.
      apply Map_get_None_keys in E.
      apply NoDup_app; [exact Hnd|repeat constructor; intros []|].
      intros x Hx [<-|[]]. contradiction.
Qed.

Lemma keyedById_get (k : jsstring) (v : FormatPattern.t) (st : Store) :
  keyedById st -> Map_get k st = Some v -> FormatPattern.id v = k.
Proof.
  intros [Hid _] Hget. apply Map_get_In in Hget.
  rewrite Forall_forall in Hid. symmetry. exact (Hid _ Hget).
Qed.

Lemma keyedById_delete (k : jsstring) (st : Store) :
  keyedById st -> keyedById (snd (Map_delete k st)).
Proof.
  intros [Hid Hnd].
  destruct (Map_delete_incl k st) as (l1 & l2 & Hst & ->).
  subst st. rewrite map_app in Hnd. apply Forall_app in Hid as [H1 H2].
  split.
  - apply Forall_app. split; [exact H1|].
    destruct l2; [constructor|]. now inversion H2.
  - rewrite map_app. destruct l2 as [|kv l2]; [exact Hnd|]. simpl in *.
    now apply NoDup_remove_1 in Hnd.
Qed.

Section StoreProperties.
Context {CM : CaseMapping}.

Lemma keyedById_learnFromPost now post analysisResult st :
  keyedById st ->
  keyedById (snd (learnFromPost now post analysisResult st)).
Proof.
  intros Hst. unfold learnFromPost.
  destruct (Map_get _ st) as [existing|] eqn:E; simpl.
  - apply keyedById_set; [exact Hst|]. simpl.
    symmetry. now apply (keyedById_get _ Hst).
  - now apply keyedById_set.
Qed.

Lemma keyedById_batchLearn now posts st :
  keyedById st -> keyedById (snd (batchLearn now posts st)).
Proof.
  revert st. induction posts as [|post posts IH]; intros st Hst; simpl;
    [exact Hst|].
  pose proof (keyedById_learnFromPost now post None Hst) as H1.
  destruct (learnFromPost now post None st) as [f st1]. simpl in H1.
  specialize (IH st1 H1).
  destruct (batchLearn now posts st1) as [fs st2]. exact IH.
Qed.

Lemma keyedById_updateFormat now id updates st :
  keyedById st -> keyedById (snd (updateFormat now id updates st)).
Proof.
  intros Hst. unfold updateFormat.
  destruct (Map_get id st) as [existing|] eqn:E; simpl; [|exact Hst].
  apply keyedById_set; [exact Hst|]. simpl.
  symmetry. now apply (keyedById_get _ Hst).
Qed.

Lemma keyedById_importFormats now formats mergeStrategy st :
  keyedById st -> keyedById (importFormats now formats mergeStrategy st).
Proof.
  unfold importFormats. intros Hst.
  apply fold_left_inv; [exact Hst|].
  clear st Hst. intros st f Hst.
  destruct (Map_get (FormatPattern.id f) st) as [existing|] eqn:E.
  - destruct mergeStrategy; [now apply keyedById_set| |exact Hst].
    apply keyedById_set; [exact Hst|]. simpl.
    symmetry. now apply (keyedById_get _ Hst).
  - now apply keyedById_set.
Qed.

Lemma keyedById_initializeDefaultFormats now st :
  keyedById st -> keyedById (initializeDefaultFormats now st).
Proof.
  unfold initializeDefaultFormats. intros Hst.
  apply fold_left_inv; [exact Hst|].
  clear st Hst. intros st f Hst.
  destruct (negb _); [now apply keyedById_set|exact Hst].
Qed.

Lemma keyedById_getDefaultFormat now topic platform st :
  keyedById st -> keyedById (snd (getDefaultFormat now topic platform st)).
Proof.
  intros Hst. unfold getDefaultFormat. simpl.
  destruct (negb _); [now apply keyedById_set|exact Hst].
Qed.

Lemma keyedById_findBestMatch now topic platform options st :
  keyedById st ->
  keyedById (snd (findBestMatch now topic platform options st)).
Proof.
  intros Hst. unfold findBestMatch.
  destruct (_ =? 0)%nat; [now apply keyedById_getDefaultFormat|].
  destruct (fold_left _ _ None) as [[[f sc] el]|]; [exact Hst|].
  now apply keyedById_getDefaultFormat.
Qed.

(** In every reachable store each key is the id of its value. *)
Lemma reachable_keyedById (st : Store) : reachable st -> keyedById st.
Proof.
  induction 1.
  - apply keyedById_initializeDefaultFormats, keyedById_nil.
  - now apply keyedById_learnFromPost.
  - now apply keyedById_batchLearn.
  - now apply keyedById_updateFormat.
  - now apply keyedById_delete.
  - now apply keyedById_importFormats.
  - apply keyedById_nil.
  - now apply keyedById_findBestMatch.
  - now apply keyedById_initializeDefaultFormats.
Qed.

Lemma importFormats_replace_present now formats st :
  NoDup (map fst st) ->
  (forall f, In f formats -> In (FormatPattern.id f, f) st) ->
  importFormats now formats replace st = st.
Proof.
  intros Hnd. unfold importFormats.
  induction formats as [|f formats IH]; intros Hin; simpl; [reflexivity|].
  assert (E : Map_set (FormatPattern.id f) f st = st)
    by (apply Map_set_same; [exact Hnd|apply Hin; now left]).
  destruct (Map_get (FormatPattern.id f) st); rewrite E;
    apply IH; intros g Hg; apply Hin; now right.
Qed.
End StoreProperties.

(** C7. In every reachable store that is not empty, importing what
    [exportFormats] returns, with the strategy replace, leaves the store as
    it was: the same ids in the same order, each with the same format. *)
Theorem import_export_replace_roundtrip `{CaseMapping} (now : jsstring)
        (st : Store) :
  reachable st -> st <> [] ->
  importFormats now (exportFormats st) replace st = st.
Proof.
  intros Hreach _.
  destruct (reachable_keyedById Hreach) as [Hid Hnd].
  apply importFormats_replace_present; [exact Hnd|].
  intros f Hf. unfold exportFormats, Map_values in Hf.
  apply in_map_iff in Hf as ([k v] & <- & Hkv). simpl.
  rewrite Forall_forall in Hid. specialize (Hid _ Hkv). simpl in Hid.
  now rewrite <- Hid.
Qed.

Lemma import_export_replace_roundtrip_witness :
  importFormats sampleNow (exportFormats (initialStore sampleNow)) replace
                (initialStore sampleNow)
  = initialStore sampleNow.
Proof.
  apply (@import_export_replace_roundtrip asciiCase sampleNow
           (initialStore sampleNow)).
  - apply reach_init.
  - vm_compute. discriminate.
Defined.

(** C8. For an id that is not in the store, [getFormatById] returns
    undefined, [updateFormat] returns null and [deleteFormat] returns false,
    and the last two leave the store as it was. The three are total
    functions: none of them raises. *)
Theorem unknown_id_not_found `{CaseMapping} (now id : jsstring)
        (updates : FormatUpdates.t) (st : Store) :
  Map_get id st = None ->
  getFormatById id st = None
  /\ updateFormat now id updates st = (None, st)
  /\ deleteFormat id st = (false, st).
Proof.
  intros Habsent. unfold getFormatById, updateFormat, deleteFormat.
  rewrite Habsent. repeat split. now apply Map_delete_absent.
Qed.

Lemma unknown_id_not_found_witness :
  getFormatById (str "missing") (initialStore sampleNow) = None
  /\ updateFormat sampleNow (str "missing") noUpdates (initialStore sampleNow)
     = (None, initialStore sampleNow)
  /\ deleteFormat (str "missing") (initialStore sampleNow)
     = (false, initialStore sampleNow).
Proof.
  apply (@unknown_id_not_found asciiCase sampleNow (str "missing") noUpdates
           (initialStore sampleNow)).
  vm_compute. reflexivity.
Defined.

Lemma insertDesc_descending {A} (key : A -> Q) (x : A) (l : list A) :
  descending (map key l) -> descending (map key (insertDesc key x l)).
Proof.
  induction l as [|y t IH]; simpl; [auto|].
  intros [Hy Ht]. destruct (Qltb (key x) (key y)) eqn:E.
  - apply Qltb_lt in E. simpl. split; [|now apply IH].
    destruct t as [|z t']; simpl.
    + lra.
    + destruct (Qltb (key x) (key z)); simpl; [exact Hy|lra].
  - apply Qltb_ge in E. simpl. split; [exact E|]. split; assumption.
Qed.

Lemma sortDesc_descending {A} (key : A -> Q) (l : list A) :
  descending (map key (sortDesc key l)).
Proof.
  induction l as [|x l IH]; simpl; [exact I|].
  now apply insertDesc_descending.
Qed.

(** C6. With a platform argument [getStoredFormats] returns the stored
    formats of that platform in the order of the store, not by score: on the
    seeded store the two linkedin formats come out as 75, then 80. Without
    the argument the result is in descending order of score. *)
Theorem getStoredFormats_platform_not_sorted `{CaseMapping} :
  (forall platform st,
      getStoredFormats (Some platform) st
      = filter (fun f => Platform_eqb (FormatPattern.platform f) platform)
               (Map_values st))
  /\ (forall now,
         let formats := getStoredFormats (Some linkedin) (initialStore now) in
         map FormatPattern.id formats
         = [str "linkedin-question-listicle"; str "linkedin-story-lesson"]
         /\ map FormatPattern.effectivenessScore formats = [75%Q; 80%Q]
         /\ ~ descending (map FormatPattern.effectivenessScore formats))
  /\ (forall st,
         descending (map FormatPattern.effectivenessScore
                         (getStoredFormats None st))).
Proof.
  split; [reflexivity|]. split.
  - intros now. cbv zeta.
    assert (E : map FormatPattern.effectivenessScore
                    (getStoredFormats (Some linkedin) (initialStore now))
                = [75%Q; 80%Q]) by reflexivity.
    split; [reflexivity|]. split; [exact E|].
    rewrite E. simpl. intros [Hle _]. revert Hle. vm_compute. auto.
  - intros st. apply sortDesc_descending.
Qed.

(** ** Learning *)

Lemma calculateUpdatedEffectiveness_weight (currentScore newScore : Q)
      (usageCount : Z) :
  (0 <= usageCount)%Z ->
  calculateUpdatedEffectiveness currentScore newScore usageCount
  = (currentScore * (1 - emaWeight usageCount)
     + newScore * emaWeight usageCount)%Q.
Proof.
  intros Hn. unfold calculateUpdatedEffectiveness, emaWeight.
  destruct (usageCount + 1 =? 0)%Z eqn:E; [|reflexivity].
  apply Z.eqb_eq in E. lia.
Qed.

Section Learning.
Context {CM : CaseMapping}.

(** A learn on a triad that is already stored. *)
Lemma learnFromPost_existing now post analysisResult st existing :
  let analysis := usedAnalysis now post analysisResult in
  let fid := generateFormatId (AnalysisResult.formatPattern analysis)
                              (ViralPost.platform post) in
  Map_get fid st = Some existing ->
  (0 <= FormatPattern.usageCount existing)%Z ->
  let f := fst (learnFromPost now post analysisResult st) in
  let st' := snd (learnFromPost now post analysisResult st) in
  FormatPattern.effectivenessScore f
  = (FormatPattern.effectivenessScore existing
     * (1 - emaWeight (FormatPattern.usageCount existing))
     + AnalysisResult.viralityScore analysis
       * emaWeight (FormatPattern.usageCount existing))%Q
  /\ FormatPattern.usageCount f
     = (FormatPattern.usageCount existing + 1)%Z
  /\ Map_get fid st' = Some f
  /\ map fst st' = map fst st.
Proof.
  cbv zeta. unfold usedAnalysis. intros Hget Hn.
  unfold learnFromPost. rewrite Hget. simpl.
  split; [now apply calculateUpdatedEffectiveness_weight|].
  split; [reflexivity|].
  split; [apply Map_get_set_same|].
  now apply Map_set_keys_present with (v0 := existing).
Qed.

(** A learn on a triad that is not stored yet. *)
Lemma learnFromPost_new now post analysisResult st :
  let analysis := usedAnalysis now post analysisResult in
  let fid := generateFormatId (AnalysisResult.formatPattern analysis)
                              (ViralPost.platform post) in
  Map_get fid st = None ->
  let f := fst (learnFromPost now post analysisResult st) in
  let st' := snd (learnFromPost now post analysisResult st) in
  FormatPattern.effectivenessScore f = AnalysisResult.viralityScore analysis
  /\ FormatPattern.usageCount f = 1%Z
  /\ st' = st ++ [(fid, f)].
Proof.
  cbv zeta. unfold usedAnalysis. intros Hget.
  unfold learnFromPost. rewrite Hget. simpl.
  split; [reflexivity|]. split; [reflexivity|].
  now apply Map_set_absent.
Qed.

End Learning.

Lemma countKey_absent (k : jsstring) (st : Store) :
  Map_get k st = None -> countKey k st = 0%nat.
Proof.
  unfold countKey. induction st as [|[k' v] st IH]; simpl; [reflexivity|].
  destruct (streq k' k); [discriminate|]. exact IH.
Qed.

Lemma countKey_keys (k : jsstring) (st st' : Store) :
  map fst st = map fst st' -> countKey k st = countKey k st'.
Proof.
  unfold countKey. revert st'.
  induction st as [|[k1 v1] st IH]; intros [|[k2 v2] st']; simpl;
    try discriminate; [reflexivity|].
  intros [= -> Hrest]. destruct (streq k2 k); simpl; auto.
Qed.

Lemma countKey_snoc (k : jsstring) (v : FormatPattern.t) (st : Store) :
  countKey k (st ++ [(k, v)]) = S (countKey k st).
Proof.
  unfold countKey. rewrite filter_app, length_app. simpl.
  rewrite streq_refl. simpl. lia.
Qed.

Section LearningScenario.
Context {CM : CaseMapping}.

Lemma generateFormatId_triad (a1 a2 : AnalysisResult.t) h b c pl :
  hasTriad a1 h b c -> hasTriad a2 h b c ->
  generateFormatId (AnalysisResult.formatPattern a1) pl
  = generateFormatId (AnalysisResult.formatPattern a2) pl.
Proof.
  intros (H1 & H2 & H3) (G1 & G2 & G3). unfold generateFormatId.
  now rewrite H1, H2, H3, G1, G2, G3.
Qed.
End LearningScenario.

(** C2. A learn on a format that is already stored sets its
    effectivenessScore to [old * (1 - w) + new * w] with
    [w = min(0.3, 1 / (usageCount + 1))] and adds 1 to its usageCount. And
    starting with no stored format for the triad twitter / BOLD_STATEMENT /
    LISTICLE / SHARE, two learns of that triad with virality scores 40 and
    then 80 leave one stored format for it, with usageCount 2 and
    effectivenessScore 52 (over exact rationals; the same update evaluated
    on doubles, [40 * (1 - 0.3) + 80 * 0.3], is 52 as well). *)
Theorem learnFromPost_moving_average `{CaseMapping} :
  (forall now post analysisResult st existing,
      let analysis := usedAnalysis now post analysisResult in
      let fid := generateFormatId (AnalysisResult.formatPattern analysis)
                                  (ViralPost.platform post) in
      Map_get fid st = Some existing ->
      (0 <= FormatPattern.usageCount existing)%Z ->
      let w := Math_min (3 # 10)
                        (1 / ofZ (FormatPattern.usageCount existing + 1))%Q in
      let f := fst (learnFromPost now post analysisResult st) in
      let st' := snd (learnFromPost now post analysisResult st) in
      FormatPattern.effectivenessScore f
      = (FormatPattern.effectivenessScore existing * (1 - w)
         + AnalysisResult.viralityScore analysis * w)%Q
      /\ FormatPattern.usageCount f
         = (FormatPattern.usageCount existing + 1)%Z
      /\ Map_get fid st' = Some f)
  /\ (forall now1 now2 post1 post2 analysis1 analysis2 st,
         let a1 := usedAnalysis now1 post1 analysis1 in
         let a2 := usedAnalysis now2 post2 analysis2 in
         let fid := generateFormatId (AnalysisResult.formatPattern a1)
                                     twitter in
         ViralPost.platform post1 = twitter ->
         ViralPost.platform post2 = twitter ->
         hasTriad a1 HookType.BOLD_STATEMENT BodyType.LISTICLE CTAType.SHARE ->
         hasTriad a2 HookType.BOLD_STATEMENT BodyType.LISTICLE CTAType.SHARE ->
         (AnalysisResult.viralityScore a1 == 40)%Q ->
         (AnalysisResult.viralityScore a2 == 80)%Q ->
         Map_get fid st = None ->
         let st1 := snd (learnFromPost now1 post1 analysis1 st) in
         let st2 := snd (learnFromPost now2 post2 analysis2 st1) in
         exists f,
           Map_get fid st2 = Some f
           /\ FormatPattern.usageCount f = 2%Z
           /\ (FormatPattern.effectivenessScore f == 52)%Q
           /\ countKey fid st2 = 1%nat
           /\ length st2 = S (length st))
  /\ calculateUpdatedEffectiveness64 40 80 1 = 52%float.
Proof.
  split; [|split; [|reflexivity]].
  - intros now post analysisResult st existing analysis fid Hget Hn.
    cbv zeta.
    destruct (@learnFromPost_existing _ now post analysisResult st existing
                Hget Hn) as (He & Hu & Hg & _).
    repeat split; assumption.
  - intros now1 now2 post1 post2 analysis1 analysis2 st a1 a2 fid
           Hp1 Hp2 Ht1 Ht2 H40 H80 Habs. cbv zeta.
    assert (Efid1 : generateFormatId (AnalysisResult.formatPattern a1)
                                     (ViralPost.platform post1) = fid)
      by (now rewrite Hp1).
    assert (Efid2 : generateFormatId (AnalysisResult.formatPattern a2)
                                     (ViralPost.platform post2) = fid)
      by (rewrite Hp2; symmetry; eapply generateFormatId_triad; eassumption).
    pose proof (@learnFromPost_new _ now1 post1 analysis1 st) as Hnew.
    cbv zeta in Hnew. fold a1 in Hnew. rewrite Efid1 in Hnew.
    destruct (Hnew Habs) as (He1 & Hu1 & Hst1). clear Hnew.
    set (f1 := fst (learnFromPost now1 post1 analysis1 st)) in *.
    set (st1 := snd (learnFromPost now1 post1 analysis1 st)) in *.
    assert (Hget1 : Map_get fid st1 = Some f1).
    { rewrite Hst1, <- (@Map_set_absent fid f1 st Habs).
      apply Map_get_set_same. }
    pose proof (@learnFromPost_existing _ now2 post2 analysis2 st1 f1) as Hex.
    cbv zeta in Hex. fold a2 in Hex. rewrite Efid2 in Hex.
    destruct (Hex Hget1 ltac:(lia)) as (He2 & Hu2 & Hget2 & Hkeys).
    clear Hex.
    exists (fst (learnFromPost now2 post2 analysis2 st1)).
    split; [exact Hget2|]. split; [lia|]. split; [|split].
    + rewrite He2, He1, Hu1.
      replace (emaWeight 1) with (3 # 10)%Q by reflexivity. lra.
    + rewrite (countKey_keys fid _ _ Hkeys), Hst1, countKey_snoc.
      now rewrite countKey_absent.
    + rewrite <- (length_map fst), Hkeys, length_map, Hst1, length_app.
      simpl. lia.
Qed.

Lemma learnFromPost_moving_average_witness :
  let post := samplePost twitter (str "Stop guessing.") in
  let fid := generateFormatId
               (AnalysisResult.formatPattern (sampleAnalysis 40)) twitter in
  let st1 := snd (learnFromPost sampleNow post (Some (sampleAnalysis 40))
                                (initialStore sampleNow)) in
  let st2 := snd (learnFromPost sampleNow post (Some (sampleAnalysis 80))
                                st1) in
  exists f,
    Map_get fid st2 = Some f
    /\ FormatPattern.usageCount f = 2%Z
    /\ (FormatPattern.effectivenessScore f == 52)%Q
    /\ countKey fid st2 = 1%nat
    /\ length st2 = S (length (initialStore sampleNow)).
Proof.
  apply (proj1 (proj2 (@learnFromPost_moving_average asciiCase))
               sampleNow sampleNow
               (samplePost twitter (str "Stop guessing."))
               (samplePost twitter (str "Stop guessing."))
               (Some (sampleAnalysis 40)) (Some (sampleAnalysis 80))
               (initialStore sampleNow)).
  - reflexivity.
  - reflexivity.
  - vm_compute. repeat split.
  - vm_compute. repeat split.
  - vm_compute. reflexivity.
  - vm_compute. reflexivity.
  - vm_compute. reflexivity.
Defined.

(** ** Learning on doubles

    The invariant of learning, on the doubles that the code holds. The
    lemmas of the first part are about the specification of IEEE 754
    arithmetic ([SpecFloat]): rounding keeps the sign, the weight of an
    update is not above [0.3], and one minus the weight is a finite positive
    double. They give that an update never stores a negative score or NaN.
    An upper bound does not hold: rounding can carry the result of an
    update above both of the scores that it combines. *)

Section Doubles.
Local Open Scope Z_scope.
Local Unset Implicit Arguments.


Lemma shr_1_nonneg mrs : 0 <= shr_m mrs -> 0 <= shr_m (shr_1 mrs).
Proof.
  destruct mrs as [m r s]. simpl.
  destruct m as [|[p|p|]|p]; simpl; lia.
Qed.

Lemma iter_pos_invariant {A} (P : A -> Prop) (f : A -> A) :
  (forall x, P x -> P (f x)) -> forall p x, P x -> P (SpecFloat.iter_pos f p x).
Proof.
  intros Hf. induction p as [p IH|p IH|]; intros x Hx; simpl; auto.
Qed.

Lemma shr_nonneg mrs e n : 0 <= shr_m mrs -> 0 <= shr_m (fst (shr mrs e n)).
Proof.
  intros H. destruct n as [|p|p]; simpl; auto.
  apply iter_pos_invariant; auto using shr_1_nonneg.
Qed.

Lemma shr_record_of_loc_m m l : shr_m (shr_record_of_loc m l) = m.
Proof. destruct l as [|[| |]]; reflexivity. Qed.

Lemma shr_fexp_nonneg m e l :
  0 <= m -> 0 <= shr_m (fst (shr_fexp prec emax m e l)).
Proof.
  intros H. unfold shr_fexp. apply shr_nonneg.
  now rewrite shr_record_of_loc_m.
Qed.

Lemma round_nearest_even_nonneg m l : 0 <= m -> 0 <= round_nearest_even m l.
Proof.
  intros H. destruct l as [|[| |]]; simpl; try lia.
  destruct (Z.even m); lia.
Qed.

Lemma binary_round_aux_signed sx mx ex lx :
  0 <= mx -> SFsigned sx (binary_round_aux prec emax sx mx ex lx).
Proof.
  intros H. unfold binary_round_aux.
  pose proof (shr_fexp_nonneg mx ex lx H) as H1.
  destruct (shr_fexp prec emax mx ex lx) as [mrs' e']. simpl in H1.
  pose proof (shr_fexp_nonneg
                (round_nearest_even (shr_m mrs') (loc_of_shr_record mrs'))
                e' loc_Exact
                (round_nearest_even_nonneg _ _ H1)) as H2.
  destruct (shr_fexp prec emax _ e' loc_Exact) as [mrs'' e'']. simpl in H2.
  destruct (shr_m mrs'') as [|p|p]; [reflexivity| |lia].
  destruct (e'' <=? emax - prec); reflexivity.
Qed.

Lemma binary_round_signed sx mx ex :
  SFsigned sx (binary_round prec emax sx mx ex).
Proof.
  unfold binary_round.
  destruct (shl_align mx ex _) as [mz ez].
  apply binary_round_aux_signed. lia.
Qed.

Lemma SFmul_nonneg x y :
  SFnonneg x -> SFnonneg y -> (SFfinite x \/ SFposfin y) ->
  (SFfinite y \/ SFposfin x) ->
  SFnonneg (SF64mul x y).
Proof.
  destruct x as [sx|sx| |sx mx ex], y as [sy|sy| |sy my ey]; simpl;
    intros Hx Hy H1 H2; subst; try tauto; try reflexivity;
    try (destruct H1 as [[]|[]]; fail); try (destruct H2 as [[]|[]]; fail).
  pose proof (binary_round_aux_signed (xorb false false)
                (Zpos (mx * my)) (ex + ey) loc_Exact ltac:(lia)) as H.
  unfold SF64mul; simpl.
  destruct (binary_round_aux _ _ _ _ _ _); simpl in *; auto.
Qed.


Lemma digits2_pos_size p : digits2_pos p = Pos.size p.
Proof. induction p; simpl; congruence. Qed.

Lemma digits2_log2 p : Zpos (digits2_pos p) = Z.log2 (Zpos p) + 1.
Proof.
  rewrite digits2_pos_size.
  destruct p; simpl; try rewrite Pos2Z.inj_succ; lia.
Qed.

Lemma fexp_eq x : fexp prec emax x = Z.max (x - 53) (-1074).
Proof. reflexivity. Qed.

Lemma shr_1_half mrs : 0 <= shr_m mrs -> shr_m (shr_1 mrs) = shr_m mrs / 2.
Proof.
  destruct mrs as [m r s]. simpl. intros H.
  destruct m as [|[p|p|]|p]; simpl; try lia; try reflexivity.
  - rewrite Pos2Z.inj_xI. apply Z.div_unique with 1; lia.
  - rewrite Pos2Z.inj_xO. apply Z.div_unique with 0; lia.
Qed.

Lemma iter_shr_1 p : forall mrs,
  0 <= shr_m mrs ->
  shr_m (SpecFloat.iter_pos shr_1 p mrs) = shr_m mrs / 2 ^ Zpos p.
Proof.
  induction p as [p IH|p IH|]; intros mrs H; simpl SpecFloat.iter_pos.
  - assert (H1 : 0 <= shr_m (shr_1 mrs)) by now apply shr_1_nonneg.
    assert (H2 : 0 <= shr_m (SpecFloat.iter_pos shr_1 p (shr_1 mrs))).
    { rewrite IH by assumption. apply Z.div_pos; [assumption|].
      apply Z.pow_pos_nonneg; lia. }
    rewrite IH, IH, shr_1_half by assumption.
    replace (Zpos p~1) with (1 + Zpos p + Zpos p) by lia.
    rewrite !Z.pow_add_r by lia. rewrite Z.pow_1_r.
    assert (0 < 2 ^ Zpos p) by (apply Z.pow_pos_nonneg; lia).
    rewrite !Z.div_div by lia. f_equal. lia.
  - assert (H2 : 0 <= shr_m (SpecFloat.iter_pos shr_1 p mrs)).
    { rewrite IH by assumption. apply Z.div_pos; [assumption|].
      apply Z.pow_pos_nonneg; lia. }
    rewrite IH, IH by assumption.
    replace (Zpos p~0) with (Zpos p + Zpos p) by lia.
    rewrite !Z.pow_add_r by lia.
    assert (0 < 2 ^ Zpos p) by (apply Z.pow_pos_nonneg; lia).
    rewrite !Z.div_div by lia. reflexivity.
  - rewrite shr_1_half by assumption. reflexivity.
Qed.

(** The first step of rounding: a mantissa of more than 53 digits, in the
    normal range, is cut to 53 digits. *)
Lemma shr_fexp_spec p e l :
  let d := Z.log2 (Zpos p) + 1 in
  -1074 <= d + e - 53 ->
  let r := shr_fexp prec emax (Zpos p) e l in
  (d <= 53 /\ fst r = shr_record_of_loc (Zpos p) l /\ snd r = e)
  \/ (53 < d /\ shr_m (fst r) = Zpos p / 2 ^ (d - 53)
      /\ snd r = e + d - 53).
Proof.
  intros d Hd r. subst r. unfold shr_fexp.
  change (Zdigits2 (Zpos p)) with (Zpos (digits2_pos p)).
  rewrite digits2_log2. fold d. rewrite fexp_eq.
  replace (Z.max (d + e - 53) (-1074) - e) with (d - 53) by lia.
  destruct (d - 53) as [|n|n] eqn:En; unfold shr.
  - left. repeat split. lia.
  - right. simpl fst; simpl snd. split; [lia|]. split; [|lia].
    rewrite iter_shr_1; rewrite shr_record_of_loc_m; [reflexivity|lia].
  - left. repeat split. lia.
Qed.

Lemma round_nearest_even_bounds m l :
  m <= round_nearest_even m l <= m + 1.
Proof.
  destruct l as [|[| |]]; simpl; try lia. destruct (Z.even m); lia.
Qed.

Lemma loc_of_shr_record_of_loc m l :
  loc_of_shr_record (shr_record_of_loc m l) = l.
Proof. destruct l as [|[| |]]; reflexivity. Qed.

Lemma log2_digits_bounds p :
  let d := Z.log2 (Zpos p) + 1 in
  1 <= d /\ 2 ^ (d - 1) <= Zpos p < 2 ^ d.
Proof.
  intros d. subst d.
  pose proof (Z.log2_spec (Zpos p) ltac:(lia)) as H.
  pose proof (Z.log2_nonneg (Zpos p)).
  replace (Z.log2 (Zpos p) + 1 - 1) with (Z.log2 (Zpos p)) by lia.
  unfold Z.succ in H. lia.
Qed.

(** A result in the normal range and below the overflow threshold is a
    finite nonzero double of the sign that was asked for. *)
Lemma binary_round_aux_finite sx p e l :
  let d := Z.log2 (Zpos p) + 1 in
  -1074 <= d + e - 53 -> d + e <= 1023 -> e <= 970 ->
  exists m' e', binary_round_aux prec emax sx (Zpos p) e l
                = S754_finite sx m' e'.
Proof.
  intros d Hlo Hhi He. unfold binary_round_aux.
  destruct (log2_digits_bounds p) as (Hd1 & Hp). fold d in Hd1, Hp.
  pose proof (shr_fexp_spec p e l Hlo) as H1. cbv zeta in H1. fold d in H1.
  destruct (shr_fexp prec emax (Zpos p) e l) as [mrs' e1].
  simpl fst in H1; simpl snd in H1.
  pose proof (round_nearest_even_bounds (shr_m mrs')
                (loc_of_shr_record mrs')) as Hr.
  set (q := round_nearest_even (shr_m mrs') (loc_of_shr_record mrs')) in *.
  assert (Hq : 0 < q /\ -1074 <= Z.log2 q + 1 + e1 - 53
               /\ e1 <= 970 /\ (53 < d -> q <= 2 ^ 53)
               /\ (d <= 53 -> q <= 2 ^ 53 /\ e1 = e)).
  { destruct H1 as [(Hd & Hm & He1)|(Hd & Hm & He1)].
    - rewrite Hm, shr_record_of_loc_m in Hr. subst e1.
      assert (Z.log2 (Zpos p) <= Z.log2 q) by (apply Z.log2_le_mono; lia).
      repeat split; try lia.
      assert (2 ^ d <= 2 ^ 53) by (apply Z.pow_le_mono_r; lia). lia.
    - assert (Hpow : 2 ^ d = 2 ^ 53 * 2 ^ (d - 53)).
      { rewrite <- Z.pow_add_r by lia. f_equal. lia. }
      assert (Hpow' : 2 ^ (d - 1) = 2 ^ 52 * 2 ^ (d - 53)).
      { rewrite <- Z.pow_add_r by lia. f_equal. lia. }
      assert (H0 : 0 < 2 ^ (d - 53)) by (apply Z.pow_pos_nonneg; lia).
      assert (Hm1 : 2 ^ 52 <= shr_m mrs' < 2 ^ 53).
      { rewrite Hm. split.
        - apply Z.div_le_lower_bound; [lia|]. rewrite Z.mul_comm. lia.
        - apply Z.div_lt_upper_bound; [lia|]. rewrite Z.mul_comm. lia. }
      assert (52 <= Z.log2 q).
      { apply Z.log2_le_pow2; lia. }
      repeat split; try lia. }
  destruct Hq as (Hq0 & Hq1 & He1 & Hq2 & Hq3).
  destruct q as [|q|q]; try lia.
  pose proof (shr_fexp_spec q e1 loc_Exact Hq1) as H2. cbv zeta in H2.
  destruct (log2_digits_bounds q) as (Hdq & Hqb).
  set (dq := Z.log2 (Zpos q) + 1) in *.
  assert (Hq53 : Zpos q <= 2 ^ 53).
  { destruct (Z.le_gt_cases d 53); [now apply Hq3|apply Hq2; lia]. }
  assert (Hdq54 : dq <= 54).
  { subst dq. enough (Z.log2 (Zpos q) < 54) by lia.
    apply Z.log2_lt_pow2; [lia|].
    assert (2 ^ 53 < 2 ^ 54) by (apply Z.pow_lt_mono_r; lia). lia. }
  destruct (shr_fexp prec emax (Zpos q) e1 loc_Exact) as [mrs'' e2].
  simpl fst in H2; simpl snd in H2.
  assert (Hfin : 0 < shr_m mrs'' /\ e2 <= 971).
  { destruct H2 as [(Hd & Hm & He2)|(Hd & Hm & He2)].
    - rewrite Hm. simpl. lia.
    - assert (Hpow' : 2 ^ (dq - 1) = 2 ^ 52 * 2 ^ (dq - 53)).
      { rewrite <- Z.pow_add_r by lia. f_equal. lia. }
      assert (H0 : 0 < 2 ^ (dq - 53)) by (apply Z.pow_pos_nonneg; lia).
      assert (2 ^ 52 <= shr_m mrs'').
      { rewrite Hm. apply Z.div_le_lower_bound; [lia|].
        rewrite Z.mul_comm. lia. }
      assert (0 < 2 ^ 52) by (apply Z.pow_pos_nonneg; lia).
      lia. }
  destruct Hfin as (Hm & He2).
  destruct (shr_m mrs'') as [|m|m]; try lia.
  replace (e2 <=? emax - prec) with true
    by (symmetry; apply Z.leb_le; change (emax - prec) with 971; lia).
  eauto.
Qed.


Lemma SFsigned_nonneg x : SFsigned false x -> SFnonneg x.
Proof. destruct x; simpl; auto. Qed.

Lemma SFadd_nonneg x y :
  SFnonneg x -> SFnonneg y -> SFnonneg (SF64add x y).
Proof.
  destruct x as [sx|sx| |sx mx ex], y as [sy|sy| |sy my ey]; simpl;
    intros Hx Hy; subst; try tauto; try reflexivity.
  - destruct sx, sy; exact I.
  - unfold SF64add, SFadd. cbn [cond_Zopp].
    change (Z.pos ?a + Z.pos ?b) with (Z.pos (a + b)).
    cbn [binary_normalize].
    pose proof (binary_round_signed false
                  (fst (shl_align mx ex (Z.min ex ey))
                   + fst (shl_align my ey (Z.min ex ey)))
                  (Z.min ex ey)) as H.
    destruct (binary_round _ _ _ _ _); simpl in *; auto.
Qed.

Lemma SFadd_plus x y :
  SFsigned false x -> SFposfin y -> SFsigned false (SF64add x y).
Proof.
  destruct x as [sx|sx| |sx mx ex], y as [sy|sy| |sy my ey]; simpl;
    intros Hx Hy; subst; try tauto; try reflexivity.
  unfold SF64add, SFadd. cbn [cond_Zopp].
  change (Z.pos ?a + Z.pos ?b) with (Z.pos (a + b)).
  cbn [binary_normalize].
  apply binary_round_signed.
Qed.

Lemma div_eucl_nonneg a b : 0 <= a -> 0 < b -> 0 <= fst (Z.div_eucl a b).
Proof.
  intros Ha Hb. pose proof (Z.div_pos a b Ha Hb) as H.
  unfold Z.div in H. destruct (Z.div_eucl a b). exact H.
Qed.

Lemma SFdiv_plus x y :
  SFposfin x -> SFsigned false y -> SFsigned false (SF64div x y).
Proof.
  destruct x as [sx|sx| |sx mx ex], y as [sy|sy| |sy my ey]; simpl;
    intros Hx Hy; subst; try tauto; try reflexivity.
  unfold SF64div, SFdiv, SFdiv_core_binary.
  match goal with
  | |- context [Z.div_eucl ?a ?b] =>
      assert (Hq : 0 <= fst (Z.div_eucl a b));
      [apply div_eucl_nonneg; [|lia]|destruct (Z.div_eucl a b) as [q r]]
  end.
  - match goal with
    | |- 0 <= match ?s with _ => _ end => destruct s eqn:Es; try lia
    end.
    apply Z.shiftl_nonneg. lia.
  - simpl in Hq.
    apply (binary_round_aux_signed (xorb false false)). exact Hq.
Qed.

Lemma ofCount_plus n : SFsigned false (Prim2SF (ofCount n)).
Proof.
  unfold ofCount. rewrite of_uint63_spec.
  pose proof (Uint63.to_Z_bounded (Uint63.of_Z n)) as Hb.
  destruct (Uint63.to_Z (Uint63.of_Z n)) as [|p|p]; [reflexivity| |lia].
  apply binary_round_signed.
Qed.

Lemma iter_xO p d : Zpos (Pos.iter xO p d) = Zpos p * 2 ^ Zpos d.
Proof.
  induction d as [|d IH] using Pos.peano_ind.
  - simpl. lia.
  - rewrite Pos.iter_succ, Pos2Z.inj_xO, IH, Pos2Z.inj_succ.
    rewrite Z.pow_succ_r by lia. lia.
Qed.

(** [1 - w] for a weight [w] that is not above [0.3]: a finite positive
    double. *)
Lemma one_minus_weight_finite m e :
  valid_binary (S754_finite false m e) = true ->
  SFltb (S754_finite false 5404319552844595 (-54)) (S754_finite false m e)
  = false ->
  SFposfin (SF64sub (S754_finite false 4503599627370496 (-52))
                    (S754_finite false m e)).
Proof.
  intros Hvalid Hlt.
  assert (He : e <= -54).
  { unfold SFltb, SFcompare in Hlt.
    destruct (Z.compare_spec (-54) e); try lia; discriminate. }
  assert (Hm : Zpos m < 2 ^ 53 /\ -1074 <= e).
  { simpl in Hvalid. apply andb_true_iff in Hvalid.
    destruct Hvalid as (Hc & _). unfold canonical_mantissa in Hc.
    apply Z.eqb_eq in Hc. rewrite fexp_eq, digits2_log2 in Hc.
    destruct (log2_digits_bounds m) as (_ & _ & Hb).
    split; [|lia].
    assert (2 ^ (Z.log2 (Zpos m) + 1) <= 2 ^ 53)
      by (apply Z.pow_le_mono_r; lia).
    lia. }
  destruct Hm as (Hm & Hemin).
  unfold SF64sub, SFsub. rewrite Z.min_r by lia.
  unfold shl_align at 2. rewrite Z.sub_diag. cbn [fst].
  unfold shl_align.
  destruct (e - -52) as [|d|d] eqn:Ed; try lia. cbn [fst cond_Zopp].
  assert (Hd : 2 <= Zpos d) by lia.
  pose proof (iter_xO 4503599627370496 d) as Ha.
  set (a := Pos.iter xO 4503599627370496%positive d) in *.
  change (Zpos 4503599627370496) with (2 ^ 52) in Ha.
  rewrite <- Z.pow_add_r in Ha by lia.
  assert (H54 : 2 ^ 53 * 2 <= 2 ^ (52 + Zpos d)).
  { change (2 ^ 53 * 2) with (2 ^ 54). apply Z.pow_le_mono_r; lia. }
  assert (Hhalf : 2 ^ (52 + Zpos d) = 2 * 2 ^ (51 + Zpos d)).
  { rewrite <- Z.pow_succ_r by lia. f_equal. lia. }
  destruct (Zpos a - Zpos m) as [|k|k] eqn:Ek; try lia.
  cbn [binary_normalize]. unfold binary_round.
  assert (Hlog : Z.log2 (Zpos k) = 51 + Zpos d).
  { apply Z.log2_unique; [lia|].
    replace (Z.succ (51 + Zpos d)) with (52 + Zpos d) by lia.
    clearbody a. lia. }
  rewrite digits2_log2, Hlog, fexp_eq.
  replace (51 + Zpos d + 1 + e) with 0 by lia.
  change (Z.max (0 - 53) (-1074)) with (-53).
  unfold shl_align.
  destruct (-53 - e) as [|s|s] eqn:Es; try lia.
  pose proof (binary_round_aux_finite false k e loc_Exact) as Hfin.
  cbv zeta in Hfin. rewrite Hlog in Hfin.
  destruct Hfin as (m' & e' & Hr); try lia.
  rewrite Hr. reflexivity.
Qed.


Lemma leb_zero_spec x : (0 <=? x)%float = true <-> SFnonneg (Prim2SF x).
Proof.
  rewrite FloatAxioms.leb_spec. change (Prim2SF 0) with (S754_zero false).
  destruct (Prim2SF x) as [s|[|]| |[|] m e]; simpl;
    (split; [intros H; try discriminate H; auto|intros H; try discriminate H;
             try contradiction; auto]).
Qed.

Lemma leb_finite_spec x y :
  SFfinite (Prim2SF y) -> (x <=? y)%float = true ->
  Prim2SF x <> S754_infinity false.
Proof.
  rewrite FloatAxioms.leb_spec. intros Hy H E. rewrite E in H.
  destruct (Prim2SF y) as [s|s| |s m e]; simpl in *; try tauto;
    discriminate.
Qed.

Lemma SFeqb_refl x : x <> S754_nan -> SFeqb x x = true.
Proof.
  unfold SFeqb, SFcompare.
  destruct x as [s|[|]| |[|] m e]; intros H; try reflexivity;
    try congruence;
    rewrite Z.compare_refl, Pos.compare_cont_refl; reflexivity.
Qed.

Lemma is_nan_false x : Prim2SF x <> S754_nan -> is_nan x = false.
Proof.
  intros H. unfold is_nan. rewrite FloatAxioms.eqb_spec, SFeqb_refl by assumption.
  reflexivity.
Qed.

Lemma SFsigned_not_nan x : SFsigned false x -> x <> S754_nan.
Proof. destruct x; simpl; congruence. Qed.

(** The weight of an update: [+0], or a finite positive double that is not
    above [0.3]. *)
Lemma weight_spec n :
  let w := Math_min64 0x1.3333333333333p-2%float (1 / (ofCount n + 1))%float in
  SFsigned false (Prim2SF w)
  /\ (0x1.3333333333333p-2 <? w)%float = false.
Proof.
  set (b := (1 / (ofCount n + 1))%float).
  assert (Hb : SFsigned false (Prim2SF b)).
  { subst b. rewrite FloatAxioms.div_spec, FloatAxioms.add_spec.
    apply SFdiv_plus; [reflexivity|].
    apply SFadd_plus; [apply ofCount_plus|reflexivity]. }
  cbv zeta. unfold Math_min64.
  change (is_nan 0x1.3333333333333p-2) with false. cbv iota.
  rewrite (is_nan_false b) by now apply SFsigned_not_nan.
  destruct (0x1.3333333333333p-2 <? b)%float eqn:E1.
  - split; reflexivity.
  - destruct (b <? 0x1.3333333333333p-2)%float eqn:E2.
    + split; assumption.
    + change (1 / 0x1.3333333333333p-2 <? 0)%float with false. cbv iota.
      split; assumption.
Qed.

Lemma one_minus_weight w :
  SFsigned false (Prim2SF w) ->
  (0x1.3333333333333p-2 <? w)%float = false ->
  SFposfin (Prim2SF (1 - w)%float).
Proof.
  intros Hw Hlt. rewrite FloatAxioms.sub_spec. rewrite FloatAxioms.ltb_spec in Hlt.
  pose proof (Prim2SF_valid w) as Hv.
  change (Prim2SF 1) with (S754_finite false 4503599627370496 (-52)).
  change (Prim2SF 0x1.3333333333333p-2)
    with (S754_finite false 5404319552844595 (-54)) in Hlt.
  destruct (Prim2SF w) as [s|s| |s m e]; simpl in Hw; subst;
    try contradiction.
  - reflexivity.
  - discriminate.
  - now apply one_minus_weight_finite.
Qed.

Lemma weight_finite w :
  SFsigned false (Prim2SF w) ->
  (0x1.3333333333333p-2 <? w)%float = false ->
  SFfinite (Prim2SF w).
Proof.
  intros Hw Hlt. rewrite FloatAxioms.ltb_spec in Hlt.
  change (Prim2SF 0x1.3333333333333p-2)
    with (S754_finite false 5404319552844595 (-54)) in Hlt.
  destruct (Prim2SF w) as [s|s| |s m e]; simpl in *; subst;
    try contradiction; try exact I.
  discriminate.
Qed.

Lemma SFposfin_nonneg x : SFposfin x -> SFnonneg x.
Proof. destruct x; simpl; auto; contradiction. Qed.

Lemma SFposfin_finite x : SFposfin x -> SFfinite x.
Proof. destruct x; simpl; auto; contradiction. Qed.

Lemma SFnonneg_not_inf_finite x :
  SFnonneg x -> x <> S754_infinity false -> SFfinite x.
Proof. destruct x as [s|s| |s m e]; simpl; intros; subst; auto; congruence. Qed.

(** The update never stores a negative score or NaN: for a stored score
    and a new score that are not negative, the new one finite, the double
    that [calculateUpdatedEffectiveness] returns is not negative. *)
Lemma calculateUpdatedEffectiveness64_nonneg cur new n hi :
  (0 <=? cur)%float = true ->
  (0 <=? new)%float = true ->
  (new <=? hi)%float = true -> SFfinite (Prim2SF hi) ->
  (0 <=? calculateUpdatedEffectiveness64 cur new (ofCount n))%float = true.
Proof.
  intros Hcur Hnew Hhi Hfin. unfold calculateUpdatedEffectiveness64.
  destruct (weight_spec n) as (Hw & Hlt).
  set (w := Math_min64 _ _) in *. cbv zeta.
  apply leb_zero_spec in Hcur. apply leb_zero_spec in Hnew.
  apply leb_zero_spec. rewrite FloatAxioms.add_spec, !FloatAxioms.mul_spec.
  pose proof (one_minus_weight w Hw Hlt) as H1.
  pose proof (weight_finite w Hw Hlt) as Hwf.
  apply SFadd_nonneg.
  - apply SFmul_nonneg.
    + exact Hcur.
    + now apply SFposfin_nonneg.
    + right. exact H1.
    + left. now apply SFposfin_finite.
  - apply SFmul_nonneg.
    + exact Hnew.
    + now apply SFsigned_nonneg.
    + left. apply SFnonneg_not_inf_finite; [assumption|].
      now apply (leb_finite_spec new hi).
    + left. exact Hwf.
Qed.

Lemma validScore64_finite (s : float) :
  validScore64 s -> SFfinite (Prim2SF s) /\ SFnonneg (Prim2SF s).
Proof.
  intros [H0 H100]. apply leb_zero_spec in H0. split; [|exact H0].
  apply SFnonneg_not_inf_finite; [exact H0|].
  now apply (leb_finite_spec s 100).
Qed.
End Doubles.

(** *** The store of doubles *)

Lemma Map_set64_values (P : Stored64.t -> Prop) (k : jsstring)
      (v : Stored64.t) (st : Store64) :
  Forall P (map snd st) -> P v -> Forall P (map snd (Map_set64 k v st)).
Proof.
  intros Hst Hv. induction st as [|[k' v'] st IH]; simpl.
  - constructor; [exact Hv|constructor].
  - inversion Hst as [|? ? Hv' Hrest]; subst.
    destruct (streq k' k); simpl; constructor; auto.
Qed.

Lemma Map_get64_In (k : jsstring) (v : Stored64.t) (st : Store64) :
  Map_get64 k st = Some v -> In v (map snd st).
Proof.
  induction st as [|[k' v'] st IH]; simpl; [discriminate|].
  destruct (streq k' k); [|auto]. intros [= ->]. now left.
Qed.

Lemma Map_get64_set_same (k : jsstring) (v : Stored64.t) (st : Store64) :
  Map_get64 k (Map_set64 k v st) = Some v.
Proof.
  induction st as [|[k' v'] st IH]; simpl.
  - now rewrite streq_refl.
  - destruct (streq k' k) eqn:E; simpl; rewrite E; [reflexivity|exact IH].
Qed.

Lemma storedOk64_learnFromPost64 (id : jsstring) (s : float)
      (st : Store64) :
  validScore64 s ->
  Forall storedOk64 (map snd st) ->
  Forall storedOk64 (map snd (learnFromPost64 id s st)).
Proof.
  intros Hs Hst. unfold learnFromPost64.
  destruct (Map_get64 id st) as [existing|] eqn:E.
  - apply Map_set64_values; [exact Hst|].
    apply Map_get64_In in E. rewrite Forall_forall in Hst.
    destruct (Hst _ E) as [Hcur Hn]. destruct Hs as [H0 H100].
    split; cbn [Stored64.effectivenessScore Stored64.usageCount]; [|lia].
    apply (calculateUpdatedEffectiveness64_nonneg _ _ _ 100);
      [exact Hcur|exact H0|exact H100|exact I].
  - apply Map_set64_values; [exact Hst|].
    destruct Hs as [H0 _]. split; simpl; [exact H0|lia].
Qed.

Lemma storedOk64_learnAll64 (calls : list (jsstring * float))
      (st : Store64) :
  Forall (fun c => validScore64 (snd c)) calls ->
  Forall storedOk64 (map snd st) ->
  Forall storedOk64 (map snd (learnAll64 calls st)).
Proof.
  intros Hcalls. unfold learnAll64. revert st.
  induction Hcalls as [|c calls Hc _ IH]; intros st Hst; simpl;
    [exact Hst|].
  apply IH. now apply storedOk64_learnFromPost64.
Qed.

Lemma ofCount_valid (z : Z) :
  (0 <= z <= 100)%Z -> validScore64 (ofCount z).
Proof.
  intros Hz.
  assert (Hall : forallb (fun n => ((0 <=? ofCount (Z.of_nat n))%float
                                    && (ofCount (Z.of_nat n) <=? 100)%float))
                         (seq 0 101) = true) by (vm_compute; reflexivity).
  rewrite forallb_forall in Hall.
  specialize (Hall (Z.to_nat z)). rewrite Z2Nat.id in Hall by lia.
  apply andb_true_iff. apply Hall. apply in_seq. lia.
Qed.

Section Calls64Properties.
Context {CM : CaseMapping}.

Lemma call64_valid (now : jsstring) (post : ViralPost.t) :
  validScore64 (snd (call64 now post)).
Proof.
  unfold call64, learnedScore, usedAnalysis, scoreAsDouble. cbn [snd orElse].
  unfold analyzePost; cbn [AnalysisResult.viralityScore].
  set (parsed := parsePostContent (ViralPost.content post)).
  destruct (detectHookType_confidence parsed) as [Hh _].
  destruct (detectBodyType_confidence parsed) as [Hb _].
  destruct (detectCTAType_confidence parsed) as [Hc _].
  destruct (calculateViralityScore_bounds post parsed
              (identifyFormatPattern parsed (ViralPost.platform post))
              (extractViralSignals parsed (ViralPost.platform post))
              Hh Hb Hc) as (_ & _ & _ & z & -> & Hz).
  unfold ofZ. rewrite Qfloor_Z. now apply ofCount_valid.
Qed.

(** The ids and the usage counts of the doubles are those of the store. *)
Lemma keyCounts_get (k : jsstring) (st : Store) (st64 : Store64) :
  keyCounts st = keyCounts64 st64 ->
  option_map FormatPattern.usageCount (Map_get k st)
  = option_map Stored64.usageCount (Map_get64 k st64).
Proof.
  revert st64. induction st as [|[k1 v1] st IH]; intros [|[k2 v2] st64];
    simpl; try discriminate; [reflexivity|].
  intros [= -> Hn Hrest]. destruct (streq k2 k); simpl; [now rewrite Hn|].
  now apply IH.
Qed.

Lemma keyCounts_set (k : jsstring) (v : FormatPattern.t) (v64 : Stored64.t)
      (st : Store) (st64 : Store64) :
  keyCounts st = keyCounts64 st64 ->
  FormatPattern.usageCount v = Stored64.usageCount v64 ->
  keyCounts (Map_set k v st) = keyCounts64 (Map_set64 k v64 st64).
Proof.
  intros Hst Hv. revert st64 Hst.
  induction st as [|[k1 v1] st IH]; intros [|[k2 v2] st64];
    simpl; try discriminate.
  - intros _. now rewrite Hv.
  - intros [= -> Hn Hrest]. destruct (streq k2 k); simpl.
    + now rewrite Hv, Hrest.
    + rewrite Hn. f_equal. now apply IH.
Qed.

Lemma keyCounts_learnFromPost (now : jsstring) (post : ViralPost.t)
      (analysisResult : option AnalysisResult.t) (s : float)
      (st : Store) (st64 : Store64) :
  keyCounts st = keyCounts64 st64 ->
  keyCounts (snd (learnFromPost now post analysisResult st))
  = keyCounts64
      (learnFromPost64 (learnedId now post analysisResult) s st64).
Proof.
  intros Hst. unfold learnFromPost, learnFromPost64, learnedId, usedAnalysis.
  pose proof (@keyCounts_get
                (generateFormatId
                   (AnalysisResult.formatPattern
                      (orElse analysisResult (analyzePost now post)))
                   (ViralPost.platform post)) st st64 Hst) as Hget.
  destruct (Map_get _ st) as [existing|], (Map_get64 _ st64) as [existing64|];
    simpl in Hget; try discriminate; cbn [snd].
  - apply keyCounts_set; [exact Hst|]. simpl. congruence.
  - apply keyCounts_set; [exact Hst|]. reflexivity.
Qed.

Lemma keyCounts_batchLearn (now : jsstring) (posts : list ViralPost.t)
      (st : Store) (st64 : Store64) :
  keyCounts st = keyCounts64 st64 ->
  keyCounts (snd (batchLearn now posts st))
  = keyCounts64 (batchLearn64 now posts st64).
Proof.
  unfold batchLearn64, learnAll64. revert st st64.
  induction posts as [|post posts IH]; intros st st64 Hst; [exact Hst|].
  cbn [batchLearn map fold_left].
  pose proof (@keyCounts_learnFromPost now post None
                (snd (call64 now post)) st st64 Hst) as H1.
  destruct (learnFromPost now post None st) as [f st1]. cbn [snd] in H1.
  specialize (IH st1 _ H1).
  destruct (batchLearn now posts st1) as [fs st2]. exact IH.
Qed.
End Calls64Properties.

(** C9, as stated, fails on the doubles of the code. The analyzer scores
    [viralPost] 100. A [batchLearn] of 127 copies of it, from the seeded
    store, creates a format with score 100 and updates it 126 times with
    the score 100: the stored [effectivenessScore] ends at
    [100.00000000000001], above 100. (After the first twelve of these
    learns it is [99.999999999999986], below every score that was
    learned.) *)
Lemma repeated_learning_exceeds_100 :
  ~ Forall inBounds64
      (map snd (batchLearn64 sampleNow (repeat viralPost 127)
                             initialStore64)).
Proof.
  unfold batchLearn64. rewrite map_repeat.
  assert (Hcall : call64 sampleNow viralPost
                  = (str "twitter-bold-statement-listicle-question-to-audience",
                     100%float))
    by (vm_compute; reflexivity).
  rewrite Hcall. intros Hall.
  assert (Hin : In {| Stored64.effectivenessScore := 0x1.9000000000001p+6;
                      Stored64.usageCount := 127 |}
                   (map snd
                      (learnAll64
                         (repeat
                            (str "twitter-bold-statement-listicle-question-to-audience",
                             100%float) 127)
                         initialStore64)))
    by (vm_compute; do 3 right; left; reflexivity).
  rewrite Forall_forall in Hall.
  destruct (Hall _ Hin) as (_ & Hhi & _).
  vm_compute in Hhi. discriminate Hhi.
Qed.

(** C9, amended. Starting from the seeded store, after any sequence of
    learns whose virality scores lie in [0, 100], every stored format has
    an [effectivenessScore] that is not negative (and not NaN) and a
    [usageCount] of at least 1, on the doubles of the code. The score that
    [learnFromPost(post)] and [batchLearn] compute lies in [0, 100], so a
    [batchLearn] after such a sequence keeps the invariant; a newly
    created format takes the score of the call with usageCount 1; an update
    stores [calculateUpdatedEffectiveness] of the stored score and the new
    one, rounded as the code rounds it, and increments usageCount; and the
    ids and usage counts are those of the store of [batchLearn]. No upper
    bound is stated: the update is not clamped, and its rounding can carry
    the score above 100. *)
Theorem learning_keeps_scores_nonnegative `{CaseMapping}
        (calls : list (jsstring * float)) :
  Forall (fun c => validScore64 (snd c)) calls ->
  Forall storedOk64 (map snd (learnAll64 calls initialStore64))
  /\ (forall now post, validScore64 (snd (call64 now post)))
  /\ (forall now posts,
         Forall storedOk64
                (map snd (batchLearn64 now posts
                                       (learnAll64 calls initialStore64))))
  /\ (forall id s st,
         Map_get64 id st = None ->
         Map_get64 id (learnFromPost64 id s st)
         = Some {| Stored64.effectivenessScore := s;
                   Stored64.usageCount := 1 |})
  /\ (forall id s st existing,
         Map_get64 id st = Some existing ->
         Map_get64 id (learnFromPost64 id s st)
         = Some {| Stored64.effectivenessScore :=
                     calculateUpdatedEffectiveness64
                       (Stored64.effectivenessScore existing) s
                       (ofCount (Stored64.usageCount existing));
                   Stored64.usageCount :=
                     (Stored64.usageCount existing + 1)%Z |})
  /\ (forall now now' posts,
         keyCounts (snd (batchLearn now posts (initialStore now')))
         = keyCounts64 (batchLearn64 now posts initialStore64)).
Proof.
  intros Hcalls.
  assert (Hstored : Forall storedOk64
                           (map snd (learnAll64 calls initialStore64))).
  { apply storedOk64_learnAll64; [exact Hcalls|].
    repeat constructor; vm_compute; discriminate. }
  split; [exact Hstored|]. split; [|split; [|split; [|split]]].
  - apply call64_valid.
  - intros now posts. unfold batchLearn64.
    apply storedOk64_learnAll64; [|exact Hstored].
    apply Forall_forall. intros c Hc. apply in_map_iff in Hc.
    destruct Hc as (post & <- & _). apply call64_valid.
  - intros id s st Hget. unfold learnFromPost64. rewrite Hget.
    apply Map_get64_set_same.
  - intros id s st existing Hget. unfold learnFromPost64. rewrite Hget.
    apply Map_get64_set_same.
  - intros now now' posts. apply keyCounts_batchLearn. reflexivity.
Qed.

Lemma learning_keeps_scores_nonnegative_witness :
  Forall storedOk64
         (map snd
            (learnAll64
               (map (call64 sampleNow)
                    [ viralPost; samplePost linkedin scenario1; viralPost;
                      samplePost twitter statisticLine; viralPost ])
               initialStore64)).
Proof.
  refine (proj1 (@learning_keeps_scores_nonnegative asciiCase _ _)).
  repeat constructor; vm_compute; reflexivity.
Defined.

(** * Further properties *)

(** ** Lookup, update and removal *)

Lemma Map_get_set_other (k k' : jsstring) (v : FormatPattern.t) (st : Store) :
  k' <> k -> Map_get k' (Map_set k v st) = Map_get k' st.
Proof.
  intros Hne. induction st as [|[k0 v0] st IH]; simpl.
  - apply streq_neq in Hne. destruct (streq k k') eqn:E; [|reflexivity].
    apply streq_eq in E. subst. now rewrite streq_refl in Hne.
  - destruct (streq k0 k) eqn:E; simpl.
    + apply streq_eq in E. subst k0.
      destruct (streq k k') eqn:E'; [|reflexivity].
      apply streq_eq in E'. subst. contradiction.
    + now rewrite IH.
Qed.

Lemma Map_set_length (k : jsstring) (v : FormatPattern.t) (st : Store) :
  length (Map_set k v st)
  = match Map_get k st with
    | Some _ => length st
    | None => S (length st)
    end.
Proof.
  induction st as [|[k0 v0] st IH]; simpl; [reflexivity|].
  destruct (streq k0 k); simpl; [reflexivity|].
  rewrite IH. now destruct (Map_get k st).
Qed.

Lemma Map_delete_present (k : jsstring) (v : FormatPattern.t) (st : Store) :
  NoDup (map fst st) -> Map_get k st = Some v ->
  fst (Map_delete k st) = true
  /\ Map_get k (snd (Map_delete k st)) = None
  /\ (forall k', k' <> k ->
                 Map_get k' (snd (Map_delete k st)) = Map_get k' st)
  /\ S (length (snd (Map_delete k st))) = length st.
Proof.
  induction st as [|[k0 v0] st IH]; simpl; [discriminate|].
  intros Hnd Hget. inversion Hnd as [|? ? Hnotin Hnd']; subst.
  destruct (streq k0 k) eqn:E.
  - apply streq_eq in E. subst k0. simpl.
    repeat split.
    + now apply Map_get_None_keys.
    + intros k' Hne. destruct (streq k k') eqn:E'; [|reflexivity].
      apply streq_eq in E'. subst. contradiction.
  - destruct (IH Hnd' Hget) as (Hf & Hnone & Hother & Hlen).
    destruct (Map_delete k st) as [found t'] eqn:Ed. simpl in *.
    rewrite E. repeat split; auto.
    intros k' Hne. destruct (streq k0 k'); auto.
Qed.

(** X1. [updateFormat] on a stored id returns the updated format: it keeps
    the id and [createdAt] of the stored one, its [updatedAt] is the clock
    reading (an [updatedAt] among the updates is overridden), every field
    takes the update's value when there is one and the stored value
    otherwise (shown for [effectivenessScore] and [usageCount]); afterwards
    the id maps to the updated format, the keys of the store and their order
    are the same, and every other id maps to what it did. *)
Theorem updateFormat_stored_id (now id : jsstring)
        (updates : FormatUpdates.t) (st : Store)
        (existing : FormatPattern.t) :
  getFormatById id st = Some existing ->
  exists updated,
    fst (updateFormat now id updates st) = Some updated
    /\ FormatPattern.id updated = FormatPattern.id existing
    /\ FormatPattern.createdAt updated = FormatPattern.createdAt existing
    /\ FormatPattern.updatedAt updated = now
    /\ FormatPattern.effectivenessScore updated
       = orElse (FormatUpdates.effectivenessScore updates)
                (FormatPattern.effectivenessScore existing)
    /\ FormatPattern.usageCount updated
       = orElse (FormatUpdates.usageCount updates)
                (FormatPattern.usageCount existing)
    /\ getFormatById id (snd (updateFormat now id updates st)) = Some updated
    /\ map fst (snd (updateFormat now id updates st)) = map fst st
    /\ (forall id', id' <> id ->
           getFormatById id' (snd (updateFormat now id updates st))
           = getFormatById id' st).
Proof.
  unfold getFormatById, updateFormat. intros Hget. rewrite Hget.
  eexists. split; [reflexivity|]. simpl.
  repeat split.
  - apply Map_get_set_same.
  - now apply Map_set_keys_present with (v0 := existing).
  - intros id' Hne. now apply Map_get_set_other.
Qed.

Lemma updateFormat_stored_id_witness :
  exists updated,
    fst (updateFormat sampleNow (str "linkedin-story-lesson") noUpdates
                      (initialStore sampleNow))
    = Some updated
    /\ FormatPattern.id updated = FormatPattern.id (storyLessonSeed sampleNow)
    /\ FormatPattern.createdAt updated
       = FormatPattern.createdAt (storyLessonSeed sampleNow)
    /\ FormatPattern.updatedAt updated = sampleNow
    /\ FormatPattern.effectivenessScore updated
       = orElse (FormatUpdates.effectivenessScore noUpdates)
                (FormatPattern.effectivenessScore (storyLessonSeed sampleNow))
    /\ FormatPattern.usageCount updated
       = orElse (FormatUpdates.usageCount noUpdates)
                (FormatPattern.usageCount (storyLessonSeed sampleNow))
    /\ getFormatById (str "linkedin-story-lesson")
                     (snd (updateFormat sampleNow (str "linkedin-story-lesson")
                                        noUpdates (initialStore sampleNow)))
       = Some updated
    /\ map fst (snd (updateFormat sampleNow (str "linkedin-story-lesson")
                                  noUpdates (initialStore sampleNow)))
       = map fst (initialStore sampleNow)
    /\ (forall id', id' <> str "linkedin-story-lesson" ->
           getFormatById id'
             (snd (updateFormat sampleNow (str "linkedin-story-lesson")
                                noUpdates (initialStore sampleNow)))
           = getFormatById id' (initialStore sampleNow)).
Proof.
  apply (@updateFormat_stored_id sampleNow
           (str "linkedin-story-lesson") noUpdates (initialStore sampleNow)
           (storyLessonSeed sampleNow)).
  vm_compute. reflexivity.
Defined.

(** X2. In a reachable store, [deleteFormat] on a stored id returns true;
    afterwards the id is not found, every other id maps to what it did, and
    the store has one entry less. *)
Theorem deleteFormat_stored_id `{CaseMapping} (id : jsstring) (st : Store)
        (existing : FormatPattern.t) :
  reachable st ->
  getFormatById id st = Some existing ->
  fst (deleteFormat id st) = true
  /\ getFormatById id (snd (deleteFormat id st)) = None
  /\ (forall id', id' <> id ->
         getFormatById id' (snd (deleteFormat id st))
         = getFormatById id' st)
  /\ S (length (snd (deleteFormat id st))) = length st.
Proof.
  intros Hreach Hget.
  destruct (reachable_keyedById Hreach) as [_ Hnd].
  unfold getFormatById, deleteFormat in *.
  now apply Map_delete_present with (v := existing).
Qed.

Lemma deleteFormat_stored_id_witness :
  fst (deleteFormat (str "linkedin-story-lesson") (initialStore sampleNow))
  = true
  /\ getFormatById (str "linkedin-story-lesson")
       (snd (deleteFormat (str "linkedin-story-lesson")
                          (initialStore sampleNow))) = None
  /\ (forall id', id' <> str "linkedin-story-lesson" ->
         getFormatById id'
           (snd (deleteFormat (str "linkedin-story-lesson")
                              (initialStore sampleNow)))
         = getFormatById id' (initialStore sampleNow))
  /\ S (length (snd (deleteFormat (str "linkedin-story-lesson")
                                  (initialStore sampleNow))))
     = length (initialStore sampleNow).
Proof.
  apply (@deleteFormat_stored_id asciiCase (str "linkedin-story-lesson")
           (initialStore sampleNow) (storyLessonSeed sampleNow)).
  - apply reach_init.
  - vm_compute. reflexivity.
Defined.

(** ** Seeding *)

Lemma seedIds_now (now : jsstring) :
  map FormatPattern.id (defaultFormats now) = seedIds.
Proof. reflexivity. Qed.

Lemma Map_has_get (k : jsstring) (st : Store) :
  Map_has k st = true <-> exists v, Map_get k st = Some v.
Proof.
  unfold Map_has. destruct (Map_get k st) as [v|].
  - split; eauto.
  - split; [discriminate|]. intros [v Hv]. discriminate.
Qed.

Lemma Map_has_false (k : jsstring) (st : Store) :
  Map_has k st = false <-> Map_get k st = None.
Proof.
  unfold Map_has. destruct (Map_get k st); split; congruence.
Qed.

(** The loop of [initializeDefaultFormats], over any list of formats. *)
Lemma seed_keeps_existing (fs : list FormatPattern.t) (st : Store)
      (id : jsstring) (f : FormatPattern.t) :
  Map_get id st = Some f ->
  Map_get id
          (fold_left
             (fun st format =>
                if negb (Map_has (FormatPattern.id format) st)
                then Map_set (FormatPattern.id format) format st
                else st)
             fs st)
  = Some f.
Proof.
  revert st. induction fs as [|x fs IH]; simpl; intros st Hget; [exact Hget|].
  apply IH.
  destruct (Map_has (FormatPattern.id x) st) eqn:E; simpl; [exact Hget|].
  apply Map_has_false in E.
  rewrite Map_get_set_other; [exact Hget|].
  intros ->. congruence.
Qed.

Lemma seed_adds_missing (fs : list FormatPattern.t) (st : Store)
      (x : FormatPattern.t) :
  In x fs ->
  exists f,
    Map_get (FormatPattern.id x)
            (fold_left
               (fun st format =>
                  if negb (Map_has (FormatPattern.id format) st)
                  then Map_set (FormatPattern.id format) format st
                  else st)
               fs st)
    = Some f.
Proof.
  revert st. induction fs as [|y fs IH]; simpl; intros st; [intros []|].
  intros [->|Hin]; [|now apply IH].
  destruct (Map_has (FormatPattern.id x) st) eqn:E; simpl.
  - apply Map_has_get in E. destruct E as [v Hv]. exists v.
    now apply seed_keeps_existing.
  - exists x. apply seed_keeps_existing. apply Map_get_set_same.
Qed.

Lemma seed_other_ids (fs : list FormatPattern.t) (st : Store)
      (id : jsstring) :
  ~ In id (map FormatPattern.id fs) ->
  Map_get id
          (fold_left
             (fun st format =>
                if negb (Map_has (FormatPattern.id format) st)
                then Map_set (FormatPattern.id format) format st
                else st)
             fs st)
  = Map_get id st.
Proof.
  revert st. induction fs as [|y fs IH]; simpl; intros st Hnotin;
    [reflexivity|].
  rewrite IH by tauto.
  destruct (Map_has (FormatPattern.id y) st); simpl; [reflexivity|].
  apply Map_get_set_other. intros ->. tauto.
Qed.

Lemma seed_all_present (fs : list FormatPattern.t) (st : Store) :
  (forall x, In x fs -> Map_has (FormatPattern.id x) st = true) ->
  fold_left
    (fun st format =>
       if negb (Map_has (FormatPattern.id format) st)
       then Map_set (FormatPattern.id format) format st
       else st)
    fs st
  = st.
Proof.
  induction fs as [|y fs IH]; simpl; intros Hall; [reflexivity|].
  rewrite (Hall y) by auto. simpl. apply IH. auto.
Qed.

(** X3. [initializeDefaultFormats] only adds what is missing: a stored
    format is never overwritten, not even one stored under a seed id; the
    three seed ids are stored afterwards; no other id is touched; and a
    second call changes nothing. *)
Theorem initializeDefaultFormats_only_adds (now : jsstring) (st : Store) :
  (forall id f, getFormatById id st = Some f ->
                getFormatById id (initializeDefaultFormats now st) = Some f)
  /\ (forall id, In id seedIds ->
                 exists f,
                   getFormatById id (initializeDefaultFormats now st)
                   = Some f)
  /\ (forall id, ~ In id seedIds ->
                 getFormatById id (initializeDefaultFormats now st)
                 = getFormatById id st)
  /\ (forall now',
         initializeDefaultFormats now' (initializeDefaultFormats now st)
         = initializeDefaultFormats now st).
Proof.
  unfold getFormatById, initializeDefaultFormats.
  split; [|split; [|split]].
  - intros id f. apply seed_keeps_existing.
  - intros id Hin. rewrite <- (seedIds_now now) in Hin.
    apply in_map_iff in Hin. destruct Hin as (x & <- & Hx).
    now apply seed_adds_missing.
  - intros id Hnotin. apply seed_other_ids. now rewrite seedIds_now.
  - intros now'. apply seed_all_present. intros x Hx.
    apply Map_has_get.
    assert (Hin : In (FormatPattern.id x) seedIds).
    { rewrite <- (seedIds_now now'). now apply in_map. }
    rewrite <- (seedIds_now now) in Hin.
    apply in_map_iff in Hin. destruct Hin as (y & <- & Hy).
    now apply seed_adds_missing.
Qed.

(** ** Sorting *)

Lemma insertDesc_perm {A} (key : A -> Q) (x : A) (l : list A) :
  Permutation (insertDesc key x l) (x :: l).
Proof.
  induction l as [|y t IH]; simpl; [reflexivity|].
  destruct (Qltb (key x) (key y)); [|reflexivity].
  rewrite IH. apply perm_swap.
Qed.

Lemma sortDesc_perm {A} (key : A -> Q) (l : list A) :
  Permutation (sortDesc key l) l.
Proof.
  induction l as [|x t IH]; simpl; [reflexivity|].
  rewrite insertDesc_perm. now constructor.
Qed.

Lemma insertDesc_stable {A} (key : A -> Q) (q : Q) (x : A) (l : list A) :
  filter (fun y => Qeq_bool (key y) q) (insertDesc key x l)
  = filter (fun y => Qeq_bool (key y) q) (x :: l).
Proof.
  induction l as [|y t IH]; [reflexivity|].
  cbn [insertDesc].
  destruct (Qltb (key x) (key y)) eqn:E; [|reflexivity].
  cbn [filter] in *. rewrite IH.
  destruct (Qeq_bool (key x) q) eqn:Ex; [|reflexivity].
  destruct (Qeq_bool (key y) q) eqn:Ey; [|reflexivity].
  apply Qltb_lt in E. apply Qeq_bool_iff in Ex, Ey.
  rewrite Ex, Ey in E. exfalso. revert E. apply Qlt_irrefl.
Qed.

Lemma sortDesc_stable {A} (key : A -> Q) (q : Q) (l : list A) :
  filter (fun y => Qeq_bool (key y) q) (sortDesc key l)
  = filter (fun y => Qeq_bool (key y) q) l.
Proof.
  induction l as [|x t IH]; [reflexivity|].
  cbn [sortDesc fold_right]. rewrite insertDesc_stable.
  cbn [filter]. fold (sortDesc key t). now rewrite IH.
Qed.

(** X4. [getStoredFormats()] without a platform returns every stored format
    exactly once (a permutation of the stored values), and formats of equal
    effectiveness keep the order in which they are stored. *)
Theorem getStoredFormats_all_is_stable_permutation (st : Store) :
  Permutation (getStoredFormats None st) (Map_values st)
  /\ (forall q,
         filter (fun f => Qeq_bool (FormatPattern.effectivenessScore f) q)
                (getStoredFormats None st)
         = filter (fun f => Qeq_bool (FormatPattern.effectivenessScore f) q)
                  (Map_values st)).
Proof.
  unfold getStoredFormats. split.
  - apply sortDesc_perm.
  - intros q. apply sortDesc_stable.
Qed.
(** ** Import *)

Lemma importFormats_cons (now : jsstring) (f : FormatPattern.t)
      (fs : list FormatPattern.t) (s : MergeStrategy) (st : Store) :
  importFormats now (f :: fs) s st
  = importFormats now fs s (importFormats now [f] s st).
Proof. reflexivity. Qed.

Lemma importFormats_one_other (now : jsstring) (f : FormatPattern.t)
      (s : MergeStrategy) (st : Store) (id : jsstring) :
  id <> FormatPattern.id f ->
  Map_get id (importFormats now [f] s st) = Map_get id st.
Proof.
  intros Hne. unfold importFormats. simpl.
  destruct (Map_get (FormatPattern.id f) st); [destruct s|];
    try reflexivity; now apply Map_get_set_other.
Qed.

Lemma importFormats_other (now : jsstring) (fs : list FormatPattern.t)
      (s : MergeStrategy) (st : Store) (id : jsstring) :
  ~ In id (map FormatPattern.id fs) ->
  Map_get id (importFormats now fs s st) = Map_get id st.
Proof.
  revert st. induction fs as [|x fs IH]; intros st Hnotin; [reflexivity|].
  rewrite importFormats_cons, IH by (simpl in Hnotin; tauto).
  apply importFormats_one_other. simpl in Hnotin. intros ->. tauto.
Qed.

Lemma importFormats_one_same (now : jsstring) (f : FormatPattern.t)
      (s : MergeStrategy) (st st' : Store) :
  Map_get (FormatPattern.id f) st' = Map_get (FormatPattern.id f) st ->
  Map_get (FormatPattern.id f) (importFormats now [f] s st')
  = Map_get (FormatPattern.id f) (importFormats now [f] s st).
Proof.
  intros E. unfold importFormats. simpl. rewrite E.
  destruct (Map_get (FormatPattern.id f) st) eqn:E0; [destruct s|];
    rewrite ?Map_get_set_same; congruence.
Qed.

Lemma importFormats_entry (now : jsstring) (fs : list FormatPattern.t)
      (s : MergeStrategy) (st : Store) (f : FormatPattern.t) :
  NoDup (map FormatPattern.id fs) -> In f fs ->
  Map_get (FormatPattern.id f) (importFormats now fs s st)
  = Map_get (FormatPattern.id f) (importFormats now [f] s st).
Proof.
  revert st. induction fs as [|x fs IH]; intros st Hnd Hin; [destruct Hin|].
  simpl in Hnd. inversion Hnd as [|? ? Hnotin Hnd']; subst.
  rewrite importFormats_cons.
  destruct Hin as [->|Hin].
  - now apply importFormats_other.
  - rewrite IH by assumption.
    apply importFormats_one_same. apply importFormats_one_other.
    intros E. apply Hnotin. rewrite <- E. now apply in_map.
Qed.

(** X5. [importFormats] of formats with pairwise distinct ids, entry by
    entry: a format whose id is not stored is stored as it is; for a stored
    id, replace stores the imported format, skip keeps the stored one, and
    merge keeps the stored one with the mean of the two scores, the sum of
    the two usage counts, the union of the tags and the clock reading as
    [updatedAt]; ids that are not imported keep their entries. *)
Theorem importFormats_by_strategy (now : jsstring)
        (formats : list FormatPattern.t) (mergeStrategy : MergeStrategy)
        (st : Store) :
  NoDup (map FormatPattern.id formats) ->
  (forall f, In f formats ->
     let after :=
       getFormatById (FormatPattern.id f)
                     (importFormats now formats mergeStrategy st) in
     match getFormatById (FormatPattern.id f) st with
     | None => after = Some f
     | Some existing =>
         match mergeStrategy with
         | replace => after = Some f
         | skip => after = Some existing
         | merge =>
             exists merged,
               after = Some merged
               /\ FormatPattern.effectivenessScore merged
                  = ((FormatPattern.effectivenessScore existing
                      + FormatPattern.effectivenessScore f) / 2)%Q
               /\ FormatPattern.usageCount merged
                  = (FormatPattern.usageCount existing
                     + FormatPattern.usageCount f)%Z
               /\ FormatPattern.tags merged
                  = dedup (FormatPattern.tags existing
                           ++ FormatPattern.tags f)
               /\ FormatPattern.updatedAt merged = now
               /\ FormatPattern.id merged = FormatPattern.id existing
               /\ FormatPattern.name merged = FormatPattern.name existing
               /\ FormatPattern.template merged
                  = FormatPattern.template existing
               /\ FormatPattern.examplePost merged
                  = FormatPattern.examplePost existing
               /\ FormatPattern.createdAt merged
                  = FormatPattern.createdAt existing
         end
     end)
  /\ (forall id, ~ In id (map FormatPattern.id formats) ->
        getFormatById id (importFormats now formats mergeStrategy st)
        = getFormatById id st).
Proof.
  intros Hnd. unfold getFormatById. split.
  - intros f Hin. cbv zeta. rewrite importFormats_entry by assumption.
    unfold importFormats. simpl.
    destruct (Map_get (FormatPattern.id f) st) as [existing|] eqn:E;
      [destruct mergeStrategy|]; rewrite ?Map_get_set_same; try easy.
    eexists. split; [reflexivity|]. simpl. repeat split.
  - intros id. apply importFormats_other.
Qed.

Lemma importFormats_by_strategy_witness :
  (forall f, In f [sampleFormat; storyLessonSeed (str "t1")] ->
     let after :=
       getFormatById (FormatPattern.id f)
                     (importFormats sampleNow
                                    [sampleFormat; storyLessonSeed (str "t1")]
                                    merge (initialStore sampleNow)) in
     match getFormatById (FormatPattern.id f) (initialStore sampleNow) with
     | None => after = Some f
     | Some existing =>
         match merge with
         | replace => after = Some f
         | skip => after = Some existing
         | merge =>
             exists merged,
               after = Some merged
               /\ FormatPattern.effectivenessScore merged
                  = ((FormatPattern.effectivenessScore existing
                      + FormatPattern.effectivenessScore f) / 2)%Q
               /\ FormatPattern.usageCount merged
                  = (FormatPattern.usageCount existing
                     + FormatPattern.usageCount f)%Z
               /\ FormatPattern.tags merged
                  = dedup (FormatPattern.tags existing
                           ++ FormatPattern.tags f)
               /\ FormatPattern.updatedAt merged = sampleNow
               /\ FormatPattern.id merged = FormatPattern.id existing
               /\ FormatPattern.name merged = FormatPattern.name existing
               /\ FormatPattern.template merged
                  = FormatPattern.template existing
               /\ FormatPattern.examplePost merged
                  = FormatPattern.examplePost existing
               /\ FormatPattern.createdAt merged
                  = FormatPattern.createdAt existing
         end
     end)
  /\ (forall id,
        ~ In id (map FormatPattern.id
                     [sampleFormat; storyLessonSeed (str "t1")]) ->
        getFormatById id
          (importFormats sampleNow [sampleFormat; storyLessonSeed (str "t1")]
                         merge (initialStore sampleNow))
        = getFormatById id (initialStore sampleNow)).
Proof.
  apply (@importFormats_by_strategy sampleNow
           [sampleFormat; storyLessonSeed (str "t1")] merge
           (initialStore sampleNow)).
  repeat constructor; vm_compute; intuition discriminate.
Defined.

Lemma importFormats_fresh (now : jsstring) (fs : list FormatPattern.t)
      (s : MergeStrategy) (st : Store) :
  NoDup (map FormatPattern.id fs) ->
  (forall f, In f fs -> Map_get (FormatPattern.id f) st = None) ->
  importFormats now fs s st
  = st ++ map (fun f => (FormatPattern.id f, f)) fs.
Proof.
  revert st. induction fs as [|x fs IH]; intros st Hnd Hfresh.
  - simpl. now rewrite app_nil_r.
  - simpl in Hnd. inversion Hnd as [|? ? Hnotin Hnd']; subst.
    rewrite importFormats_cons.
    assert (E : importFormats now [x] s st = st ++ [(FormatPattern.id x, x)]).
    { unfold importFormats. simpl. rewrite (Hfresh x) by now left.
      apply Map_set_absent. apply Hfresh. now left. }
    rewrite E, IH.
    + simpl. now rewrite <- app_assoc.
    + exact Hnd'.
    + intros f Hf. rewrite <- E, importFormats_one_other.
      * apply Hfresh. now right.
      * intros E'. apply Hnotin. rewrite <- E'. now apply in_map.
Qed.

(** X6. Restoring a backup into a cleared store: after [clearFormats],
    importing formats with pairwise distinct ids and exporting returns the
    imported list, in its order, whatever the merge strategy. *)
Theorem import_into_cleared_store_roundtrip (now : jsstring)
        (formats : list FormatPattern.t) (mergeStrategy : MergeStrategy)
        (st : Store) :
  NoDup (map FormatPattern.id formats) ->
  exportFormats (importFormats now formats mergeStrategy (clearFormats st))
  = formats.
Proof.
  intros Hnd. unfold clearFormats, exportFormats, Map_values.
  rewrite importFormats_fresh; [|exact Hnd|reflexivity].
  simpl. rewrite map_map. simpl. apply map_id.
Qed.

Lemma import_into_cleared_store_roundtrip_witness :
  exportFormats
    (importFormats sampleNow [sampleFormat; storyLessonSeed (str "t1")] merge
                   (clearFormats (initialStore sampleNow)))
  = [sampleFormat; storyLessonSeed (str "t1")].
Proof.
  apply (@import_into_cleared_store_roundtrip sampleNow
           [sampleFormat; storyLessonSeed (str "t1")] merge
           (initialStore sampleNow)).
  repeat constructor; vm_compute; intuition discriminate.
Defined.

Lemma Map_get_of_In (k : jsstring) (v : FormatPattern.t) (st : Store) :
  NoDup (map fst st) -> In (k, v) st -> Map_get k st = Some v.
Proof.
  induction st as [|[k' v'] st IH]; simpl; [intros _ []|].
  intros Hnd Hin. inversion Hnd as [|? ? Hnotin Hnd']; subst.
  destruct Hin as [[= -> ->]|Hin]; [now rewrite streq_refl|].
  destruct (streq k' k) eqn:E; [|now apply IH].
  apply streq_eq in E. subst k'. exfalso. apply Hnotin.
  now apply (in_map fst) in Hin.
Qed.

Lemma keyedById_values (st : Store) :
  keyedById st ->
  NoDup (map FormatPattern.id (Map_values st))
  /\ (forall f, In f (Map_values st) ->
                Map_get (FormatPattern.id f) st = Some f).
Proof.
  intros [Hid Hnd]. rewrite Forall_forall in Hid.
  assert (Hkeys : map FormatPattern.id (Map_values st) = map fst st).
  { unfold Map_values. rewrite map_map. apply map_ext_in.
    intros kv Hkv. symmetry. now apply Hid. }
  split; [now rewrite Hkeys|].
  intros f Hf. unfold Map_values in Hf.
  apply in_map_iff in Hf as ([k v] & <- & Hkv). simpl.
  pose proof (Hid _ Hkv) as Hk. simpl in Hk. subst k.
  now apply Map_get_of_In.
Qed.

Lemma importFormats_skip_present (now : jsstring)
      (fs : list FormatPattern.t) (st : Store) :
  (forall f, In f fs -> Map_has (FormatPattern.id f) st = true) ->
  importFormats now fs skip st = st.
Proof.
  unfold importFormats.
  induction fs as [|x fs IH]; simpl; intros Hall; [reflexivity|].
  assert (Hx : Map_has (FormatPattern.id x) st = true) by auto.
  unfold Map_has in Hx.
  destruct (Map_get (FormatPattern.id x) st); [|discriminate].
  apply IH. auto.
Qed.

(** X7. Importing a reachable store's own export: with skip the store is
    unchanged; with merge, the default strategy, every stored format keeps
    its score but has its usage count doubled and its [updatedAt] set to
    the clock reading. *)
Theorem import_own_export `{CaseMapping} (now : jsstring) (st : Store) :
  reachable st ->
  importFormats now (exportFormats st) skip st = st
  /\ (forall f, In f (exportFormats st) ->
         exists merged,
           getFormatById (FormatPattern.id f)
                         (importFormats now (exportFormats st) merge st)
           = Some merged
           /\ (FormatPattern.effectivenessScore merged
               == FormatPattern.effectivenessScore f)%Q
           /\ FormatPattern.usageCount merged
              = (2 * FormatPattern.usageCount f)%Z
           /\ FormatPattern.updatedAt merged = now).
Proof.
  intros Hreach.
  destruct (keyedById_values (reachable_keyedById Hreach)) as [Hnd Hget].
  unfold exportFormats, getFormatById. split.
  - apply importFormats_skip_present. intros f Hf.
    apply Map_has_get. eauto.
  - intros f Hf. rewrite importFormats_entry by assumption.
    unfold importFormats. cbn [fold_left].
    rewrite (Hget f Hf), Map_get_set_same.
    eexists. split; [reflexivity|].
    cbn [FormatPattern.effectivenessScore FormatPattern.usageCount
         FormatPattern.updatedAt].
    split; [|split].
    + field.
    + lia.
    + reflexivity.
Qed.

Lemma import_own_export_witness :
  importFormats sampleNow (exportFormats (initialStore sampleNow)) skip
                (initialStore sampleNow)
  = initialStore sampleNow
  /\ (forall f, In f (exportFormats (initialStore sampleNow)) ->
         exists merged,
           getFormatById (FormatPattern.id f)
                         (importFormats sampleNow
                                        (exportFormats (initialStore sampleNow))
                                        merge (initialStore sampleNow))
           = Some merged
           /\ (FormatPattern.effectivenessScore merged
               == FormatPattern.effectivenessScore f)%Q
           /\ FormatPattern.usageCount merged
              = (2 * FormatPattern.usageCount f)%Z
           /\ FormatPattern.updatedAt merged = sampleNow).
Proof.
  apply (@import_own_export asciiCase sampleNow (initialStore sampleNow)).
  apply reach_init.
Defined.
(** ** Statistics *)

Section Counting.
Variable K : Type.
Variable eqb : K -> K -> bool.
Hypothesis eqb_spec : forall a b, eqb a b = true <-> a = b.

Lemma eqb_false (a b : K) : eqb a b = false <-> a <> b.
Proof.
  split.
  - intros E ->. assert (eqb b b = true) by now apply eqb_spec. congruence.
  - intros Hne. destruct (eqb a b) eqn:E; [|reflexivity].
    apply eqb_spec in E. contradiction.
Qed.

Lemma bumpCount_keys (k k' : K) (counts : list (K * Z)) :
  In k' (map fst (bumpCount eqb k counts))
  <-> k' = k \/ In k' (map fst counts).
Proof.
  induction counts as [|[k0 c] t IH]; simpl; [intuition|].
  destruct (eqb k0 k) eqn:E; simpl.
  - apply eqb_spec in E. subst. intuition.
  - rewrite IH. intuition.
Qed.

Lemma bumpCount_NoDup (k : K) (counts : list (K * Z)) :
  NoDup (map fst counts) -> NoDup (map fst (bumpCount eqb k counts)).
Proof.
  induction counts as [|[k0 c] t IH]; simpl; intros Hnd.
  - repeat constructor. auto.
  - inversion Hnd as [|? ? Hnotin Hnd']; subst.
    destruct (eqb k0 k) eqn:E; simpl; [now constructor|].
    constructor; [|now apply IH].
    rewrite bumpCount_keys. intros [->|Hin]; [|contradiction].
    apply eqb_false in E. contradiction.
Qed.

Lemma getCount_bumpCount (k k' : K) (counts : list (K * Z)) :
  getCount eqb k' (bumpCount eqb k counts)
  = (getCount eqb k' counts + if eqb k k' then 1 else 0)%Z.
Proof.
  unfold getCount.
  induction counts as [|[k0 c] t IH]; simpl.
  - destruct (eqb k k'); reflexivity.
  - destruct (eqb k0 k) eqn:E; simpl.
    + apply eqb_spec in E. subst k0.
      destruct (eqb k k'); simpl; lia.
    + destruct (eqb k0 k') eqn:E'; simpl; [|exact IH].
      apply eqb_spec in E'. subst k0. apply eqb_false in E.
      assert (E' : eqb k k' = false) by (apply eqb_false; congruence).
      rewrite E'. lia.
Qed.

Lemma getCount_In (k : K) (c : Z) (counts : list (K * Z)) :
  NoDup (map fst counts) -> In (k, c) counts -> getCount eqb k counts = c.
Proof.
  unfold getCount.
  induction counts as [|[k0 c0] t IH]; simpl; [intros _ []|].
  intros Hnd Hin. inversion Hnd as [|? ? Hnotin Hnd']; subst.
  destruct Hin as [[= -> ->]|Hin].
  - assert (E : eqb k k = true) by now apply eqb_spec. now rewrite E.
  - destruct (eqb k0 k) eqn:E; [|now apply IH].
    apply eqb_spec in E. subst k0. exfalso. apply Hnotin.
    now apply (in_map fst) in Hin.
Qed.

Lemma occurrences_cons (k x : K) (keys : list K) :
  occurrences eqb k (x :: keys)
  = ((if eqb x k then 1 else 0) + occurrences eqb k keys)%Z.
Proof.
  unfold occurrences, countIf, lengthZ. simpl.
  destruct (eqb x k); simpl length; lia.
Qed.

Lemma occurrences_In (k : K) (keys : list K) :
  In k keys -> (1 <= occurrences eqb k keys)%Z.
Proof.
  induction keys as [|x keys IH]; [intros []|].
  rewrite occurrences_cons. intros [->|Hin].
  - assert (E : eqb k k = true) by now apply eqb_spec. rewrite E.
    unfold occurrences, countIf, lengthZ. lia.
  - specialize (IH Hin). destruct (eqb x k); lia.
Qed.

Lemma countAll_fold (keys : list K) (acc : list (K * Z)) :
  NoDup (map fst acc) ->
  let counts := fold_left (fun counts k => bumpCount eqb k counts) keys acc in
  NoDup (map fst counts)
  /\ (forall k, In k (map fst counts) <-> In k keys \/ In k (map fst acc))
  /\ (forall k, getCount eqb k counts
                = (getCount eqb k acc + occurrences eqb k keys)%Z).
Proof.
  revert acc. induction keys as [|x keys IH]; intros acc Hnd; cbv zeta.
  - simpl. split; [exact Hnd|]. split; [intuition|].
    intros k. unfold occurrences, countIf, lengthZ. simpl. lia.
  - simpl.
    destruct (IH (bumpCount eqb x acc) (bumpCount_NoDup x acc Hnd))
      as (Hnd' & Hkeys & Hcount).
    split; [exact Hnd'|]. split.
    + intros k. rewrite Hkeys, bumpCount_keys. intuition.
    + intros k. rewrite Hcount, getCount_bumpCount, occurrences_cons. lia.
Qed.

Lemma countAll_spec (keys : list K) :
  NoDup (map fst (countAll eqb keys))
  /\ (forall k, In k (map fst (countAll eqb keys)) <-> In k keys)
  /\ (forall k c, In (k, c) (countAll eqb keys) ->
                  c = occurrences eqb k keys).
Proof.
  destruct (@countAll_fold keys [] (NoDup_nil _)) as (Hnd & Hkeys & Hcount).
  fold (countAll eqb keys) in Hnd, Hkeys, Hcount.
  split; [exact Hnd|]. split.
  - intros k. rewrite Hkeys. simpl. tauto.
  - intros k c Hin. rewrite <- (@getCount_In k c _ Hnd Hin), Hcount.
    unfold getCount. simpl. lia.
Qed.

Lemma descending_head {A} (key : A -> Q) (x : A) (l : list A) :
  descending (map key (x :: l)) ->
  forall b, In b l -> (key b <= key x)%Q.
Proof.
  revert x. induction l as [|y t IH]; intros x Hd b Hb; [destruct Hb|].
  simpl in Hd. destruct Hd as [Hyx Ht].
  destruct Hb as [->|Hb]; [exact Hyx|].
  apply Qle_trans with (key y); [|exact Hyx].
  now apply IH.
Qed.

Lemma descending_app {A} (key : A -> Q) (l1 l2 : list A) :
  descending (map key (l1 ++ l2)) ->
  descending (map key l1)
  /\ (forall a b, In a l1 -> In b l2 -> (key b <= key a)%Q).
Proof.
  induction l1 as [|x l1 IH]; [simpl; intuition|].
  intros Hd.
  assert (Htail : descending (map key (l1 ++ l2))) by (simpl in Hd; tauto).
  destruct (IH Htail) as [Hd1 Hle].
  pose proof (@descending_head _ key x (l1 ++ l2) Hd) as Hx.
  split.
  - simpl. split; [|exact Hd1].
    destruct l1 as [|y l1]; simpl; [exact I|]. apply Hx. now left.
  - intros a b [->|Ha] Hb.
    + apply Hx. apply in_or_app. now right.
    + now apply Hle.
Qed.

Lemma topFive_spec (keys : list K) :
  mostFrequent eqb keys (topFive (countAll eqb keys)).
Proof.
  destruct (countAll_spec keys) as (Hnd & Hkeys & Hcount).
  unfold topFive.
  set (key := fun e : K * Z => ofZ (snd e)).
  set (counts := countAll eqb keys) in *.
  pose proof (sortDesc_perm key counts) as Hperm.
  pose proof (sortDesc_descending key counts) as Hdesc.
  set (sorted := sortDesc key counts) in *.
  rewrite <- (firstn_skipn 5 sorted) in Hdesc.
  apply descending_app in Hdesc. destruct Hdesc as [Hd1 Hle].
  assert (Hsub : forall e, In e (firstn 5 sorted) -> In e counts).
  { intros e He. apply (Permutation_in _ Hperm).
    rewrite <- (firstn_skipn 5 sorted). apply in_or_app. now left. }
  split; [apply firstn_le_length|]. split; [|split; [exact Hd1|split]].
  - assert (Hnd' : NoDup (map fst sorted)).
    { apply Permutation_NoDup with (map fst counts); [|exact Hnd].
      apply Permutation_map. now symmetry. }
    rewrite <- (firstn_skipn 5 sorted), map_app in Hnd'.
    now apply NoDup_app_remove_r in Hnd'.
  - intros k c Hin. apply Hsub in Hin.
    assert (Hk : In k keys).
    { apply Hkeys. now apply (in_map fst) in Hin. }
    split; [exact Hk|]. split; [now apply Hcount|].
    rewrite (Hcount _ _ Hin). now apply occurrences_In.
  - intros k Hk. apply Hkeys in Hk. apply in_map_iff in Hk.
    destruct Hk as ([k' c] & Hfst & Hin). simpl in Hfst. subst k'.
    pose proof (Hcount _ _ Hin) as Hc.
    apply (Permutation_in _ (Permutation_sym Hperm)) in Hin.
    rewrite <- (firstn_skipn 5 sorted) in Hin.
    apply in_app_or in Hin. destruct Hin as [Hin|Hin].
    + left. now apply (in_map fst) in Hin.
    + right. split.
      * apply firstn_length_le.
        destruct (le_lt_dec 5 (length sorted)) as [Hlen|Hlen]; [exact Hlen|].
        rewrite skipn_all2 in Hin by lia. destruct Hin.
      * intros e He. rewrite <- Hc.
        specialize (Hle e (k, c) He Hin). unfold key, ofZ in Hle. simpl in Hle.
        now rewrite <- Zle_Qle in Hle.
Qed.
End Counting.

Lemma HookType_eqb_spec (a b : HookType.t) :
  HookType.eqb a b = true <-> a = b.
Proof. destruct a, b; simpl; split; congruence. Qed.

Lemma BodyType_eqb_spec (a b : BodyType.t) :
  BodyType.eqb a b = true <-> a = b.
Proof. destruct a, b; simpl; split; congruence. Qed.

Lemma CTAType_eqb_spec (a b : CTAType.t) :
  CTAType.eqb a b = true <-> a = b.
Proof. destruct a, b; simpl; split; congruence. Qed.

(** X8. The three top lists of [getFormatStats] are rankings of the hook,
    body and call-to-action types of the formats that [getStoredFormats]
    returns for the platform: at most five entries, no type twice, each
    with the number of formats of that type (at least one), in descending
    order of that number, and no type that is left out is more frequent than
    one that is listed. *)
Theorem getFormatStats_top_lists (platform : option Platform) (st : Store) :
  let formats := getStoredFormats platform st in
  let stats := getFormatStats platform st in
  mostFrequent HookType.eqb (map FormatPattern.hookType formats)
               (topHooks stats)
  /\ mostFrequent BodyType.eqb (map FormatPattern.bodyType formats)
                  (topBodies stats)
  /\ mostFrequent CTAType.eqb (map FormatPattern.ctaType formats)
                  (topCTAs stats).
Proof.
  cbv zeta. unfold getFormatStats. simpl. split; [|split].
  - apply topFive_spec. apply HookType_eqb_spec.
  - apply topFive_spec. apply BodyType_eqb_spec.
  - apply topFive_spec. apply CTAType_eqb_spec.
Qed.

Section CountSums.
Variable K : Type.
Variable eqb : K -> K -> bool.
Hypothesis eqb_spec : forall a b, eqb a b = true <-> a = b.

(** Among keys without duplicates, an element is counted once if it is one
    of them and not at all otherwise. *)
Lemma sum_hits (x : K) (ks : list K) :
  NoDup ks ->
  fold_right Z.add 0%Z (map (fun k => if eqb x k then 1 else 0)%Z ks)
  = if existsb (eqb x) ks then 1%Z else 0%Z.
Proof.
  induction 1 as [|k ks Hnotin Hnd IH]; simpl; [reflexivity|].
  rewrite IH. destruct (eqb x k) eqn:E; simpl; [|lia].
  apply eqb_spec in E. subst k.
  destruct (existsb (eqb x) ks) eqn:Ex; [|reflexivity].
  apply existsb_exists in Ex. destruct Ex as (y & Hy & Exy).
  apply eqb_spec in Exy. subst y. contradiction.
Qed.

Lemma sum_occurrences (ks keys : list K) :
  NoDup ks ->
  fold_right Z.add 0%Z (map (fun k => occurrences eqb k keys) ks)
  = countIf (fun x => existsb (eqb x) ks) keys.
Proof.
  intros Hnd. induction keys as [|x keys IH].
  - unfold occurrences, countIf, lengthZ. simpl.
    induction ks as [|k ks IHk]; simpl; [reflexivity|].
    inversion Hnd; subst. rewrite IHk by assumption. reflexivity.
  - assert (Hsplit :
      fold_right Z.add 0%Z (map (fun k => occurrences eqb k (x :: keys)) ks)
      = (fold_right Z.add 0%Z
           (map (fun k => if eqb x k then 1 else 0)%Z ks)
         + fold_right Z.add 0%Z
             (map (fun k => occurrences eqb k keys) ks))%Z).
    { clear IH Hnd. induction ks as [|k ks IHk]; simpl; [reflexivity|].
      rewrite IHk, (occurrences_cons eqb). lia. }
    rewrite Hsplit, IH, sum_hits by exact Hnd.
    unfold countIf, lengthZ. simpl filter.
    destruct (existsb (eqb x) ks); simpl length; lia.
Qed.

Lemma countIf_le {A} (f : A -> bool) (l : list A) :
  (countIf f l <= lengthZ l)%Z.
Proof.
  unfold countIf, lengthZ. apply Nat2Z.inj_le.
  induction l as [|x l IH]; simpl; [lia|].
  destruct (f x); simpl; lia.
Qed.

Lemma countIf_all {A} (f : A -> bool) (l : list A) :
  (forall x, In x l -> f x = true) -> countIf f l = lengthZ l.
Proof.
  intros Hall. unfold countIf, lengthZ. f_equal.
  induction l as [|x l IH]; simpl; [reflexivity|].
  rewrite (Hall x) by now left. simpl. f_equal. apply IH.
  intros y Hy. apply Hall. now right.
Qed.

(** The counts of a ranking add up to at most the number of elements, and
    to exactly that number when the ranking is not cut at five. *)
Lemma mostFrequent_sum (keys : list K) (top : list (K * Z)) :
  mostFrequent eqb keys top ->
  (sumCounts top <= lengthZ keys)%Z
  /\ ((length top < 5)%nat -> sumCounts top = lengthZ keys)
  /\ (forall e, In e top -> (snd e <= lengthZ keys)%Z).
Proof.
  intros (Hlen & Hnd & _ & Hcount & Hall).
  assert (Hsum : sumCounts top
                 = countIf (fun x => existsb (eqb x) (map fst top)) keys).
  { rewrite <- sum_occurrences by exact Hnd. unfold sumCounts.
    rewrite map_map. f_equal. apply map_ext_in. intros [k c] Hin.
    simpl. now destruct (Hcount k c Hin) as (_ & -> & _). }
  split; [|split].
  - rewrite Hsum. apply countIf_le.
  - intros Hlt. rewrite Hsum. apply countIf_all. intros x Hx.
    apply existsb_exists. exists x. split; [|now apply eqb_spec].
    destruct (Hall x Hx) as [Hin|[Hfive _]]; [exact Hin|lia].
  - intros [k c] Hin. simpl. destruct (Hcount k c Hin) as (_ & -> & _).
    unfold occurrences. apply countIf_le.
Qed.
End CountSums.

(** X9. The counts of [getFormatStats]. [totalFormats] is the number of
    formats that [getStoredFormats] returns for the platform. In each of the
    three top lists no count exceeds [totalFormats], the counts add up to at
    most [totalFormats], and to exactly [totalFormats] when the list has
    fewer than five entries: every format is counted once, under its type.
    With no format, the average is 0 and the three lists are empty. *)
Theorem getFormatStats_counts (platform : option Platform) (st : Store) :
  let stats := getFormatStats platform st in
  totalFormats stats = lengthZ (getStoredFormats platform st)
  /\ ((sumCounts (topHooks stats) <= totalFormats stats)%Z
      /\ ((length (topHooks stats) < 5)%nat ->
          sumCounts (topHooks stats) = totalFormats stats)
      /\ (forall e, In e (topHooks stats) ->
                    (snd e <= totalFormats stats)%Z))
  /\ ((sumCounts (topBodies stats) <= totalFormats stats)%Z
      /\ ((length (topBodies stats) < 5)%nat ->
          sumCounts (topBodies stats) = totalFormats stats)
      /\ (forall e, In e (topBodies stats) ->
                    (snd e <= totalFormats stats)%Z))
  /\ ((sumCounts (topCTAs stats) <= totalFormats stats)%Z
      /\ ((length (topCTAs stats) < 5)%nat ->
          sumCounts (topCTAs stats) = totalFormats stats)
      /\ (forall e, In e (topCTAs stats) ->
                    (snd e <= totalFormats stats)%Z))
  /\ (totalFormats stats = 0%Z ->
      averageEffectiveness stats = 0%Q
      /\ topHooks stats = [] /\ topBodies stats = []
      /\ topCTAs stats = []).
Proof.
  cbv zeta. unfold getFormatStats.
  cbn [totalFormats averageEffectiveness topHooks topBodies topCTAs].
  set (formats := getStoredFormats platform st).
  split; [reflexivity|]. split; [|split; [|split]].
  - pose proof (@mostFrequent_sum _ _ HookType_eqb_spec _ _
                  (@topFive_spec _ _ HookType_eqb_spec
                     (map FormatPattern.hookType formats))) as Hsum.
    unfold lengthZ in *. rewrite length_map in Hsum. exact Hsum.
  - pose proof (@mostFrequent_sum _ _ BodyType_eqb_spec _ _
                  (@topFive_spec _ _ BodyType_eqb_spec
                     (map FormatPattern.bodyType formats))) as Hsum.
    unfold lengthZ in *. rewrite length_map in Hsum. exact Hsum.
  - pose proof (@mostFrequent_sum _ _ CTAType_eqb_spec _ _
                  (@topFive_spec _ _ CTAType_eqb_spec
                     (map FormatPattern.ctaType formats))) as Hsum.
    unfold lengthZ in *. rewrite length_map in Hsum. exact Hsum.
  - unfold lengthZ. intros Hzero.
    destruct formats as [|f l]; [|simpl in Hzero; lia].
    repeat split.
Qed.

(** ** Matching *)

Section Matching.
Context {CM : CaseMapping}.

Lemma calculateMatchScore_le_100 (format : FormatPattern.t)
      (topic : jsstring) (options : option MatchOptions) :
  (fst (calculateMatchScore format topic options) <= 100)%Q.
Proof.
  unfold calculateMatchScore.
  repeat match goal with
         | |- context [let '(_, _) := ?x in _] => destruct x
         end.
  simpl. apply Math_min_le_l.
Qed.

Lemma bestMatch_fold (topic : jsstring) (options : option MatchOptions)
      (l : list FormatPattern.t) (f0 : FormatPattern.t) :
  exists f,
    fold_left
      (fun bestMatch format =>
         let '(score, matchingElements') :=
           calculateMatchScore format topic options in
         match bestMatch with
         | None => Some (format, score, matchingElements')
         | Some (_, bestScore, _) =>
             if Qltb bestScore score
             then Some (format, score, matchingElements')
             else bestMatch
         end)
      l
      (Some (f0, fst (calculateMatchScore f0 topic options),
             snd (calculateMatchScore f0 topic options)))
    = Some (f, fst (calculateMatchScore f topic options),
            snd (calculateMatchScore f topic options))
    /\ In f (f0 :: l)
    /\ (forall g, In g (f0 :: l) ->
                  (fst (calculateMatchScore g topic options)
                   <= fst (calculateMatchScore f topic options))%Q).
Proof.
  revert f0. induction l as [|x l IH]; intros f0.
  - exists f0. simpl. split; [reflexivity|]. split; [now left|].
    intros g [->|[]]. apply Qle_refl.
  - cbn [fold_left].
    destruct (calculateMatchScore x topic options) as [sx ex] eqn:Ex.
    destruct (Qltb (fst (calculateMatchScore f0 topic options)) sx) eqn:E.
    + destruct (IH x) as (f & Hf & Hin & Hmax). rewrite Ex in Hf.
      exists f. split; [exact Hf|]. split; [simpl in *; tauto|].
      intros g [->|Hg]; [|now apply Hmax].
      apply Qltb_lt in E. apply Qle_trans with sx; [now apply Qlt_le_weak|].
      replace sx with (fst (calculateMatchScore x topic options))
        by now rewrite Ex.
      apply Hmax. now left.
    + destruct (IH f0) as (f & Hf & Hin & Hmax).
      exists f. split; [exact Hf|]. split; [simpl in *; tauto|].
      intros g [->|[->|Hg]].
      * apply Hmax. now left.
      * apply Qltb_ge in E. rewrite Ex. simpl.
        apply Qle_trans with (fst (calculateMatchScore f0 topic options)).
        -- exact E.
        -- apply Hmax. now left.
      * apply Hmax. now right.
Qed.
End Matching.

(** X10. [findBestMatch] when a format of the platform is stored: the
    store is left as it is, and the result names a stored format of that
    platform whose match score, as [calculateMatchScore] gives it, is the
    highest among them and at most 100. *)
Theorem findBestMatch_picks_highest `{CaseMapping} (now topic : jsstring)
        (platform : Platform) (options : option MatchOptions) (st : Store) :
  getStoredFormats (Some platform) st <> [] ->
  let result := findBestMatch now topic platform options st in
  snd result = st
  /\ exists best,
       In best (Map_values st)
       /\ FormatPattern.platform best = platform
       /\ formatId (fst result) = FormatPattern.id best
       /\ formatName (fst result) = FormatPattern.name best
       /\ matchScore (fst result)
          = fst (calculateMatchScore best topic options)
       /\ matchingElements (fst result)
          = snd (calculateMatchScore best topic options)
       /\ suggestedModifications (fst result)
          = generateModifications best topic options
       /\ (matchScore (fst result) <= 100)%Q
       /\ (forall f, In f (Map_values st) ->
                     FormatPattern.platform f = platform ->
                     (fst (calculateMatchScore f topic options)
                      <= matchScore (fst result))%Q).
Proof.
  intros Hne. cbv zeta. unfold findBestMatch.
  assert (Hmem : forall f, In f (getStoredFormats (Some platform) st)
                           <-> In f (Map_values st)
                               /\ FormatPattern.platform f = platform).
  { intros f. unfold getStoredFormats. rewrite filter_In.
    destruct (FormatPattern.platform f), platform; simpl;
      intuition congruence. }
  destruct (getStoredFormats (Some platform) st) as [|f0 l]; [now destruct Hne|].
  change (length (f0 :: l) =? 0)%nat with false. cbv iota.
  cbn [fold_left].
  destruct (calculateMatchScore f0 topic options) as [s0 e0] eqn:E0.
  destruct (bestMatch_fold topic options l f0) as (best & Hfold & Hin & Hmax).
  rewrite E0 in Hfold. simpl fst in Hfold. simpl snd in Hfold.
  rewrite Hfold. simpl. split; [reflexivity|].
  exists best. apply Hmem in Hin. destruct Hin as [Hin Hpl].
  repeat (split; [first [assumption|reflexivity]|]).
  split; [apply calculateMatchScore_le_100|].
  intros f Hf Hp. apply Hmax. apply Hmem. now split.
Qed.

Lemma findBestMatch_picks_highest_witness :
  let result :=
    findBestMatch sampleNow (str "story of my career") linkedin None
                  (initialStore sampleNow) in
  snd result = initialStore sampleNow
  /\ exists best,
       In best (Map_values (initialStore sampleNow))
       /\ FormatPattern.platform best = linkedin
       /\ formatId (fst result) = FormatPattern.id best
       /\ formatName (fst result) = FormatPattern.name best
       /\ matchScore (fst result)
          = fst (calculateMatchScore best (str "story of my career") None)
       /\ matchingElements (fst result)
          = snd (calculateMatchScore best (str "story of my career") None)
       /\ suggestedModifications (fst result)
          = generateModifications best (str "story of my career") None
       /\ (matchScore (fst result) <= 100)%Q
       /\ (forall f, In f (Map_values (initialStore sampleNow)) ->
                     FormatPattern.platform f = linkedin ->
                     (fst (calculateMatchScore f (str "story of my career")
                                               None)
                      <= matchScore (fst result))%Q).
Proof.
  apply (@findBestMatch_picks_highest asciiCase sampleNow
           (str "story of my career") linkedin None (initialStore sampleNow)).
  vm_compute. discriminate.
Defined.

(** X11. [findBestMatch] when no format of the platform is stored: the
    result is the default format, [default-<platform>] with match score 30,
    and the default is added to the store, with score 50 and usage count 0
    and with the topic of this call in its tags, unless its id is taken; no
    other entry changes. *)
Theorem findBestMatch_falls_back `{CaseMapping} (now topic : jsstring)
        (platform : Platform) (options : option MatchOptions) (st : Store) :
  getStoredFormats (Some platform) st = [] ->
  let result := findBestMatch now topic platform options st in
  let id := (str "default-" ++ platformName platform)%list in
  formatId (fst result) = id
  /\ matchScore (fst result) = 30%Q
  /\ match getFormatById id st with
     | Some stored => snd result = st
     | None =>
         exists d,
           getFormatById id (snd result) = Some d
           /\ FormatPattern.id d = id
           /\ FormatPattern.platform d = platform
           /\ FormatPattern.effectivenessScore d = 50%Q
           /\ FormatPattern.usageCount d = 0%Z
           /\ FormatPattern.tags d = [topic]
           /\ FormatPattern.createdAt d = now
           /\ length (snd result) = S (length st)
     end
  /\ (forall id', id' <> id ->
         getFormatById id' (snd result) = getFormatById id' st).
Proof.
  intros Hnone. cbv zeta. unfold findBestMatch. rewrite Hnone.
  change (length (@nil FormatPattern.t) =? 0)%nat with true. cbv iota.
  unfold getDefaultFormat, getFormatById, Map_has.
  cbn [fst snd formatId matchScore FormatPattern.id].
  split; [reflexivity|]. split; [reflexivity|].
  destruct (Map_get (str "default-" ++ platformName platform) st) eqn:E;
    cbn [negb].
  - split; reflexivity.
  - split.
    + eexists. split; [apply Map_get_set_same|].
      rewrite Map_set_length, E. simpl. repeat split.
    + intros id' Hne. now apply Map_get_set_other.
Qed.

Lemma findBestMatch_falls_back_witness :
  let result :=
    findBestMatch sampleNow (str "pricing") twitter None
                  (clearFormats (initialStore sampleNow)) in
  let id := (str "default-" ++ platformName twitter)%list in
  formatId (fst result) = id
  /\ matchScore (fst result) = 30%Q
  /\ match getFormatById id (clearFormats (initialStore sampleNow)) with
     | Some stored => snd result = clearFormats (initialStore sampleNow)
     | None =>
         exists d,
           getFormatById id (snd result) = Some d
           /\ FormatPattern.id d = id
           /\ FormatPattern.platform d = twitter
           /\ FormatPattern.effectivenessScore d = 50%Q
           /\ FormatPattern.usageCount d = 0%Z
           /\ FormatPattern.tags d = [str "pricing"]
           /\ FormatPattern.createdAt d = sampleNow
           /\ length (snd result)
              = S (length (clearFormats (initialStore sampleNow)))
     end
  /\ (forall id', id' <> id ->
         getFormatById id' (snd result)
         = getFormatById id' (clearFormats (initialStore sampleNow))).
Proof.
  apply (@findBestMatch_falls_back asciiCase sampleNow (str "pricing") twitter
           None (clearFormats (initialStore sampleNow))).
  reflexivity.
Defined.
(** ** Format ids *)

Lemma distinctKeys_inj {A} (l : list (jsstring * A)) (k : jsstring)
      (a a' : A) :
  distinctKeys l = true -> In (k, a) l -> In (k, a') l -> a = a'.
Proof.
  induction l as [|[k0 a0] t IH]; simpl; [intros _ []|].
  intros Hd. apply andb_prop in Hd. destruct Hd as [Hhead Htail].
  rewrite forallb_forall in Hhead.
  assert (Hno : forall x, In (k0, x) t -> False).
  { intros x Hx. specialize (Hhead _ Hx). simpl in Hhead.
    now rewrite streq_refl in Hhead. }
  intros [H1|Hin] [H2|Hin'].
  - congruence.
  - exfalso. inversion H1; subst. eauto.
  - exfalso. inversion H2; subst. eauto.
  - now apply IH.
Qed.

Lemma allFormatIds_distinct : distinctKeys allFormatIds = true.
Proof. vm_compute. reflexivity. Qed.

Lemma allFormatIds_not_seeded :
  forallb (fun e => negb (existsb (streq (fst e)) seedIds)) allFormatIds
  = true.
Proof. vm_compute. reflexivity. Qed.

Lemma allFormatIds_complete (pl : Platform) (h : HookType.t)
      (b : BodyType.t) (c : CTAType.t) :
  In (@generateFormatId asciiCase (triadPattern h b c) pl, (pl, h, b, c))
     allFormatIds.
Proof.
  unfold allFormatIds.
  apply in_flat_map. exists pl. split; [destruct pl; simpl; tauto|].
  apply in_flat_map. exists h. split; [destruct h; simpl; tauto|].
  apply in_flat_map. exists b. split; [destruct b; simpl; tauto|].
  apply in_map_iff. exists c. split; [reflexivity|].
  destruct c; simpl; tauto.
Qed.

Section FormatIds.
Context {CM : CaseMapping}.

Lemma generateFormatId_slug (formatPattern : DetectedFormatPattern.t)
      (platform : Platform) :
  forallb isSlugChar (generateFormatId formatPattern platform) = true.
Proof.
  unfold generateFormatId, replaceClass.
  induction (toLowerCase _) as [|c s IH]; [reflexivity|].
  cbn [flat_map]. rewrite forallb_app, IH, andb_true_r.
  change (inClass noFlags [(97, 122); (48, 57); (45, 45)]%N c)
    with (isSlugChar c).
  destruct (isSlugChar c) eqn:E; simpl; [now rewrite E|reflexivity].
Qed.

Lemma generateFormatId_lowersAscii (formatPattern : DetectedFormatPattern.t)
      (platform : Platform) :
  lowersAscii CM ->
  generateFormatId formatPattern platform
  = @generateFormatId asciiCase
      (triadPattern (DetectedFormatPattern.hookType formatPattern)
                    (DetectedFormatPattern.bodyType formatPattern)
                    (DetectedFormatPattern.ctaType formatPattern))
      platform.
Proof.
  intros Hlow. unfold generateFormatId. rewrite Hlow; [reflexivity|].
  rewrite !forallb_app.
  destruct platform,
    (DetectedFormatPattern.hookType formatPattern),
    (DetectedFormatPattern.bodyType formatPattern),
    (DetectedFormatPattern.ctaType formatPattern); reflexivity.
Qed.

Lemma generateFormatId_not_seeded (formatPattern : DetectedFormatPattern.t)
      (platform : Platform) :
  lowersAscii CM ->
  ~ In (generateFormatId formatPattern platform) seedIds.
Proof.
  intros Hlow Hin. rewrite generateFormatId_lowersAscii in Hin by exact Hlow.
  pose proof allFormatIds_not_seeded as Hall.
  rewrite forallb_forall in Hall.
  specialize (Hall _ (allFormatIds_complete platform
                        (DetectedFormatPattern.hookType formatPattern)
                        (DetectedFormatPattern.bodyType formatPattern)
                        (DetectedFormatPattern.ctaType formatPattern))).
  simpl fst in Hall. apply negb_true_iff in Hall.
  assert (Hex : existsb
                  (streq (@generateFormatId asciiCase
                            (triadPattern
                               (DetectedFormatPattern.hookType formatPattern)
                               (DetectedFormatPattern.bodyType formatPattern)
                               (DetectedFormatPattern.ctaType formatPattern))
                            platform))
                  seedIds = true).
  { apply existsb_exists. eexists. split; [exact Hin|apply streq_refl]. }
  congruence.
Qed.
End FormatIds.

(** X12. [generateFormatId] returns a slug, made of the characters a-z, 0-9
    and the hyphen only; and when [toLowerCase] lowers ASCII strings
    letter by letter, two calls return the same id only for the same
    platform, hook type, body type and call-to-action type, and no call
    returns the id of a seeded format. *)
Theorem generateFormatId_slug_injective `{CM : CaseMapping}
        (p p' : DetectedFormatPattern.t) (pl pl' : Platform) :
  lowersAscii CM ->
  forallb isSlugChar (generateFormatId p pl) = true
  /\ ~ In (generateFormatId p pl) seedIds
  /\ (generateFormatId p pl = generateFormatId p' pl' ->
      pl = pl'
      /\ DetectedFormatPattern.hookType p = DetectedFormatPattern.hookType p'
      /\ DetectedFormatPattern.bodyType p = DetectedFormatPattern.bodyType p'
      /\ DetectedFormatPattern.ctaType p = DetectedFormatPattern.ctaType p').
Proof.
  intros Hlow. split; [apply generateFormatId_slug|].
  split; [now apply generateFormatId_not_seeded|].
  rewrite (@generateFormatId_lowersAscii CM p pl Hlow),
    (@generateFormatId_lowersAscii CM p' pl' Hlow).
  intros E.
  pose proof (allFormatIds_complete pl (DetectedFormatPattern.hookType p)
                (DetectedFormatPattern.bodyType p)
                (DetectedFormatPattern.ctaType p)) as H1.
  pose proof (allFormatIds_complete pl' (DetectedFormatPattern.hookType p')
                (DetectedFormatPattern.bodyType p')
                (DetectedFormatPattern.ctaType p')) as H2.
  rewrite <- E in H2.
  pose proof (distinctKeys_inj _ _ _ _ allFormatIds_distinct H1 H2) as Heq.
  now inversion Heq.
Qed.

Lemma generateFormatId_slug_injective_witness :
  forallb isSlugChar
          (generateFormatId
             (triadPattern HookType.BOLD_STATEMENT BodyType.LISTICLE
                           CTAType.SHARE)
             twitter)
  = true
  /\ ~ In (generateFormatId
             (triadPattern HookType.BOLD_STATEMENT BodyType.LISTICLE
                           CTAType.SHARE)
             twitter)
          seedIds
  /\ (generateFormatId
        (triadPattern HookType.BOLD_STATEMENT BodyType.LISTICLE CTAType.SHARE)
        twitter
      = generateFormatId (AnalysisResult.formatPattern (sampleAnalysis 40))
                         twitter ->
      twitter = twitter
      /\ DetectedFormatPattern.hookType
           (triadPattern HookType.BOLD_STATEMENT BodyType.LISTICLE
                         CTAType.SHARE)
         = DetectedFormatPattern.hookType
             (AnalysisResult.formatPattern (sampleAnalysis 40))
      /\ DetectedFormatPattern.bodyType
           (triadPattern HookType.BOLD_STATEMENT BodyType.LISTICLE
                         CTAType.SHARE)
         = DetectedFormatPattern.bodyType
             (AnalysisResult.formatPattern (sampleAnalysis 40))
      /\ DetectedFormatPattern.ctaType
           (triadPattern HookType.BOLD_STATEMENT BodyType.LISTICLE
                         CTAType.SHARE)
         = DetectedFormatPattern.ctaType
             (AnalysisResult.formatPattern (sampleAnalysis 40))).
Proof.
  apply (@generateFormatId_slug_injective asciiCase
           (triadPattern HookType.BOLD_STATEMENT BodyType.LISTICLE
                         CTAType.SHARE)
           (AnalysisResult.formatPattern (sampleAnalysis 40))
           twitter twitter).
  intros s _. reflexivity.
Defined.

Lemma asciiCase_lowersAscii : lowersAscii asciiCase.
Proof. intros s _. reflexivity. Qed.

(** ** Learning, entry by entry *)

Section LearningFrame.
Context {CM : CaseMapping}.

Lemma learnFromPost_stored now post analysisResult st :
  Map_get (learnedId now post analysisResult)
          (snd (learnFromPost now post analysisResult st))
  = Some (fst (learnFromPost now post analysisResult st)).
Proof.
  unfold learnedId, usedAnalysis, learnFromPost.
  destruct (Map_get _ st); simpl; apply Map_get_set_same.
Qed.

Lemma learnFromPost_other now post analysisResult st id :
  id <> learnedId now post analysisResult ->
  Map_get id (snd (learnFromPost now post analysisResult st))
  = Map_get id st.
Proof.
  unfold learnedId, usedAnalysis, learnFromPost. intros Hne.
  destruct (Map_get _ st); simpl; now apply Map_get_set_other.
Qed.

Lemma batchLearn_other now posts st id :
  (forall post, In post posts -> id <> learnedId now post None) ->
  Map_get id (snd (batchLearn now posts st)) = Map_get id st.
Proof.
  revert st. induction posts as [|post posts IH]; intros st Hne;
    [reflexivity|].
  cbn [batchLearn].
  pose proof (@learnFromPost_other now post None st id
                (Hne post (or_introl eq_refl))) as H1.
  destruct (learnFromPost now post None st) as [f st1]. simpl in H1.
  specialize (IH st1 (fun p Hp => Hne p (or_intror Hp))).
  destruct (batchLearn now posts st1) as [fs st2]. simpl in *. congruence.
Qed.
End LearningFrame.

(** X13. A call of [learnFromPost] touches one entry of the store, the one
    under the id generated from the platform and the detected types: the
    returned format is stored there, and every other id keeps its entry. A
    first learn appends an entry that takes id, platform, example post and
    creation time from the call; a learn on a stored id keeps the size and
    order of the store and changes nothing of the stored format but its
    score, usage count and [updatedAt]: name, description, types, template,
    example post and tags stay those of the first post. *)
Theorem learnFromPost_touches_one_entry `{CaseMapping} (now : jsstring)
        (post : ViralPost.t) (analysisResult : option AnalysisResult.t)
        (st : Store) :
  let id := learnedId now post analysisResult in
  let learned := fst (learnFromPost now post analysisResult st) in
  let st' := snd (learnFromPost now post analysisResult st) in
  getFormatById id st' = Some learned
  /\ (forall id', id' <> id -> getFormatById id' st' = getFormatById id' st)
  /\ FormatPattern.updatedAt learned = now
  /\ match getFormatById id st with
     | None =>
         st' = st ++ [(id, learned)]
         /\ FormatPattern.id learned = id
         /\ FormatPattern.platform learned = ViralPost.platform post
         /\ FormatPattern.examplePost learned = ViralPost.content post
         /\ FormatPattern.createdAt learned = now
     | Some existing =>
         map fst st' = map fst st
         /\ FormatPattern.id learned = FormatPattern.id existing
         /\ FormatPattern.name learned = FormatPattern.name existing
         /\ FormatPattern.description learned
            = FormatPattern.description existing
         /\ FormatPattern.platform learned = FormatPattern.platform existing
         /\ FormatPattern.hookType learned = FormatPattern.hookType existing
         /\ FormatPattern.bodyType learned = FormatPattern.bodyType existing
         /\ FormatPattern.ctaType learned = FormatPattern.ctaType existing
         /\ FormatPattern.template learned = FormatPattern.template existing
         /\ FormatPattern.examplePost learned
            = FormatPattern.examplePost existing
         /\ FormatPattern.tags learned = FormatPattern.tags existing
         /\ FormatPattern.createdAt learned
            = FormatPattern.createdAt existing
     end.
Proof.
  cbv zeta. unfold getFormatById.
  split; [apply learnFromPost_stored|].
  split; [intros id'; apply learnFromPost_other|].
  unfold learnedId, usedAnalysis, learnFromPost.
  destruct (Map_get _ st) as [existing|] eqn:E; simpl.
  - split; [reflexivity|].
    split; [now apply Map_set_keys_present with (v0 := existing)|].
    repeat split.
  - split; [reflexivity|].
    split; [now apply Map_set_absent|]. repeat split.
Qed.

(** ** Counting in batches *)

Section BatchCounts.
Context {CM : CaseMapping}.

Lemma storedCount_learnFromPost now post analysisResult st id :
  storedCount id (snd (learnFromPost now post analysisResult st))
  = (storedCount id st
     + if streq (learnedId now post analysisResult) id then 1 else 0)%Z.
Proof.
  destruct (streq (learnedId now post analysisResult) id) eqn:E.
  - apply streq_eq in E. subst id. unfold storedCount.
    rewrite learnFromPost_stored.
    unfold learnedId, usedAnalysis, learnFromPost.
    destruct (Map_get _ st) as [existing|]; reflexivity.
  - apply streq_neq in E. unfold storedCount.
    rewrite learnFromPost_other by congruence. lia.
Qed.

Lemma storedCount_batchLearn now posts st id :
  storedCount id (snd (batchLearn now posts st))
  = (storedCount id st
     + occurrences streq id
                   (map (fun post => learnedId now post None) posts))%Z.
Proof.
  revert st. induction posts as [|post posts IH]; intros st.
  - unfold occurrences, countIf, lengthZ. simpl. lia.
  - cbn [batchLearn map].
    pose proof (storedCount_learnFromPost now post None st id) as H1.
    destruct (learnFromPost now post None st) as [f st1]. cbn [snd] in H1.
    specialize (IH st1).
    destruct (batchLearn now posts st1) as [fs st2]. cbn [snd] in *.
    rewrite IH, H1, (occurrences_cons streq). lia.
Qed.

Lemma keys_learnFromPost now post analysisResult st :
  exists added,
    map fst (snd (learnFromPost now post analysisResult st))
    = map fst st ++ added.
Proof.
  unfold learnFromPost.
  destruct (Map_get _ st) as [existing|] eqn:E; cbn [snd].
  - exists []. rewrite app_nil_r.
    now apply Map_set_keys_present with (v0 := existing).
  - eexists. rewrite Map_set_absent by exact E. rewrite map_app.
    reflexivity.
Qed.

Lemma keys_batchLearn now posts st :
  exists added,
    map fst (snd (batchLearn now posts st)) = map fst st ++ added.
Proof.
  revert st. induction posts as [|post posts IH]; intros st.
  - exists []. now rewrite app_nil_r.
  - cbn [batchLearn].
    destruct (keys_learnFromPost now post None st) as (a1 & H1).
    destruct (learnFromPost now post None st) as [f st1]. cbn [snd] in H1.
    destruct (IH st1) as (a2 & H2).
    destruct (batchLearn now posts st1) as [fs st2]. cbn [snd] in *.
    exists (a1 ++ a2). now rewrite H2, H1, app_assoc.
Qed.

Lemma Map_has_learnFromPost now post analysisResult st id :
  Map_has id (snd (learnFromPost now post analysisResult st))
  = Map_has id st || streq id (learnedId now post analysisResult).
Proof.
  unfold Map_has.
  destruct (streq id (learnedId now post analysisResult)) eqn:E.
  - apply streq_eq in E. subst id. rewrite learnFromPost_stored.
    now rewrite orb_true_r.
  - apply streq_neq in E. rewrite learnFromPost_other by exact E.
    now rewrite orb_false_r.
Qed.

Lemma Map_has_batchLearn now posts st id :
  Map_has id (snd (batchLearn now posts st))
  = Map_has id st
    || existsb (streq id) (map (fun post => learnedId now post None) posts).
Proof.
  revert st. induction posts as [|post posts IH]; intros st.
  - simpl. now rewrite orb_false_r.
  - cbn [batchLearn map existsb].
    pose proof (Map_has_learnFromPost now post None st id) as H1.
    destruct (learnFromPost now post None st) as [f st1]. cbn [snd] in H1.
    specialize (IH st1).
    destruct (batchLearn now posts st1) as [fs st2]. cbn [snd] in *.
    now rewrite IH, H1, orb_assoc.
Qed.
End BatchCounts.

Lemma occurrences_Permutation {K} (eqb : K -> K -> bool) (k : K)
      (l l' : list K) :
  Permutation l l' -> occurrences eqb k l = occurrences eqb k l'.
Proof.
  intros Hperm. unfold occurrences, countIf, lengthZ. f_equal.
  induction Hperm; simpl; auto.
  - destruct (eqb x k); simpl; auto.
  - destruct (eqb x k), (eqb y k); simpl; auto.
  - congruence.
Qed.

(** X14. [batchLearn] counts the posts of each pattern. After a batch, the
    usage count stored for an id is the one stored before (0 when the id
    was not stored) plus the number of posts of the batch that generate
    this id; so the usage counts do not depend on the order of the posts
    (the scores do). An id is stored afterwards when it was stored before
    or is the id of a post of the batch; the ids stored before keep their
    places and the new ones come after them; one format is returned per
    post. *)
Theorem batchLearn_counts_posts `{CaseMapping} (now : jsstring)
        (posts : list ViralPost.t) (st : Store) :
  let ids := fun l => map (fun post => learnedId now post None) l in
  let st' := snd (batchLearn now posts st) in
  length (fst (batchLearn now posts st)) = length posts
  /\ (forall id,
         storedCount id st'
         = (storedCount id st + occurrences streq id (ids posts))%Z)
  /\ (forall posts' id,
         Permutation posts posts' ->
         storedCount id (snd (batchLearn now posts' st))
         = storedCount id st')
  /\ (forall id,
         Map_has id st' = Map_has id st || existsb (streq id) (ids posts))
  /\ (exists added, map fst st' = map fst st ++ added).
Proof.
  cbv zeta. split; [|split; [|split; [|split]]].
  - revert st. induction posts as [|post posts IH]; intros st; [reflexivity|].
    cbn [batchLearn]. destruct (learnFromPost now post None st) as [f st1].
    specialize (IH st1). destruct (batchLearn now posts st1) as [fs st2].
    simpl in *. now rewrite IH.
  - intros id. apply storedCount_batchLearn.
  - intros posts' id Hperm. rewrite !storedCount_batchLearn. f_equal.
    apply occurrences_Permutation. apply Permutation_map.
    now symmetry.
  - intros id. apply Map_has_batchLearn.
  - apply keys_batchLearn.
Qed.

Section SeedsAndLearning.
Context {CM : CaseMapping}.
Hypothesis Hlow : lowersAscii CM.

Lemma runLearnCall_seeded (c : LearnCall) (st : Store) (id : jsstring) :
  In id seedIds ->
  Map_get id (runLearnCall st c) = Map_get id st.
Proof.
  intros Hin. destruct c as [now post analysisResult|now posts]; simpl.
  - apply learnFromPost_other. intros ->. revert Hin.
    now apply generateFormatId_not_seeded.
  - apply batchLearn_other. intros post _ ->. revert Hin.
    now apply generateFormatId_not_seeded.
Qed.

Lemma runLearnCalls_seeded (calls : list LearnCall) (st : Store)
      (id : jsstring) :
  In id seedIds ->
  Map_get id (runLearnCalls calls st) = Map_get id st.
Proof.
  intros Hin. unfold runLearnCalls. revert st.
  induction calls as [|c calls IH]; intros st; [reflexivity|].
  cbn [fold_left]. rewrite IH. now apply runLearnCall_seeded.
Qed.
End SeedsAndLearning.

(** X15. Learning never reaches the seeded formats: the ids under which
    [initializeDefaultFormats] stores them are not of the form that
    [generateFormatId] produces, so after any sequence of [learnFromPost]
    and [batchLearn] calls each seed id maps to what it mapped to before;
    in the store of a fresh module the three seeded formats keep their
    scores of 75, 80 and 70 and their usage counts of 100, 150 and 200. *)
Theorem learning_never_updates_seeded_formats `{CM : CaseMapping}
        (calls : list LearnCall) (st : Store) :
  lowersAscii CM ->
  (forall id, In id seedIds ->
              getFormatById id (runLearnCalls calls st)
              = getFormatById id st)
  /\ (forall now,
         map (fun id =>
                option_map
                  (fun f => (FormatPattern.effectivenessScore f,
                             FormatPattern.usageCount f))
                  (getFormatById id (runLearnCalls calls (initialStore now))))
             seedIds
         = [Some (75%Q, 100%Z); Some (80%Q, 150%Z); Some (70%Q, 200%Z)]).
Proof.
  intros Hlow. unfold getFormatById. split.
  - intros id. now apply runLearnCalls_seeded.
  - intros now. unfold seedIds. cbn [map defaultFormats FormatPattern.id].
    rewrite !runLearnCalls_seeded by (exact Hlow || (vm_compute; tauto)).
    reflexivity.
Qed.

Lemma learning_never_updates_seeded_formats_witness :
  (forall id, In id seedIds ->
              getFormatById id
                (runLearnCalls
                   [ CallLearn sampleNow (samplePost linkedin scenario1) None;
                     CallBatch sampleNow [samplePost twitter statisticLine] ]
                   (initialStore sampleNow))
              = getFormatById id (initialStore sampleNow))
  /\ (forall now,
         map (fun id =>
                option_map
                  (fun f => (FormatPattern.effectivenessScore f,
                             FormatPattern.usageCount f))
                  (getFormatById id
                     (runLearnCalls
                        [ CallLearn sampleNow (samplePost linkedin scenario1)
                                    None;
                          CallBatch sampleNow
                                    [samplePost twitter statisticLine] ]
                        (initialStore now))))
             seedIds
         = [Some (75%Q, 100%Z); Some (80%Q, 150%Z); Some (70%Q, 200%Z)]).
Proof.
  apply (@learning_never_updates_seeded_formats asciiCase
           [ CallLearn sampleNow (samplePost linkedin scenario1) None;
             CallBatch sampleNow [samplePost twitter statisticLine] ]
           (initialStore sampleNow)).
  intros s _. reflexivity.
Defined.
Section RepeatedLearning.
Context {CM : CaseMapping}.

Lemma learnCalls_on_stored (k : jsstring)
      (calls : list (jsstring * ViralPost.t * option AnalysisResult.t)) :
  Forall (fun c => callId c = k) calls ->
  forall (st : Store) (f0 : FormatPattern.t),
    Map_get k st = Some f0 ->
    exists f,
      Map_get k (runLearnCalls (learnCalls calls) st) = Some f
      /\ FormatPattern.usageCount f
         = (FormatPattern.usageCount f0 + lengthZ calls)%Z
      /\ FormatPattern.examplePost f = FormatPattern.examplePost f0
      /\ FormatPattern.template f = FormatPattern.template f0
      /\ FormatPattern.tags f = FormatPattern.tags f0
      /\ FormatPattern.createdAt f = FormatPattern.createdAt f0.
Proof.
  induction 1 as [|[[now post] analysisResult] calls Hid Hall IH];
    intros st f0 Hget.
  - exists f0. unfold lengthZ. simpl. rewrite Z.add_0_r. auto 10.
  - unfold callId, learnedId in Hid. simpl in Hid.
    unfold learnCalls, runLearnCalls in *. cbn [map fold_left fst snd].
    cbn [runLearnCall]. unfold learnFromPost at 1.
    unfold usedAnalysis in Hid. rewrite Hid, Hget. cbn [snd].
    match goal with
    | |- context [Map_set k ?u st] => set (updated := u)
    end.
    destruct (IH (Map_set k updated st) updated) as (f & Hf & Hu & Hrest).
    + apply Map_get_set_same.
    + exists f. split; [exact Hf|]. split.
      * rewrite Hu. subst updated. unfold lengthZ. simpl length.
        cbn [FormatPattern.usageCount]. lia.
      * exact Hrest.
Qed.
End RepeatedLearning.

(** X16. Learning the same pattern repeatedly: when no format is stored for
    an id and a sequence of [learnFromPost] calls all generate that id, the
    format stored for it afterwards has the number of calls as its usage
    count, while its example post, template, tags and creation time are
    those of the first call: later posts of the pattern never refresh
    them. *)
Theorem repeated_learning_counts_posts `{CaseMapping}
        (first : jsstring * ViralPost.t * option AnalysisResult.t)
        (rest : list (jsstring * ViralPost.t * option AnalysisResult.t))
        (st : Store) :
  getFormatById (callId first) st = None ->
  Forall (fun c => callId c = callId first) rest ->
  exists f,
    getFormatById (callId first)
                  (runLearnCalls (learnCalls (first :: rest)) st)
    = Some f
    /\ FormatPattern.usageCount f = lengthZ (first :: rest)
    /\ FormatPattern.examplePost f = ViralPost.content (snd (fst first))
    /\ FormatPattern.template f
       = generateTemplate
           (ViralPost.content (snd (fst first)))
           (AnalysisResult.formatPattern
              (usedAnalysis (fst (fst first)) (snd (fst first)) (snd first)))
    /\ FormatPattern.tags f
       = extractTags
           (ViralPost.content (snd (fst first)))
           (usedAnalysis (fst (fst first)) (snd (fst first)) (snd first))
    /\ FormatPattern.createdAt f = fst (fst first).
Proof.
  unfold getFormatById. intros Hnone Hrest.
  destruct first as [[now post] analysisResult].
  unfold callId, learnedId in Hnone. simpl in Hnone.
  cbn [learnCalls map runLearnCalls fold_left fst snd runLearnCall].
  fold (learnCalls rest).
  change (fold_left runLearnCall (learnCalls rest))
    with (runLearnCalls (learnCalls rest)).
  unfold learnFromPost at 1. unfold usedAnalysis in Hnone.
  rewrite Hnone. cbn [snd].
  match goal with
  | |- context [Map_set ?k0 ?u st] => set (k := k0); set (created := u)
  end.
  destruct (@learnCalls_on_stored _ k rest Hrest
              (Map_set k created st) created)
    as (f & Hf & Hu & Hrest').
  - apply Map_get_set_same.
  - exists f. split; [exact Hf|]. split.
    + rewrite Hu. subst created. unfold lengthZ. simpl length.
      cbn [FormatPattern.usageCount]. lia.
    + exact Hrest'.
Qed.

Lemma repeated_learning_counts_posts_witness :
  exists f,
    getFormatById
      (callId (sampleNow, samplePost twitter (str "Stop guessing."),
               Some (sampleAnalysis 40)))
      (runLearnCalls
         (learnCalls
            [ (sampleNow, samplePost twitter (str "Stop guessing."),
               Some (sampleAnalysis 40));
              (str "t2", samplePost twitter (str "Start measuring."),
               Some (sampleAnalysis 80));
              (str "t3", samplePost twitter (str "Ship it."),
               Some (sampleAnalysis 60)) ])
         (initialStore sampleNow))
    = Some f
    /\ FormatPattern.usageCount f
       = lengthZ
           [ (sampleNow, samplePost twitter (str "Stop guessing."),
              Some (sampleAnalysis 40));
             (str "t2", samplePost twitter (str "Start measuring."),
              Some (sampleAnalysis 80));
             (str "t3", samplePost twitter (str "Ship it."),
              Some (sampleAnalysis 60)) ]
    /\ FormatPattern.examplePost f = str "Stop guessing."
    /\ FormatPattern.template f
       = generateTemplate
           (str "Stop guessing.")
           (AnalysisResult.formatPattern (sampleAnalysis 40))
    /\ FormatPattern.tags f
       = extractTags (str "Stop guessing.") (sampleAnalysis 40)
    /\ FormatPattern.createdAt f = sampleNow.
Proof.
  apply (@repeated_learning_counts_posts asciiCase
           (sampleNow, samplePost twitter (str "Stop guessing."),
            Some (sampleAnalysis 40))
           [ (str "t2", samplePost twitter (str "Start measuring."),
              Some (sampleAnalysis 80));
             (str "t3", samplePost twitter (str "Ship it."),
              Some (sampleAnalysis 60)) ]
           (initialStore sampleNow)).
  - vm_compute. reflexivity.
  - repeat constructor.
Defined.

(** ** The parser and the signals *)

Lemma line_lengths_partition (lengths : list Z) :
  (lengthZ (filter (fun l => l <? 30)%Z lengths)
   + lengthZ (filter (fun l => (30 <=? l) && (l <? 100))%Z lengths)
   + lengthZ (filter (fun l => 100 <=? l)%Z lengths)
   = lengthZ lengths)%Z.
Proof.
  unfold lengthZ. induction lengths as [|l t IH]; [reflexivity|].
  cbn [filter].
  destruct (l <? 30)%Z eqn:E1, (30 <=? l)%Z eqn:E2, (l <? 100)%Z eqn:E3,
           (100 <=? l)%Z eqn:E4; cbn [andb length];
    rewrite ?Nat2Z.inj_succ; try lia;
    apply Z.ltb_lt in E1 || apply Z.ltb_ge in E1;
    apply Z.leb_le in E2 || apply Z.leb_gt in E2;
    apply Z.ltb_lt in E3 || apply Z.ltb_ge in E3;
    apply Z.leb_le in E4 || apply Z.leb_gt in E4; lia.
Qed.

(** X17. The line statistics of [parsePostContent]: the lines are the
    non-blank lines of the content; every one of them is counted once as
    short (under 30), medium (30 to 99) or long (100 and more);
    [totalLineBreaks] is their number less one, so it ignores blank lines
    and is -1 exactly when the content has no non-blank line. *)
Theorem parsePostContent_line_statistics `{CaseMapping}
        (content : jsstring) :
  let parsed := parsePostContent content in
  let structure := lineBreakStructure parsed in
  lines parsed = filter nonBlank (splitChar LF content)
  /\ (shortLines structure + mediumLines structure + longLines structure
      = lengthZ (lines parsed))%Z
  /\ (totalLineBreaks structure = lengthZ (lines parsed) - 1)%Z
  /\ (totalLineBreaks structure = (-1)%Z <-> lines parsed = [])
  /\ (0 <= shortLines structure)%Z
  /\ (0 <= mediumLines structure)%Z
  /\ (0 <= longLines structure)%Z.
Proof.
  cbv zeta. unfold parsePostContent.
  cbn [lines lineBreakStructure]. unfold analyzeLineBreaks.
  cbn [shortLines mediumLines longLines totalLineBreaks].
  split; [reflexivity|]. split.
  - rewrite line_lengths_partition. unfold lengthZ. now rewrite length_map.
  - split; [reflexivity|]. split.
    + unfold lengthZ.
      destruct (filter nonBlank (splitChar LF content)); simpl length.
      * split; reflexivity.
      * split; [lia|discriminate].
    + unfold lengthZ. repeat split; apply Nat2Z.is_nonneg.
Qed.

Lemma EmotionalTrigger_eqb_spec (a b : EmotionalTrigger.t) :
  EmotionalTrigger.eqb a b = true <-> a = b.
Proof. destruct a, b; simpl; split; congruence. Qed.

Lemma triggers_fold (p : list jsstring -> bool)
      (table : list (EmotionalTrigger.t * list jsstring))
      (acc : list EmotionalTrigger.t) :
  NoDup (map fst table) ->
  (forall t, In t (map fst table) -> ~ In t acc) ->
  fold_left
    (fun detectedTriggers entry =>
       let '(trigger, words) := entry in
       if p words
       then if existsb (EmotionalTrigger.eqb trigger) detectedTriggers
            then detectedTriggers
            else detectedTriggers ++ [trigger]
       else detectedTriggers)
    table acc
  = acc ++ map fst (filter (fun entry => p (snd entry)) table).
Proof.
  revert acc. induction table as [|[t ws] table IH]; intros acc Hnd Hfresh.
  - simpl. now rewrite app_nil_r.
  - simpl in Hnd. inversion Hnd as [|? ? Hnotin Hnd']; subst.
    cbn [fold_left filter snd].
    destruct (p ws) eqn:Ep.
    + assert (E : existsb (EmotionalTrigger.eqb t) acc = false).
      { apply not_true_is_false. intros Hex.
        apply existsb_exists in Hex. destruct Hex as (x & Hx & Heq).
        apply EmotionalTrigger_eqb_spec in Heq. subst x.
        apply (Hfresh t); [now left|exact Hx]. }
      rewrite E, IH.
      * cbn [map fst]. now rewrite <- app_assoc.
      * exact Hnd'.
      * intros t' Ht' Hin. apply in_app_or in Hin.
        destruct Hin as [Hin|[->|[]]].
        -- apply (Hfresh t'); [now right|exact Hin].
        -- contradiction.
    + apply IH; [exact Hnd'|].
      intros t' Ht'. apply Hfresh. now right.
Qed.

Lemma NoDup_map_filter {A B} (keep : A -> bool) (key : A -> B)
      (table : list A) (Hdistinct : NoDup (map key table)) :
  NoDup (map key (filter keep table)).
Proof.
  induction table as [|row table IH]; simpl; [constructor|].
  inversion Hdistinct as [|? ? Hfresh Hrest]; subst.
  destruct (keep row); simpl; [|auto].
  constructor; [|auto].
  intros Hin. apply Hfresh. apply in_map_iff in Hin.
  destruct Hin as (y & Hy & Hin). apply filter_In in Hin.
  rewrite <- Hy. apply in_map. tauto.
Qed.

Lemma filter_length_bound {A} (p : A -> bool) (l : list A) :
  (length (filter p l) <= length l)%nat.
Proof.
  induction l as [|x l IH]; simpl; [lia|].
  destruct (p x); simpl; lia.
Qed.

Lemma EMOTIONAL_TRIGGER_WORDS_distinct :
  NoDup (map fst EMOTIONAL_TRIGGER_WORDS).
Proof.
  repeat constructor; simpl; intuition discriminate.
Qed.

(** X18. [detectEmotionalTriggers] returns, in the order of the table, the
    triggers that have a word occurring in the lowercased content: each at
    most once, so at most twelve (the guard against a repeated trigger
    never fires, the table having one entry per trigger). *)
Theorem detectEmotionalTriggers_in_table_order `{CaseMapping}
        (parsed : ParsedContent) :
  detectEmotionalTriggers parsed
  = map fst
        (filter (fun entry =>
                   existsb (fun word =>
                              includes (toLowerCase word)
                                       (toLowerCase (original parsed)))
                           (snd entry))
                EMOTIONAL_TRIGGER_WORDS)
  /\ NoDup (detectEmotionalTriggers parsed)
  /\ (length (detectEmotionalTriggers parsed) <= 12)%nat.
Proof.
  assert (E : detectEmotionalTriggers parsed
              = map fst
                  (filter (fun entry =>
                             existsb (fun word =>
                                        includes (toLowerCase word)
                                                 (toLowerCase
                                                    (original parsed)))
                                     (snd entry))
                          EMOTIONAL_TRIGGER_WORDS)).
  { unfold detectEmotionalTriggers.
    apply (triggers_fold
             (fun words =>
                existsb (fun word =>
                           includes (toLowerCase word)
                                    (toLowerCase (original parsed)))
                        words)
             EMOTIONAL_TRIGGER_WORDS []).
    - exact EMOTIONAL_TRIGGER_WORDS_distinct.
    - intros t _ []. }
  split; [exact E|]. rewrite E. split.
  - apply NoDup_map_filter. exact EMOTIONAL_TRIGGER_WORDS_distinct.
  - rewrite length_map.
    apply Nat.le_trans with (length EMOTIONAL_TRIGGER_WORDS);
      [apply filter_length_bound|].
    simpl. lia.
Qed.
(** ** Levels of confidence *)

Lemma fold_left_inv_In {A B} (P : A -> Prop) (f : A -> B -> A) (l : list B)
      (a : A) :
  P a -> (forall a x, In x l -> P a -> P (f a x)) -> P (fold_left f l a).
Proof.
  revert a. induction l as [|x l IH]; intros a Ha Hstep; simpl; [exact Ha|].
  apply IH.
  - apply Hstep; [now left|exact Ha].
  - intros a' y Hy. apply Hstep. now right.
Qed.

Section Levels.
Context {CM : CaseMapping}.

Lemma detectHookType_level (parsed : ParsedContent) :
  hookLevel (detectHookType parsed).
Proof.
  unfold detectHookType.
  match goal with
  | |- hookLevel (if _ && Qltb (confidence ?b) _ then _ else _) =>
      assert (Hb : (dtype b = HookType.NONE /\ confidence b = 0%Q)
                   \/ (dtype b <> HookType.NONE
                       /\ (confidence b = (7 # 10)%Q
                           \/ confidence b = (9 # 10)%Q)))
  end.
  { apply fold_left_inv; [left; split; reflexivity|].
    intros best [hookType pats] Hbest.
    destruct (HookType.eqb hookType HookType.NONE) eqn:E; [exact Hbest|].
    apply fold_left_inv; [exact Hbest|].
    intros b p Hb. destruct (matchEither p _ _) as [m|]; [|exact Hb].
    destruct (Qltb (confidence b) _); [|exact Hb].
    right. simpl. split.
    - intros ->. discriminate.
    - destruct (index m =? 0)%nat; auto. }
  destruct (_ && _).
  - right. right. split; reflexivity.
  - destruct Hb as [Hb|Hb]; [left|right; left]; exact Hb.
Qed.

Lemma detectCTAType_level (parsed : ParsedContent) :
  ctaLevel (detectCTAType parsed)
  /\ (dtype (detectCTAType parsed) = CTAType.LINK ->
      confidence (detectCTAType parsed) = (6 # 10)%Q ->
      hasLinks parsed = true).
Proof.
  unfold detectCTAType.
  set (best0 := fold_left _ CTA_PATTERNS _).
  assert (H0 : (dtype best0 = CTAType.NONE /\ confidence best0 = 0%Q)
               \/ (dtype best0 <> CTAType.NONE
                   /\ (confidence best0 = (7 # 10)%Q
                       \/ confidence best0 = (85 # 100)%Q))).
  { subst best0. apply fold_left_inv; [left; split; reflexivity|].
    intros best [ctaType pats] Hbest.
    destruct (CTAType.eqb ctaType CTAType.NONE) eqn:E; [exact Hbest|].
    apply fold_left_inv; [exact Hbest|].
    intros b p Hb. destruct (matchEither p _ _) as [m|]; [|exact Hb].
    destruct (Qltb (confidence b) _); [|exact Hb].
    right. simpl. split.
    - intros ->. discriminate.
    - destruct (includes _ _); auto. }
  cbv zeta.
  destruct (endsWithQuestionMark _ && Qltb (confidence best0) (7 # 10)).
  - cbn [confidence].
    change (Qltb (75 # 100) (6 # 10)) with false. rewrite andb_false_r.
    split.
    + right. right. left. split; reflexivity.
    + discriminate.
  - destruct (hasLinks parsed) eqn:Hl; cbn [andb].
    + destruct (Qltb (confidence best0) (6 # 10)) eqn:E.
      * split; [|reflexivity]. right. right. right. split; reflexivity.
      * split; [|reflexivity].
        destruct H0 as [H0|H0]; [left|right; left]; exact H0.
    + split.
      * destruct H0 as [H0|H0]; [left|right; left]; exact H0.
      * intros Hd Hc.
        destruct H0 as [[Hn _]|[_ [Hc'|Hc']]]; [congruence| |];
          rewrite Hc' in Hc; discriminate.
Qed.

Lemma half_steps_positive (z : Z) :
  (0 <= z)%Z -> Qltb 0 (ofZ z / 2) = true -> (1 # 2 <= ofZ z / 2)%Q.
Proof.
  intros Hz Hpos. apply Qltb_lt in Hpos. unfold ofZ in *.
  assert (Hz1 : (1 <= z)%Z).
  { destruct (Z.eq_dec z 0) as [->|Hne]; [|lia].
    exfalso. revert Hpos. vm_compute. discriminate. }
  apply Qle_shift_div_l; [reflexivity|].
  setoid_replace ((1 # 2) * 2)%Q with (inject_Z 1) by reflexivity.
  now rewrite <- Zle_Qle.
Qed.

Lemma detectBodyType_level (parsed : ParsedContent) :
  bodyLevel (detectBodyType parsed).
Proof.
  unfold detectBodyType.
  destruct (_ || _).
  - right. simpl. split; vm_compute; discriminate.
  - apply fold_left_inv.
    + left. repeat split.
    + intros best [bodyType rules] Hbest.
      set (n0 := fold_left _ (patterns rules) 0%Q).
      assert (Hn0 : exists z, (0 <= z)%Z /\ (n0 == ofZ z / 2)%Q).
      { subst n0. apply fold_left_inv.
        - exists 0%Z. split; [lia|reflexivity].
        - intros n p (z & Hz & E). destruct (testRe p _).
          + exists (z + 2)%Z. split; [lia|].
            rewrite E. unfold ofZ. rewrite inject_Z_plus. field.
          + exists z. auto. }
      match goal with
      | |- context [fold_left ?f (indicators rules) ?a] =>
          set (acc := fold_left f (indicators rules) a)
      end.
      assert (Hacc : exists z, (0 <= z)%Z /\ (fst acc == ofZ z / 2)%Q).
      { subst acc. apply fold_left_inv.
        - exact Hn0.
        - intros a ind (z & Hz & E). destruct (includes _ _).
          + exists (z + 1)%Z. split; [lia|]. simpl.
            rewrite E. unfold ofZ. rewrite inject_Z_plus. field.
          + exists z. auto. }
      destruct acc as [matchCount matchedIndicator]. simpl in Hacc.
      destruct Hacc as (z & Hz & E).
      destruct (Qltb 0 matchCount) eqn:Hpos; [|exact Hbest].
      destruct (Qltb (confidence best) _); [|exact Hbest].
      right. cbn [confidence].
      assert (Hhalf : (1 # 2 <= matchCount)%Q).
      { rewrite E. apply half_steps_positive; [exact Hz|].
        apply Qltb_lt. rewrite <- E. now apply Qltb_lt. }
      split.
      * apply Math_min_glb; lra.
      * apply Math_min_le_l.
Qed.
Lemma identifyFormatPattern_levels_aux (parsed : ParsedContent)
      (platform : Platform) :
  let detected := identifyFormatPattern parsed platform in
  hookLevel {| dtype := DetectedFormatPattern.hookType detected;
               confidence := DetectedFormatPattern.hookConfidence detected;
               matchedText := DetectedFormatPattern.hookText detected |}
  /\ bodyLevel
       {| dtype := DetectedFormatPattern.bodyType detected;
          confidence := DetectedFormatPattern.bodyConfidence detected;
          matchedText := DetectedFormatPattern.bodyStructure detected |}
  /\ ctaLevel {| dtype := DetectedFormatPattern.ctaType detected;
                 confidence := DetectedFormatPattern.ctaConfidence detected;
                 matchedText := DetectedFormatPattern.ctaText detected |}.
Proof.
  cbv zeta. unfold identifyFormatPattern.
  cbn [DetectedFormatPattern.hookType DetectedFormatPattern.hookConfidence
       DetectedFormatPattern.hookText DetectedFormatPattern.bodyType
       DetectedFormatPattern.bodyConfidence
       DetectedFormatPattern.bodyStructure DetectedFormatPattern.ctaType
       DetectedFormatPattern.ctaConfidence DetectedFormatPattern.ctaText].
  pose proof (detectHookType_level parsed) as Hh.
  pose proof (detectBodyType_level parsed) as Hb.
  destruct (detectCTAType_level parsed) as [Hc _].
  destruct (detectHookType parsed) as [ht hc htext].
  destruct (detectBodyType parsed) as [bt bc btext].
  destruct (detectCTAType parsed) as [ct cc ctext].
  split; [exact Hh|]. split; [exact Hb|exact Hc].
Qed.
End Levels.

(** X19. The levels of [identifyFormatPattern]. The hook is NONE at
    confidence 0, or a rule's type at 0.7 or 0.9, or QUESTION at 0.85. The
    call to action is NONE at 0, or a rule's type at 0.7 or 0.85, or
    QUESTION_TO_AUDIENCE at 0.75, or LINK at 0.6. The body is the default
    INSIGHT_SHARING at 0.3 with structure general, or has a confidence
    between 0.475 and 0.9. So a type other than NONE never comes with
    confidence 0, and NONE never with another. *)
Theorem identifyFormatPattern_levels `{CaseMapping}
        (parsed : ParsedContent) (platform : Platform) :
  let detected := identifyFormatPattern parsed platform in
  hookLevel {| dtype := DetectedFormatPattern.hookType detected;
               confidence := DetectedFormatPattern.hookConfidence detected;
               matchedText := DetectedFormatPattern.hookText detected |}
  /\ bodyLevel
       {| dtype := DetectedFormatPattern.bodyType detected;
          confidence := DetectedFormatPattern.bodyConfidence detected;
          matchedText := DetectedFormatPattern.bodyStructure detected |}
  /\ ctaLevel {| dtype := DetectedFormatPattern.ctaType detected;
                 confidence := DetectedFormatPattern.ctaConfidence detected;
                 matchedText := DetectedFormatPattern.ctaText detected |}
  /\ (DetectedFormatPattern.hookType detected = HookType.NONE
      <-> DetectedFormatPattern.hookConfidence detected = 0%Q)
  /\ (DetectedFormatPattern.ctaType detected = CTAType.NONE
      <-> DetectedFormatPattern.ctaConfidence detected = 0%Q).
Proof.
  cbv zeta.
  destruct (identifyFormatPattern_levels_aux parsed platform)
    as (Hh & Hb & Hc).
  split; [exact Hh|]. split; [exact Hb|]. split; [exact Hc|].
  unfold hookLevel, ctaLevel in *. cbn [dtype confidence] in *.
  split; split; intros E.
  - destruct Hh as [[_ ?]|[[? _]|[? _]]]; congruence.
  - destruct Hh as [[? _]|[[_ [?|?]]|[_ ?]]]; congruence.
  - destruct Hc as [[_ ?]|[[? _]|[[? _]|[? _]]]]; congruence.
  - destruct Hc as [[? _]|[[_ [?|?]]|[[_ ?]|[_ ?]]]]; congruence.
Qed.
(** ** Ranges of the analysis *)

Lemma Math_max_spec (a b : Q) :
  ((a <= b)%Q /\ Math_max a b = b) \/ ((b <= a)%Q /\ Math_max a b = a).
Proof.
  unfold Math_max. destruct (Qle_bool a b) eqn:E.
  - left. split; [now apply Qle_bool_iff|reflexivity].
  - right. split; [|reflexivity].
    apply Qlt_le_weak. apply Qnot_le_lt. intros H.
    apply Qle_bool_iff in H. congruence.
Qed.

Lemma Math_round_mono (a b : Q) :
  (a <= b)%Q -> (Math_round a <= Math_round b)%Z.
Proof.
  intros H. unfold Math_round. apply Qfloor_resp_le. lra.
Qed.

Lemma Math_round_ofZ (z : Z) : Math_round (ofZ z) = z.
Proof.
  unfold Math_round, ofZ.
  pose proof (Qfloor_le (inject_Z z + (1 # 2))) as Hle.
  pose proof (Qlt_floor (inject_Z z + (1 # 2))) as Hlt.
  set (f := Qfloor (inject_Z z + (1 # 2))) in *.
  assert (H1 : (inject_Z f < inject_Z (z + 1))%Q).
  { rewrite inject_Z_plus. change (inject_Z 1) with 1%Q. lra. }
  assert (H2 : (inject_Z z < inject_Z (f + 1))%Q).
  { rewrite inject_Z_plus in *. change (inject_Z 1) with 1%Q in *. lra. }
  rewrite <- Zlt_Qlt in H1, H2. lia.
Qed.

Lemma calculateHookScore_ge (d : DetectedFormatPattern.t) :
  (0 <= DetectedFormatPattern.hookConfidence d)%Q ->
  (5 <= calculateHookScore d)%Q.
Proof.
  intros Hc. unfold calculateHookScore.
  apply Math_min_glb; [lra|]. destruct (negb _); lra.
Qed.

Lemma calculateBodyScore_ge (parsed : ParsedContent)
      (d : DetectedFormatPattern.t) :
  (3 # 10 <= DetectedFormatPattern.bodyConfidence d)%Q ->
  (121 # 10 <= calculateBodyScore parsed d)%Q.
Proof.
  intros Hc. unfold calculateBodyScore.
  apply Math_min_glb; [lra|].
  destruct (negb _), (3 <? _)%Z, (1 <? _)%nat; lra.
Qed.

Lemma calculateCTAScore_ge (d : DetectedFormatPattern.t) :
  DetectedFormatPattern.ctaType d = CTAType.NONE
  \/ (6 # 10 <= DetectedFormatPattern.ctaConfidence d)%Q ->
  (5 <= calculateCTAScore d)%Q.
Proof.
  intros Hc. unfold calculateCTAScore.
  destruct (CTAType.eqb _ _) eqn:E; [lra|].
  destruct Hc as [Hn|Hc]; [rewrite Hn in E; discriminate|].
  apply Math_min_glb; [lra|].
  revert E. destruct (DetectedFormatPattern.ctaType d); intros E;
    try discriminate E; simpl; lra.
Qed.

Lemma calculateFormatScore_ge (parsed : ParsedContent) (pl : Platform) :
  (5 <= calculateFormatScore parsed pl)%Q.
Proof.
  unfold calculateFormatScore. apply Math_min_glb; [lra|].
  destruct pl.
  - destruct (3 <=? _)%Z, (2 <=? _)%nat, (_ && _); lra.
  - destruct (hasHashtags parsed), (1 <=? _)%Z, (_ <=? 280)%Z; lra.
Qed.

Lemma calculatePlatformFitScore_ge (parsed : ParsedContent)
      (pl : Platform) :
  (5 <= calculatePlatformFitScore parsed pl)%Q.
Proof.
  unfold calculatePlatformFitScore. apply Math_min_glb; [lra|].
  destruct pl.
  - destruct (_ && _), (2 <=? _)%nat; lra.
  - destruct (_ <=? 280)%Z, (hasHashtags parsed); lra.
Qed.

Section AnalysisRanges.
Context {CM : CaseMapping}.

Lemma calculateLengthScore_bounds (parsed : ParsedContent)
      (platform : Platform) :
  (0 <= calculateLengthScore parsed platform <= 100)%Q.
Proof.
  unfold calculateLengthScore.
  destruct (match platform with
            | linkedin => (150, 300)%Z
            | twitter => (50, 280)%Z
            end) as [min' max'].
  destruct (_ && _) eqn:E; [lra|].
  destruct (wordCount parsed <? min')%Z eqn:E1.
  - apply Z.ltb_lt in E1.
    assert (H : (0 <= ofZ (min' - wordCount parsed))%Q)
      by (unfold ofZ; rewrite <- (Zle_Qle 0); lia).
    destruct (Math_max_spec 0 (100 - ofZ (min' - wordCount parsed) * 2))
      as [[Hle ->]|[Hle ->]]; lra.
  - apply Z.ltb_ge in E1.
    assert (H : (0 <= ofZ (wordCount parsed - max'))%Q).
    { unfold ofZ. rewrite <- (Zle_Qle 0).
      apply andb_false_iff in E. destruct E as [E|E].
      - apply Z.leb_gt in E. lia.
      - apply Z.leb_gt in E. lia. }
    destruct (Math_max_spec 0 (100 - ofZ (wordCount parsed - max') * (1 # 2)))
      as [[Hle ->]|[Hle ->]]; lra.
Qed.

Lemma calculateHookStrengthScore_bounds (parsed : ParsedContent) :
  (50 <= calculateHookStrengthScore parsed <= 100)%Q.
Proof.
  unfold calculateHookStrengthScore. split; [|apply Math_min_le_l].
  apply Math_min_glb; [lra|].
  destruct (endsWith _ _), (test noFlags (seqs _) _),
    (test noFlags (Seq Bol digits) _), (_ <? 100)%nat,
    (test noFlags (CharSet _ _) _); lra.
Qed.

Lemma calculateReadabilityScore_bounds (parsed : ParsedContent) :
  (70 <= calculateReadabilityScore parsed <= 100)%Q.
Proof.
  unfold calculateReadabilityScore. split; [|apply Math_min_le_l].
  apply Math_min_glb; [lra|].
  destruct (_ <? 80)%Z, (1 <? _)%nat, (_ <? _)%Z, (Qltb _ 6); lra.
Qed.

Lemma calculateEngagementPotential_bounds (parsed : ParsedContent) :
  (40 <= calculateEngagementPotential parsed <= 100)%Q.
Proof.
  unfold calculateEngagementPotential. split; [|apply Math_min_le_l].
  apply Math_min_glb; [lra|].
  destruct (hasEmoji parsed), (hasHashtags parsed), (hasNumbers parsed),
    (includes _ _), (test _ _ _); lra.
Qed.

Lemma hookLevel_range (d : Detection HookType.t) :
  hookLevel d -> (0 <= confidence d <= 9 # 10)%Q.
Proof.
  intros [[_ ->] | [[_ [-> | ->]] | [_ ->]]]; lra.
Qed.

Lemma bodyLevel_range (d : Detection BodyType.t) :
  bodyLevel d -> (3 # 10 <= confidence d <= 9 # 10)%Q.
Proof.
  intros [(_ & -> & _) | [H1 H2]]; lra.
Qed.

Lemma ctaLevel_range (d : Detection CTAType.t) :
  ctaLevel d ->
  (0 <= confidence d <= 85 # 100)%Q
  /\ (dtype d = CTAType.NONE \/ (6 # 10 <= confidence d)%Q).
Proof.
  intros [[Hn ->] | [[_ [-> | ->]] | [[_ ->] | [_ ->]]]];
    (split; [lra|]); try (right; lra). now left.
Qed.
End AnalysisRanges.

Section AnalyzerScore.
Context {CM : CaseMapping}.

Lemma analyzePost_score_integer (now : jsstring) (post : ViralPost.t) :
  exists z, AnalysisResult.viralityScore (analyzePost now post) = ofZ z
            /\ (32 <= z <= 100)%Z.
Proof.
  unfold analyzePost. cbn [AnalysisResult.viralityScore].
  set (parsed := parsePostContent (ViralPost.content post)).
  set (platform := ViralPost.platform post).
  pose proof (identifyFormatPattern_levels_aux parsed platform)
    as (Hh & Hb & Hc).
  set (d := identifyFormatPattern parsed platform) in *.
  set (signals := extractViralSignals parsed platform).
  apply hookLevel_range in Hh. apply bodyLevel_range in Hb.
  apply ctaLevel_range in Hc. destruct Hc as [Hc Hc'].
  cbn [confidence dtype] in Hh, Hb, Hc, Hc'.
  destruct (@calculateViralityScore_bounds post parsed d signals
              ltac:(lra) ltac:(lra) ltac:(lra))
    as ([_ Hsum100] & Hboost & Hplain & _).
  assert (Hsum : (321 # 10 <= sixTermSum post parsed d signals)%Q).
  { unfold sixTermSum.
    pose proof (@calculateHookScore_ge d ltac:(lra)).
    pose proof (@calculateBodyScore_ge parsed d ltac:(lra)).
    pose proof (@calculateCTAScore_ge d Hc').
    pose proof (calculateEmotionalScore_bounds signals).
    pose proof (calculateFormatScore_ge parsed (ViralPost.platform post)).
    pose proof (calculatePlatformFitScore_ge parsed
                  (ViralPost.platform post)).
    lra. }
  destruct (engagementBoost post) eqn:E.
  - rewrite (Hboost eq_refl). eexists. split; [reflexivity|]. split.
    + rewrite <- (Math_round_ofZ 32). apply Math_round_mono.
      change (ofZ 32) with 32%Q. apply Math_min_glb; lra.
    + rewrite <- (Math_round_ofZ 100). apply Math_round_mono.
      apply Math_min_le_l.
  - rewrite (Hplain eq_refl). eexists. split; [reflexivity|]. split.
    + rewrite <- (Math_round_ofZ 32). apply Math_round_mono.
      change (ofZ 32) with 32%Q. lra.
    + rewrite <- (Math_round_ofZ 100). apply Math_round_mono.
      change (ofZ 100) with 100%Q. lra.
Qed.
End AnalyzerScore.

(** X20. The ranges of [analyzePost]: the virality score is an integer
    between 32 and 100, since every term of the score has a floor (5 for
    the hook, 12.1 for the body, 5 for the call to action, 5 for the format
    and 5 for the platform fit), so no content, not even the empty string,
    scores below 32; the confidence is a multiple of 0.01 between 0.19 and
    0.92; and the four virality indicators lie in [0, 100], hook strength
    from 50, readability from 70 and engagement potential from 40. *)
Theorem analyzePost_ranges `{CaseMapping} (now : jsstring)
        (post : ViralPost.t) :
  let analysis := analyzePost now post in
  (exists z, AnalysisResult.viralityScore analysis = ofZ z
             /\ (32 <= z <= 100)%Z)
  /\ (exists z, AnalysisResult.confidence analysis = (ofZ z / 100)%Q
                /\ (19 <= z <= 92)%Z)
  /\ (exists len hook read eng,
         map ViralityIndicator.score
             (viralityIndicators (AnalysisResult.viralSignals analysis))
         = [len; hook; read; eng]
         /\ (0 <= len <= 100)%Q /\ (50 <= hook <= 100)%Q
         /\ (70 <= read <= 100)%Q /\ (40 <= eng <= 100)%Q).
Proof.
  cbv zeta. unfold analyzePost.
  cbn [AnalysisResult.viralityScore AnalysisResult.confidence
       AnalysisResult.viralSignals].
  set (parsed := parsePostContent (ViralPost.content post)).
  set (platform := ViralPost.platform post).
  pose proof (identifyFormatPattern_levels_aux parsed platform)
    as (Hh & Hb & Hc).
  set (d := identifyFormatPattern parsed platform) in *.
  set (signals := extractViralSignals parsed platform).
  apply hookLevel_range in Hh. apply bodyLevel_range in Hb.
  apply ctaLevel_range in Hc. destruct Hc as [Hc Hc'].
  cbn [confidence dtype] in Hh, Hb, Hc, Hc'.
  pose proof (calculateLengthScore_bounds parsed platform) as Hlen.
  pose proof (calculateHookStrengthScore_bounds parsed) as Hhook.
  pose proof (calculateReadabilityScore_bounds parsed) as Hread.
  pose proof (calculateEngagementPotential_bounds parsed) as Heng.
  split; [|split].
  - exact (analyzePost_score_integer now post).
  - unfold calculateOverallConfidence. eexists. split; [reflexivity|].
    subst signals. unfold extractViralSignals, calculateViralityIndicators.
    cbn [viralityIndicators fold_left ViralityIndicator.score length].
    unfold lengthZ. cbn [length].
    change (ofZ (Z.of_nat 4)) with 4%Q.
    split.
    + rewrite <- (Math_round_ofZ 19). apply Math_round_mono.
      change (ofZ 19) with 19%Q.
      apply Qle_trans
        with (((0 + (3 # 10) + 0) / 3 * (7 # 10)
               + (0 + 0 + 50 + 70 + 40) / (4 * 100) * (3 # 10)) * 100)%Q;
        [vm_compute; discriminate|].
      apply Qmult_le_compat_r; [|lra].
      apply Qplus_le_compat.
      * apply Qmult_le_compat_r; [|lra].
        apply Qmult_le_compat_r; [lra|]. vm_compute. discriminate.
      * apply Qmult_le_compat_r; [|lra].
        apply Qmult_le_compat_r; [lra|]. vm_compute. discriminate.
    + rewrite <- (Math_round_ofZ 92). apply Math_round_mono.
      change (ofZ 92) with 92%Q.
      apply Qle_trans
        with ((((9 # 10) + (9 # 10) + (85 # 100)) / 3 * (7 # 10)
               + (0 + 100 + 100 + 100 + 100) / (4 * 100) * (3 # 10)) * 100)%Q;
        [|vm_compute; discriminate].
      apply Qmult_le_compat_r; [|lra].
      apply Qplus_le_compat.
      * apply Qmult_le_compat_r; [|lra].
        apply Qmult_le_compat_r; [lra|]. vm_compute. discriminate.
      * apply Qmult_le_compat_r; [|lra].
        apply Qmult_le_compat_r; [lra|]. vm_compute. discriminate.
  - subst signals. unfold extractViralSignals, calculateViralityIndicators.
    cbn [viralityIndicators map ViralityIndicator.score].
    do 4 eexists. split; [reflexivity|]. auto.
Qed.
(** ** Topics and tags *)

Lemma fold_left_collect {A B} (p : A -> bool) (g : A -> B) (l : list A)
      (acc : list B) :
  fold_left (fun acc x => if p x then acc ++ [g x] else acc) l acc
  = acc ++ map g (filter p l).
Proof.
  revert acc. induction l as [|x l IH]; intros acc; simpl.
  - now rewrite app_nil_r.
  - rewrite IH. destruct (p x); [|reflexivity].
    simpl. now rewrite <- app_assoc.
Qed.

Lemma fold_left_push {A B} (g : A -> B) (l : list A) (acc : list B) :
  fold_left (fun acc x => acc ++ [g x]) l acc = acc ++ map g l.
Proof.
  revert acc. induction l as [|x l IH]; intros acc; simpl.
  - now rewrite app_nil_r.
  - rewrite IH. now rewrite <- app_assoc.
Qed.

Lemma In_firstn_incl {A} (n : nat) (x : A) (l : list A) :
  In x (firstn n l) -> In x l.
Proof.
  intros Hin. rewrite <- (firstn_skipn n l). apply in_or_app. now left.
Qed.

Lemma NoDup_firstn {A} (n : nat) (l : list A) :
  NoDup l -> NoDup (firstn n l).
Proof.
  intros Hnd. rewrite <- (firstn_skipn n l) in Hnd.
  now apply NoDup_app_remove_r in Hnd.
Qed.

Lemma dedup_In (x : jsstring) (l : list jsstring) :
  In x (dedup l) <-> In x l.
Proof.
  induction l as [|y t IH]; simpl; [tauto|].
  rewrite filter_In, IH. split.
  - intros [->|[Hin _]]; auto.
  - intros [->|Hin]; [now left|].
    destruct (streq y x) eqn:E.
    + apply streq_eq in E. now left.
    + right. split; [exact Hin|]. cbv beta. rewrite ?E. reflexivity.
Qed.

Lemma dedup_NoDup (l : list jsstring) : NoDup (dedup l).
Proof.
  induction l as [|y t IH]; simpl; constructor.
  - rewrite filter_In. intros [_ H]. cbv beta in H.
    now rewrite streq_refl in H.
  - now apply NoDup_filter.
Qed.

Lemma topicPatterns_distinct : NoDup (map fst topicPatterns).
Proof.
  repeat constructor; simpl; intros H;
    repeat (destruct H as [H|H]; [discriminate H|]); exact H.
Qed.

Section Topics.
Context {CM : CaseMapping}.

Lemma analyzeTopicRelevance_unsorted (parsed : ParsedContent) :
  analyzeTopicRelevance parsed
  = sortDesc TopicRelevance.relevanceScore
             (map (topicEntry parsed)
                  (filter (fun entry => (0 <? topicHits parsed entry)%Z)
                          topicPatterns)).
Proof.
  unfold analyzeTopicRelevance. f_equal.
  rewrite <- (app_nil_l (map _ _)), <- fold_left_collect.
  apply fold_left_ext. intros acc [topic keywords]. reflexivity.
Qed.

Lemma topicEntry_score (parsed : ParsedContent)
      (entry : jsstring * list jsstring) :
  (0 <? topicHits parsed entry)%Z = true ->
  (3 # 10 <= TopicRelevance.relevanceScore (topicEntry parsed entry))%Q
  /\ (TopicRelevance.relevanceScore (topicEntry parsed entry) <= 1)%Q.
Proof.
  intros Hpos. apply Z.ltb_lt in Hpos. unfold topicEntry. simpl.
  split; [|apply Math_min_le_l].
  apply Math_min_glb; [lra|].
  assert (H : (1 <= ofZ (topicHits parsed entry))%Q).
  { unfold ofZ. rewrite <- (Zle_Qle 1). lia. }
  lra.
Qed.
End Topics.

(** X21. [analyzeTopicRelevance] ranks the topics of its table that have a
    keyword in the lowercased content: one entry per such topic, with
    relevance 0.3 per keyword found capped at 1, hence between 0.3 and 1,
    in descending order of relevance, topics of equal relevance in table
    order; at most six entries, no topic twice. *)
Theorem analyzeTopicRelevance_ranked `{CaseMapping}
        (parsed : ParsedContent) :
  let found :=
    map (topicEntry parsed)
        (filter (fun entry => (0 <? topicHits parsed entry)%Z)
                topicPatterns) in
  let ranked := analyzeTopicRelevance parsed in
  Permutation ranked found
  /\ descending (map TopicRelevance.relevanceScore ranked)
  /\ (forall q,
         filter (fun r => Qeq_bool (TopicRelevance.relevanceScore r) q)
                ranked
         = filter (fun r => Qeq_bool (TopicRelevance.relevanceScore r) q)
                  found)
  /\ Forall (fun r => (3 # 10 <= TopicRelevance.relevanceScore r)%Q
                      /\ (TopicRelevance.relevanceScore r <= 1)%Q)
            ranked
  /\ NoDup (map TopicRelevance.topic ranked)
  /\ (length ranked <= 6)%nat.
Proof.
  cbv zeta. rewrite analyzeTopicRelevance_unsorted.
  set (found := map _ (filter _ topicPatterns)).
  assert (Hperm : Permutation (sortDesc TopicRelevance.relevanceScore found)
                              found) by apply sortDesc_perm.
  split; [exact Hperm|]. split; [apply sortDesc_descending|].
  split; [intros q; apply sortDesc_stable|].
  split; [|split].
  - apply Forall_forall. intros r Hr.
    apply (Permutation_in _ Hperm) in Hr. subst found.
    apply in_map_iff in Hr. destruct Hr as (entry & <- & Hin).
    apply filter_In in Hin. now apply topicEntry_score.
  - apply Permutation_NoDup with (map TopicRelevance.topic found).
    + apply Permutation_map. now symmetry.
    + subst found. rewrite map_map. cbn [topicEntry TopicRelevance.topic].
      apply NoDup_map_filter. exact topicPatterns_distinct.
  - rewrite (Permutation_length Hperm). subst found. rewrite length_map.
    apply Nat.le_trans with (length topicPatterns);
      [apply filter_length_bound|].
    simpl. lia.
Qed.

(** X22. [extractTags] returns at most ten tags, none twice, each the name
    of a topic of its keyword table or the value of an emotional trigger of
    the analysis. *)
Theorem extractTags_bounded_distinct `{CaseMapping} (content : jsstring)
        (analysis : AnalysisResult.t) :
  (length (extractTags content analysis) <= 10)%nat
  /\ NoDup (extractTags content analysis)
  /\ (forall tag, In tag (extractTags content analysis) ->
        In tag (map fst topicKeywords)
        \/ In tag (map EmotionalTrigger.value
                       (emotionalTriggers
                          (AnalysisResult.viralSignals analysis)))).
Proof.
  unfold extractTags. split; [apply firstn_le_length|].
  split; [apply NoDup_firstn, dedup_NoDup|].
  intros tag Hin. apply In_firstn_incl in Hin.
  apply (proj1 (dedup_In _ _)) in Hin.
  rewrite fold_left_push in Hin.
  rewrite (fold_left_ext _
             (fun tags entry =>
                if existsb (fun kw => includes kw (toLowerCase content))
                           (snd entry)
                then tags ++ [fst entry] else tags))
    in Hin by (intros tags [topic keywords]; reflexivity).
  rewrite fold_left_collect in Hin. rewrite app_nil_l in Hin.
  apply in_app_or in Hin. destruct Hin as [Hin|Hin]; [left|right; exact Hin].
  apply in_map_iff in Hin. destruct Hin as (entry & <- & Hin).
  apply filter_In in Hin. apply in_map. tauto.
Qed.
(** ** The content validator *)

Lemma quality_clamp (e w bonus : Z) :
  (0 <= e <= 2)%Z -> (0 <= w <= 2)%Z -> (0 <= bonus)%Z ->
  (30 <= Z.max 0 (Z.min 100 (100 - e * 25 - w * 10 + bonus)) <= 100)%Z
  /\ (e = 0%Z ->
      (80 <= Z.max 0 (Z.min 100 (100 - e * 25 - w * 10 + bonus)))%Z).
Proof. lia. Qed.

Section ValidatorProperties.
Context {CM : CaseMapping}.

Lemma calculateQualityScore_bonus (content : jsstring) (platform : Platform)
      (errors' warnings' : list jsstring) :
  exists bonus,
    (0 <= bonus)%Z
    /\ calculateQualityScore content platform errors' warnings'
       = Z.max 0 (Z.min 100 (100 - lengthZ errors' * 25
                             - lengthZ warnings' * 10 + bonus)).
Proof.
  unfold calculateQualityScore.
  destruct (includes [LF] content && Platform_eqb platform linkedin),
    (test flagM numberedLineRegex content), (includes (str "?") content);
    eexists; (split; [|f_equal; f_equal;
                       match goal with
                       | |- ?l = (?a + ?b)%Z => instantiate (1 := (l - a)%Z)
                       end; lia]); lia.
Qed.
End ValidatorProperties.

(** X23. [validateContent]: the content is valid exactly when its length is
    within the limits of the platform and it is not blank, and exactly when
    no error is reported; there are at most two errors (too short and too
    long exclude each other) and at most two warnings; the score lies
    between 30 and 100, and is at least 80 for valid content. *)
Theorem validateContent_sound `{CaseMapping} (content : jsstring)
        (platform : Platform) :
  let limits := PLATFORM_LIMITS platform in
  let validation := validateContent content platform in
  (isValid validation = true
   <-> (PlatformLimits.min limits <= lengthZ content
        <= PlatformLimits.max limits)%Z
       /\ trim content <> [])
  /\ (isValid validation = true <-> errors validation = [])
  /\ (length (errors validation) <= 2)%nat
  /\ (length (warnings validation) <= 2)%nat
  /\ (30 <= score validation <= 100)%Z
  /\ (isValid validation = true -> (80 <= score validation)%Z).
Proof.
  cbv zeta. unfold validateContent.
  cbn [isValid errors warnings score].
  set (len := lengthZ content).
  set (tooShort := (len <? PlatformLimits.min (PLATFORM_LIMITS platform))%Z).
  set (tooLong := (PlatformLimits.max (PLATFORM_LIMITS platform) <? len)%Z).
  set (blank := (length (trim content) =? 0)%nat).
  match goal with
  | |- context [calculateQualityScore content platform ?e ?w] =>
      set (errs := e); set (warns := w)
  end.
  assert (Hrange : (PlatformLimits.min (PLATFORM_LIMITS platform)
                    <= PlatformLimits.max (PLATFORM_LIMITS platform))%Z)
    by (destruct platform; simpl; lia).
  assert (Hshort : tooShort = true
                   <-> (len < PlatformLimits.min (PLATFORM_LIMITS platform))%Z)
    by apply Z.ltb_lt.
  assert (Hlong : tooLong = true
                  <-> (PlatformLimits.max (PLATFORM_LIMITS platform) < len)%Z)
    by apply Z.ltb_lt.
  assert (Hblank : blank = true <-> trim content = []).
  { unfold blank. rewrite Nat.eqb_eq. apply length_zero_iff_nil. }
  assert (Hexcl : tooShort && tooLong = false).
  { destruct tooShort eqn:E1, tooLong eqn:E2; try reflexivity.
    exfalso. destruct Hshort as [Hs _], Hlong as [Hl _].
    specialize (Hs eq_refl). specialize (Hl eq_refl). lia. }
  assert (Herrs : length errs
                  = ((if tooShort then 1 else 0)
                     + (if tooLong then 1 else 0)
                     + (if blank then 1 else 0))%nat).
  { subst errs. rewrite !length_app.
    destruct tooShort, tooLong, blank; reflexivity. }
  assert (Hwarns : (length warns <= 2)%nat).
  { subst warns. rewrite !length_app.
    destruct platform; cbn [Platform_eqb andb];
      repeat match goal with
             | |- context [if ?b then _ else _] => destruct b
             end; simpl; lia. }
  destruct (calculateQualityScore_bonus content platform errs warns)
    as (bonus & Hbonus & ->).
  assert (Hvalid : (length errs =? 0)%nat = true
                   <-> tooShort = false /\ tooLong = false /\ blank = false).
  { rewrite Nat.eqb_eq, Herrs.
    destruct tooShort, tooLong, blank; simpl; intuition congruence. }
  assert (He2 : (length errs <= 2)%nat).
  { rewrite Herrs. destruct tooShort, tooLong, blank; simpl; try lia;
      discriminate Hexcl. }
  split; [|split; [|split; [exact He2|split; [exact Hwarns|]]]].
  - rewrite Hvalid. fold len. split.
    + intros (Hs & Hl & Hb). split.
      * split.
        -- destruct (Z.lt_ge_cases
                       len (PlatformLimits.min (PLATFORM_LIMITS platform)))
             as [Hlt|Hge]; [|exact Hge].
           apply Hshort in Hlt. congruence.
        -- destruct (Z.lt_ge_cases
                       (PlatformLimits.max (PLATFORM_LIMITS platform)) len)
             as [Hlt|Hge]; [|exact Hge].
           apply Hlong in Hlt. congruence.
      * intros E. apply Hblank in E. congruence.
    + intros [[Hmin Hmax] Hne].
      repeat split; apply not_true_is_false; intros E.
      * apply Hshort in E. lia.
      * apply Hlong in E. lia.
      * apply Hblank in E. contradiction.
  - rewrite Nat.eqb_eq. apply length_zero_iff_nil.
  - assert (H1 : (0 <= lengthZ errs <= 2)%Z) by (unfold lengthZ; lia).
    assert (H2 : (0 <= lengthZ warns <= 2)%Z) by (unfold lengthZ; lia).
    destruct (quality_clamp H1 H2 Hbonus) as [Hq Hq0].
    split; [exact Hq|].
    intros Hv. apply Hq0. apply Nat.eqb_eq in Hv. unfold lengthZ.
    now rewrite Hv.
Qed.

Lemma bump_steps (b : bool) (s : Z) :
  (exists k, (0 <= k)%Z /\ s = (50 + 5 * k)%Z) ->
  exists k, (0 <= k)%Z /\ (if b then (s + 5)%Z else s) = (50 + 5 * k)%Z.
Proof.
  intros (k & Hk & ->).
  destruct b; [exists (k + 1)%Z|exists k]; split; lia.
Qed.

Lemma fold_bump_steps (p : jsstring -> bool) (l : list jsstring) (s : Z) :
  (exists k, (0 <= k)%Z /\ s = (50 + 5 * k)%Z) ->
  exists k, (0 <= k)%Z
            /\ fold_left (fun score x => if p x then (score + 5)%Z else score)
                         l s
               = (50 + 5 * k)%Z.
Proof.
  revert s. induction l as [|x l IH]; intros s Hs; [exact Hs|].
  simpl. apply IH. now apply bump_steps.
Qed.

(** X24. [calculateViralScore] of the content generator starts from 50 and
    adds 5 for each feature found, capped at 100: the result is a multiple
    of 5 between 50 and 100. *)
Theorem calculateViralScore_steps `{CaseMapping} (content : jsstring)
        (platform : Platform) :
  exists k, (0 <= k <= 10)%Z
            /\ calculateViralScore content platform = (50 + 5 * k)%Z.
Proof.
  unfold calculateViralScore.
  match goal with
  | |- context [Z.min 100 ?s] =>
      assert (Hs : exists k, (0 <= k)%Z /\ s = (50 + 5 * k)%Z)
  end.
  { apply (fold_bump_steps (fun indicator => includes indicator _)).
    do 3 apply bump_steps.
    apply (fold_bump_steps
             (fun keyword => includes keyword (toLowerCase content))).
    exists 0%Z. split; lia. }
  destruct Hs as (k & Hk & ->).
  exists (Z.min 10 k). split; lia.
Qed.

(** ** Soundness of the matcher *)

Section MatcherSoundness.
Context {CM : CaseMapping}.
Variable fl : flags.

Lemma starLoop_sound (a : regex)
      (IHa : forall p s k res,
          rmatch fl a p s k = Some res ->
          exists p' s', Matches fl a p s p' s' /\ k p' s' = Some res)
      (fuel : nat) (p : option char) (s : jsstring) (k : cont)
      (res : option char * jsstring) :
  starLoop (rmatch fl a) fuel p s k = Some res ->
  exists p' s', Matches fl (Star a) p s p' s' /\ k p' s' = Some res.
Proof.
  revert p s. induction fuel as [|n IH]; intros p s; simpl; intros H.
  - exists p, s. split; [constructor|exact H].
  - destruct (rmatch fl a p s _) as [r|] eqn:E.
    + injection H as ->.
      apply IHa in E. destruct E as (p1 & s1 & Hm & Hk).
      destruct (length s1 <? length s)%nat eqn:Hlen; [|discriminate].
      apply Nat.ltb_lt in Hlen.
      apply IH in Hk. destruct Hk as (p2 & s2 & Hstar & Hk).
      exists p2, s2. split; [|exact Hk].
      now apply MatchStarStep with p1 s1.
    + exists p, s. split; [constructor|exact H].
Qed.

Lemma rmatch_sound (r : regex) :
  forall p s k res,
    rmatch fl r p s k = Some res ->
    exists p' s', Matches fl r p s p' s' /\ k p' s' = Some res.
Proof.
  induction r as [|neg rs| |a IHa b IHb|a IHa b IHb|a IHa| | |];
    intros p s k res H; cbn [rmatch] in H.
  - exists p, s. split; [constructor|exact H].
  - destruct s as [|c t]; [discriminate|].
    destruct (xorb neg (inClass fl rs c)) eqn:E; [|discriminate].
    exists (Some c), t. split; [now constructor|exact H].
  - destruct s as [|c t]; [discriminate|].
    destruct (dotAll fl || negb (isLineTerminator c))%bool eqn:E;
      [|discriminate].
    exists (Some c), t. split; [now constructor|exact H].
  - apply IHa in H. destruct H as (p1 & s1 & Ha & H).
    apply IHb in H. destruct H as (p2 & s2 & Hb & H).
    exists p2, s2. split; [now apply MatchSeq with p1 s1|exact H].
  - destruct (rmatch fl a p s k) as [r|] eqn:E.
    + injection H as ->. apply IHa in E.
      destruct E as (p' & s' & Hm & Hk).
      exists p', s'. split; [now apply MatchAltL|exact Hk].
    + apply IHb in H. destruct H as (p' & s' & Hm & Hk).
      exists p', s'. split; [now apply MatchAltR|exact Hk].
  - revert H. now apply starLoop_sound.
  - destruct (atBol fl p) eqn:E; [|discriminate].
    exists p, s. split; [now constructor|exact H].
  - destruct (atEol fl s) eqn:E; [|discriminate].
    exists p, s. split; [now constructor|exact H].
  - destruct (atWordBoundary p s) eqn:E; [|discriminate].
    exists p, s. split; [now constructor|exact H].
Qed.

(** A match consumes a prefix of the input. *)
Lemma Matches_consumes (r : regex) p s p' s' :
  Matches fl r p s p' s' -> exists u, s = u ++ s'.
Proof.
  induction 1.
  - now exists [].
  - now exists [c].
  - now exists [c].
  - destruct IHMatches1 as [u ->]. destruct IHMatches2 as [v ->].
    exists (u ++ v). now rewrite app_assoc.
  - assumption.
  - assumption.
  - now exists [].
  - destruct IHMatches1 as [u ->]. destruct IHMatches2 as [v ->].
    exists (u ++ v). now rewrite app_assoc.
  - now exists [].
  - now exists [].
  - now exists [].
Qed.

Lemma firstn_consumed {A} (u s' : list A) :
  firstn (length (u ++ s') - length s') (u ++ s') = u.
Proof.
  rewrite length_app, Nat.add_sub. rewrite firstn_app, Nat.sub_diag.
  simpl. rewrite app_nil_r. apply firstn_all.
Qed.

Lemma rmatch_accept_sound (r : regex) (prev : option char) (s : jsstring)
      (p' : option char) (s' : jsstring) :
  rmatch fl r prev s accept = Some (p', s') ->
  Matches fl r prev s p' s'
  /\ s = firstn (length s - length s') s ++ s'.
Proof.
  intros E. apply rmatch_sound in E.
  destruct E as (p1 & s1 & Hm & [= -> ->]). split; [exact Hm|].
  destruct (Matches_consumes Hm) as [u Hu].
  rewrite Hu at 2. rewrite Hu at 2. now rewrite firstn_consumed.
Qed.

(** What [search] finds is matched by the pattern at a position of the
    input, and is the text consumed there. *)
Lemma search_sound (r : regex) (idx : nat) (prev : option char)
      (s : jsstring) (m : matchResult) :
  search fl r idx prev s = Some m ->
  exists before p0,
    s = before ++ matched m ++ restAfter m
    /\ index m = (idx + length before)%nat
    /\ Matches fl r p0 (matched m ++ restAfter m) (prevAfter m) (restAfter m).
Proof.
  revert idx prev. induction s as [|c t IH]; intros idx prev H;
    rewrite search_unfold in H.
  - destruct (rmatch fl r prev [] accept) as [[p' s']|] eqn:E;
      [|discriminate].
    injection H as <-. apply rmatch_accept_sound in E.
    destruct E as [Hm Hs]. cbn [matched restAfter prevAfter index].
    rewrite firstn_nil in *. simpl in Hs. subst s'.
    exists [], prev. simpl. repeat split; [lia|exact Hm].
  - destruct (rmatch fl r prev (c :: t) accept) as [[p' s']|] eqn:E.
    + injection H as <-. apply rmatch_accept_sound in E.
      destruct E as [Hm Hs]. cbn [matched restAfter prevAfter index].
      exists [], prev. pose proof Hm as Hm'. rewrite Hs in Hm'.
      split; [exact Hs|]. split; [simpl; lia|exact Hm'].
    + apply IH in H. destruct H as (before & p0 & Hs & Hidx & Hm).
      exists (c :: before), p0. simpl. rewrite <- Hs.
      repeat split; [lia|exact Hm].
Qed.
End MatcherSoundness.
Section MatchAllSoundness.
Context {CM : CaseMapping}.
Variable fl : flags.

Lemma Matches_seq_inv (a b : regex) p s p' s' :
  Matches fl (Seq a b) p s p' s' ->
  exists p1 s1, Matches fl a p s p1 s1 /\ Matches fl b p1 s1 p' s'.
Proof. intros H. inversion H; subst. eauto. Qed.

Lemma Matches_alt_inv (a b : regex) p s p' s' :
  Matches fl (Alt a b) p s p' s' ->
  Matches fl a p s p' s' \/ Matches fl b p s p' s'.
Proof. intros H. inversion H; subst; auto. Qed.

Lemma Matches_eps_inv p s p' s' :
  Matches fl Eps p s p' s' -> p = p' /\ s = s'.
Proof. intros H. inversion H; subst. auto. Qed.

Lemma Matches_class (neg : bool) (rs : list (char * char)) p s p' s' :
  Matches fl (CharSet neg rs) p s p' s' ->
  exists c, s = c :: s' /\ xorb neg (inClass fl rs c) = true.
Proof. intros H. inversion H; subst. eauto. Qed.

(** Every element of a global match is matched by the pattern at a
    position of the input. *)
Lemma matchAllFrom_sound (r : regex) (fuel : nat) (prev : option char)
      (s x : jsstring) :
  In x (matchAllFrom fl fuel r prev s) ->
  exists before p0 p' rest,
    s = before ++ x ++ rest /\ Matches fl r p0 (x ++ rest) p' rest.
Proof.
  revert prev s. induction fuel as [|n IH]; intros prev s; simpl;
    [intros []|].
  destruct (search fl r 0 prev s) as [m|] eqn:E; [|intros []].
  apply search_sound in E. destruct E as (before & p0 & Hs & _ & Hm).
  intros [<-|Hin].
  - now exists before, p0, (prevAfter m), (restAfter m).
  - destruct (matched m) as [|c0 t0] eqn:Em.
    + destruct (restAfter m) as [|c t] eqn:Er; [destruct Hin|].
      apply IH in Hin. destruct Hin as (before' & q0 & q' & rest & Ht & Hx).
      exists (before ++ c :: before'), q0, q', rest. split; [|exact Hx].
      rewrite Hs, Ht. simpl. now rewrite <- app_assoc.
    + apply IH in Hin. destruct Hin as (before' & q0 & q' & rest & Ht & Hx).
      exists (before ++ (c0 :: t0) ++ before'), q0, q', rest.
      split; [|exact Hx].
      rewrite Hs, Ht. now rewrite <- !app_assoc.
Qed.

Lemma Matches_star_class (neg : bool) (rs : list (char * char)) p s p' s' :
  Matches fl (Star (CharSet neg rs)) p s p' s' ->
  exists u, s = u ++ s'
            /\ forallb (fun c => xorb neg (inClass fl rs c)) u = true.
Proof.
  intros H. remember (Star (CharSet neg rs)) as r eqn:Er.
  induction H as [| | | | | |a p s|a p s p1 s1 p2 s2 Ha _ Hlen Hstar IH| | |];
    try discriminate.
  - now exists [].
  - injection Er as ->. specialize (IH eq_refl).
    destruct IH as (u & -> & Hu).
    apply Matches_class in Ha. destruct Ha as (c & -> & Hc).
    exists (c :: u). split; [reflexivity|].
    simpl. now rewrite Hc, Hu.
Qed.

Lemma Matches_plus_class (neg : bool) (rs : list (char * char)) p s p' s' :
  Matches fl (plus (CharSet neg rs)) p s p' s' ->
  exists u, s = u ++ s' /\ u <> []
            /\ forallb (fun c => xorb neg (inClass fl rs c)) u = true.
Proof.
  unfold plus. intros H. apply Matches_seq_inv in H.
  destruct H as (p1 & s1 & H1 & H2).
  apply Matches_class in H1. destruct H1 as (c & -> & Hc).
  apply Matches_star_class in H2. destruct H2 as (u & -> & Hu).
  exists (c :: u). split; [reflexivity|]. split; [discriminate|].
  simpl. now rewrite Hc, Hu.
Qed.
End MatchAllSoundness.

Lemma startsWith_app (x rest : jsstring) : startsWith x (x ++ rest) = true.
Proof.
  induction x as [|c x IH]; simpl; [reflexivity|].
  now rewrite N.eqb_refl, IH.
Qed.

Lemma includes_startsWith (x s : jsstring) :
  startsWith x s = true -> includes x s = true.
Proof. intros H. destruct s; simpl; now rewrite H. Qed.

Lemma includes_app (before x rest : jsstring) :
  includes x (before ++ x ++ rest) = true.
Proof.
  induction before as [|c before IH].
  - cbn [app]. apply includes_startsWith. apply startsWith_app.
  - simpl. rewrite IH. apply orb_true_r.
Qed.

Section Literals.
Context {CM : CaseMapping}.

Lemma Matches_chr (c : char) p s p' s' :
  Matches noFlags (chr c) p s p' s' -> s = c :: s'.
Proof.
  unfold chr. intros H. apply Matches_class in H.
  destruct H as (x & -> & Hx). f_equal.
  unfold inClass, inRanges, inRange in Hx. simpl in Hx.
  rewrite orb_false_r in Hx. apply andb_prop in Hx. destruct Hx as [H1 H2].
  apply N.leb_le in H1, H2. lia.
Qed.

Lemma Matches_lit (w : jsstring) p s p' s' :
  Matches noFlags (lit' w) p s p' s' -> s = w ++ s'.
Proof.
  revert p s. induction w as [|c w IH]; intros p s H.
  - apply Matches_eps_inv in H. now destruct H.
  - destruct w as [|c' w'].
    + apply Matches_chr in H. exact H.
    + change (lit' (c :: c' :: w')) with (Seq (chr c) (lit' (c' :: w'))) in H.
      apply Matches_seq_inv in H. destruct H as (p1 & s1 & H1 & H2).
      apply Matches_chr in H1. apply IH in H2. subst. reflexivity.
Qed.

Lemma hashtag_shape (sign : char) p s p' s' :
  Matches noFlags (Seq (chr sign) (plus wordc)) p s p' s' ->
  exists w, s = (sign :: w) ++ s' /\ w <> []
            /\ forallb isWordChar w = true.
Proof.
  intros H. apply Matches_seq_inv in H. destruct H as (p1 & s1 & H1 & H2).
  apply Matches_chr in H1. apply Matches_plus_class in H2.
  destruct H2 as (w & -> & Hne & Hw). subst.
  exists w. repeat split; assumption.
Qed.

Lemma url_shape p s p' s' :
  Matches noFlags urlRegex p s p' s' ->
  exists o u,
    s = (str "http" ++ o ++ str "://" ++ u) ++ s'
    /\ (o = [] \/ o = str "s") /\ u <> []
    /\ forallb (fun c => negb (isWhiteSpace c)) u = true.
Proof.
  unfold urlRegex. cbn [seqs]. intros H.
  apply Matches_seq_inv in H. destruct H as (p1 & s1 & H1 & H).
  apply Matches_seq_inv in H. destruct H as (p2 & s2 & H2 & H).
  apply Matches_seq_inv in H. destruct H as (p3 & s3 & H3 & H4).
  apply Matches_lit in H1. apply Matches_lit in H3.
  apply Matches_plus_class in H4. destruct H4 as (u & -> & Hne & Hu).
  assert (Ho : exists o, s1 = o ++ s2 /\ (o = [] \/ o = str "s")).
  { unfold opt in H2. apply Matches_alt_inv in H2. destruct H2 as [H2|H2].
    - apply Matches_lit in H2. exists (str "s"). split; [exact H2|now right].
    - apply Matches_eps_inv in H2. destruct H2 as [_ ->].
      exists []. split; [reflexivity|now left]. }
  destruct Ho as (o & -> & Ho). subst.
  exists o, u. split; [|repeat split; assumption].
  now rewrite <- !app_assoc.
Qed.
End Literals.

(** X25. What [parsePostContent] extracts is in the content: every hashtag
    is a [#] and every mention an [@] followed by one or more word
    characters; every link is [http], an optional [s], [://] and one or more
    characters that are not white space; and each of them, like each
    extracted number, occurs in the content as it is returned. *)
Theorem parsePostContent_extracts_from_content `{CaseMapping}
        (content : jsstring) :
  let parsed := parsePostContent content in
  Forall (fun tag =>
            includes tag content = true
            /\ exists w, tag = 35%N :: w /\ w <> []
                         /\ forallb isWordChar w = true)
         (hashtags parsed)
  /\ Forall (fun mention =>
               includes mention content = true
               /\ exists w, mention = 64%N :: w /\ w <> []
                            /\ forallb isWordChar w = true)
            (mentions parsed)
  /\ Forall (fun link =>
               includes link content = true
               /\ exists o u,
                    link = str "http" ++ o ++ str "://" ++ u
                    /\ (o = [] \/ o = str "s") /\ u <> []
                    /\ forallb (fun c => negb (isWhiteSpace c)) u = true)
            (links parsed)
  /\ Forall (fun number => includes number content = true) (numbers parsed).
Proof.
  cbv zeta. unfold parsePostContent.
  cbn [hashtags mentions links numbers]. unfold matchAll.
  split; [|split; [|split]]; apply Forall_forall; intros x Hx;
    apply matchAllFrom_sound in Hx;
    destruct Hx as (before & p0 & p' & rest & Hs & Hm).
  - split; [rewrite Hs; apply includes_app|].
    apply hashtag_shape in Hm. destruct Hm as (w & E & Hne & Hw).
    apply app_inv_tail in E. eauto.
  - split; [rewrite Hs; apply includes_app|].
    apply hashtag_shape in Hm. destruct Hm as (w & E & Hne & Hw).
    apply app_inv_tail in E. eauto.
  - split; [rewrite Hs; apply includes_app|].
    apply url_shape in Hm. destruct Hm as (o & u & E & Ho & Hne & Hu).
    apply app_inv_tail in E. eauto 10.
  - rewrite Hs. apply includes_app.
Qed.
(** ** Threads *)

Lemma concat_nonempty (group : list jsstring) :
  Forall (fun s => s <> []) group ->
  (concat group = [] <-> group = []).
Proof.
  intros Hne. split; [|intros ->; reflexivity].
  destruct group as [|s group]; [reflexivity|].
  inversion Hne as [|? ? Hs _]; subst. simpl.
  destruct s; [contradiction|discriminate].
Qed.

Lemma concat_singleton (s : jsstring) : concat [s] = s.
Proof. simpl. apply app_nil_r. Qed.

Lemma concat_snoc (l : list jsstring) (x : jsstring) :
  concat (l ++ [x]) = concat l ++ x.
Proof. rewrite concat_app. simpl. now rewrite app_nil_r. Qed.

Lemma concat_groups_snoc (groups : list (list jsstring))
      (group : list jsstring) :
  concat (groups ++ [group]) = concat groups ++ group.
Proof. rewrite concat_app. simpl. now rewrite app_nil_r. Qed.

Section ThreadPacking.
Context {CM : CaseMapping}.

Lemma packStep_fold (sentences : list jsstring) :
  Forall (fun s => s <> []) sentences ->
  forall groups curGroup,
    Forall tweetGroup groups ->
    curGroup = [] \/ tweetGroup curGroup ->
    Forall (fun s => s <> []) curGroup ->
    exists groups' curGroup',
      fold_left packStep sentences
                (map (fun g => trim (concat g)) groups, concat curGroup)
      = (map (fun g => trim (concat g)) groups', concat curGroup')
      /\ concat groups' ++ curGroup'
         = (concat groups ++ curGroup) ++ sentences
      /\ Forall tweetGroup groups'
      /\ (curGroup' = [] \/ tweetGroup curGroup')
      /\ Forall (fun s => s <> []) curGroup'
      /\ (sentences <> [] \/ curGroup <> [] -> curGroup' <> []).
Proof.
  induction 1 as [|s sentences Hs Hrest IH];
    intros groups curGroup Hgroups Hcur Hne.
  - exists groups, curGroup. simpl. rewrite app_nil_r.
    repeat split; try assumption. intros [Hn|Hn]; [now destruct Hn|exact Hn].
  - cbn [fold_left]. unfold packStep at 2.
    destruct (length (concat curGroup ++ s) <=? 270)%nat eqn:Efit.
    + destruct (IH groups (curGroup ++ [s])) as
        (groups' & curGroup' & Hfold & Hcat & Hg & Hc & Hn & Hlast).
      * exact Hgroups.
      * right. split.
        -- intros E. apply app_eq_nil in E. destruct E as [_ E].
           discriminate.
        -- left. rewrite concat_snoc. now apply Nat.leb_le.
      * apply Forall_app. split; [exact Hne|]. now constructor.
      * exists groups', curGroup'. rewrite concat_snoc in Hfold.
        split; [exact Hfold|]. split.
        -- rewrite Hcat. now rewrite <- !app_assoc.
        -- repeat split; try assumption.
           intros _. apply Hlast. right. intros E.
           apply app_eq_nil in E. destruct E as [_ E]. discriminate.
    + assert (Hsingle : tweetGroup [s]).
      { split; [discriminate|]. right. now exists s. }
      destruct (0 <? length (concat curGroup))%nat eqn:Ecur.
      * assert (HcurNe : curGroup <> []).
        { intros ->. discriminate. }
        destruct Hcur as [Hcur|Hcur]; [contradiction|].
        destruct (IH (groups ++ [curGroup]) [s]) as
          (groups' & curGroup' & Hfold & Hcat & Hg & Hc & Hn & Hlast).
        -- apply Forall_app. split; [exact Hgroups|]. now constructor.
        -- now right.
        -- now constructor.
        -- exists groups', curGroup'.
           rewrite map_app, concat_singleton in Hfold. simpl map in Hfold.
           split; [exact Hfold|]. split.
           ++ rewrite Hcat, concat_groups_snoc. now rewrite <- !app_assoc.
           ++ repeat split; try assumption.
              intros _. apply Hlast. right. discriminate.
      * assert (HcurNil : curGroup = []).
        { apply concat_nonempty; [exact Hne|].
          apply Nat.ltb_ge in Ecur.
          destruct (concat curGroup); [reflexivity|simpl in Ecur; lia]. }
        subst curGroup.
        destruct (IH groups [s]) as
          (groups' & curGroup' & Hfold & Hcat & Hg & Hc & Hn & Hlast).
        -- exact Hgroups.
        -- now right.
        -- now constructor.
        -- exists groups', curGroup'.
           rewrite concat_singleton in Hfold.
           split; [exact Hfold|]. split.
           ++ rewrite Hcat. now rewrite app_nil_r, <- !app_assoc.
           ++ repeat split; try assumption.
              intros _. apply Hlast. right. discriminate.
Qed.

Lemma packTweets_groups (sentences : list jsstring) :
  sentences <> [] -> Forall (fun s => s <> []) sentences ->
  exists groups,
    packTweets sentences = map (fun g => trim (concat g)) groups
    /\ concat groups = sentences
    /\ Forall tweetGroup groups
    /\ groups <> [].
Proof.
  intros Hsome Hne. unfold packTweets.
  destruct (@packStep_fold sentences Hne [] [])
    as (groups & curGroup & Hfold & Hcat & Hg & Hc & Hn & Hlast);
    [constructor|now left|constructor|].
  simpl in Hfold. rewrite Hfold.
  assert (HcurNe : curGroup <> []) by (apply Hlast; now left).
  destruct Hc as [Hc|Hc]; [contradiction|].
  destruct (0 <? length (concat curGroup))%nat eqn:E.
  - exists (groups ++ [curGroup]). split; [now rewrite map_app|].
    split; [|split].
    + rewrite concat_groups_snoc. exact Hcat.
    + apply Forall_app. split; [exact Hg|]. now constructor.
    + intros E'. apply app_eq_nil in E'. destruct E' as [_ E'].
      discriminate.
  - exfalso. apply HcurNe. apply concat_nonempty; [exact Hn|].
    apply Nat.ltb_ge in E.
    destruct (concat curGroup); [reflexivity|simpl in E; lia].
Qed.

Lemma sentence_nonempty p s p' s' :
  Matches noFlags sentenceRegex p s p' s' ->
  exists x, s = x ++ s' /\ x <> [].
Proof.
  unfold sentenceRegex. intros H. apply Matches_seq_inv in H.
  destruct H as (p1 & s1 & H1 & H2).
  apply Matches_plus_class in H1. destruct H1 as (u & -> & Hu & _).
  apply Matches_plus_class in H2. destruct H2 as (v & -> & _ & _).
  exists (u ++ v). split; [now rewrite app_assoc|].
  intros E. apply app_eq_nil in E. destruct E as [E _]. contradiction.
Qed.

Lemma threadSentences_nonempty (content : jsstring) :
  content <> [] ->
  threadSentences content <> []
  /\ Forall (fun s => s <> []) (threadSentences content).
Proof.
  intros Hne. unfold threadSentences.
  destruct (matchAll noFlags sentenceRegex content) as [|x l] eqn:E.
  - split; [discriminate|]. now constructor.
  - split; [discriminate|]. rewrite <- E. apply Forall_forall.
    intros y Hy. unfold matchAll in Hy.
    apply matchAllFrom_sound in Hy.
    destruct Hy as (before & p0 & p' & rest & _ & Hm).
    apply sentence_nonempty in Hm. destruct Hm as (z & Hz & Hzne).
    apply app_inv_tail in Hz. now subst.
Qed.

Lemma numberTweets_nil (tweets : list jsstring) :
  numberTweets tweets = [] <-> tweets = [].
Proof.
  unfold numberTweets. split; [|intros ->; reflexivity].
  destruct tweets; [reflexivity|discriminate].
Qed.
End ThreadPacking.

(** X26. [convertToThread] fails (a TypeError on the missing first tweet)
    exactly on the empty string. Otherwise the thread consists of the
    sentences that the sentence pattern finds in the content, in their
    order and grouped into tweets: no sentence is split, dropped or
    repeated; a tweet has at most 270 code units before it is trimmed and
    numbered, unless it is a single sentence; the first tweet carries no
    number, the others [i/n]. *)
Theorem convertToThread_packs_sentences `{CaseMapping}
        (content topic : jsstring) :
  (convertToThread content topic = None <-> content = [])
  /\ (content <> [] ->
      exists groups thread,
        convertToThread content topic = Some thread
        /\ concat groups = threadSentences content
        /\ Forall tweetGroup groups
        /\ GeneratedContent.threadContent thread
           = Some (numberTweets (map (fun g => trim (concat g)) groups))
        /\ GeneratedContent.content thread
           = trim (concat (hd [] groups))
        /\ GeneratedContent.isThread thread = Some true).
Proof.
  assert (Hthread : content <> [] ->
      exists groups thread,
        convertToThread content topic = Some thread
        /\ concat groups = threadSentences content
        /\ Forall tweetGroup groups
        /\ GeneratedContent.threadContent thread
           = Some (numberTweets (map (fun g => trim (concat g)) groups))
        /\ GeneratedContent.content thread
           = trim (concat (hd [] groups))
        /\ GeneratedContent.isThread thread = Some true).
  { intros Hne.
    destruct (threadSentences_nonempty Hne) as [Hsome Hall].
    destruct (packTweets_groups Hsome Hall)
      as (groups & Hpack & Hcat & Hg & Hgne).
    unfold convertToThread. rewrite Hpack.
    destruct groups as [|g groups]; [contradiction|].
    cbn [map]. unfold numberTweets at 1.
    cbn [length seq combine map fst snd Nat.eqb app].
    eexists (g :: groups), _. split; [reflexivity|].
    cbn [GeneratedContent.threadContent GeneratedContent.content
         GeneratedContent.isThread hd].
    repeat split; assumption. }
  split; [|exact Hthread].
  split.
  - intros Hnone. destruct content as [|c content]; [reflexivity|].
    destruct Hthread as (groups & thread & E & _); [discriminate|].
    congruence.
  - intros ->. reflexivity.
Qed.

(** ** Evidence *)

Section Evidence.
Context {CM : CaseMapping}.

Lemma execRe_includes (r : RegExp) (s : jsstring) (m : matchResult) :
  execRe r s = Some m -> includes (matched m) s = true.
Proof.
  unfold execRe, exec. intros H. apply search_sound in H.
  destruct H as (before & p0 & Hs & _). rewrite Hs.
  apply includes_app.
Qed.

Lemma matchEither_includes (r : RegExp) (a b : jsstring) (m : matchResult) :
  matchEither r a b = Some m ->
  includes (matched m) a = true \/ includes (matched m) b = true.
Proof.
  unfold matchEither. destruct (execRe r a) as [m'|] eqn:E.
  - intros [= <-]. left. now apply execRe_includes with r.
  - intros H. right. now apply execRe_includes with r.
Qed.

Lemma detectTimingSignals_fold (content : jsstring)
      (table : list (RegExp * jsstring)) (acc : list TimingSignal.t) :
  Forall (fun signal =>
            TimingSignal.detected signal = true
            /\ includes (TimingSignal.context signal) content = true) acc ->
  let signals :=
    fold_left
      (fun signals entry =>
         let '(pattern', type') := entry in
         match execRe pattern' content with
         | Some m =>
             signals ++ [ {| TimingSignal.type := type';
                             TimingSignal.detected := true;
                             TimingSignal.context := matched m |} ]
         | None => signals
         end)
      table acc in
  Forall (fun signal =>
            TimingSignal.detected signal = true
            /\ includes (TimingSignal.context signal) content = true)
         signals
  /\ (length signals <= length acc + length table)%nat.
Proof.
  revert acc. induction table as [|[pattern' type'] table IH];
    intros acc Hacc; cbv zeta; cbn [fold_left].
  - split; [exact Hacc|simpl; lia].
  - destruct (execRe pattern' content) as [m|] eqn:E.
    + destruct (IH (acc ++ [ {| TimingSignal.type := type';
                               TimingSignal.detected := true;
                               TimingSignal.context := matched m |} ]))
        as [Hall Hlen].
      * apply Forall_app. split; [exact Hacc|]. constructor; [|constructor].
        split; [reflexivity|]. simpl. now apply execRe_includes with pattern'.
      * split; [exact Hall|]. rewrite length_app in Hlen. simpl in *. lia.
    + destruct (IH acc Hacc) as [Hall Hlen].
      split; [exact Hall|]. simpl. lia.
Qed.
End Evidence.

(** X27. What the detectors report as evidence is text of the post. The
    hook text is empty, or occurs in the lowercased first line or in the
    lowercased first two lines joined by a space, or is the first line as
    written (the QUESTION fallback). The call-to-action text is empty, or
    occurs in the lowercased last three lines or in the lowercased content,
    or is the last line as written, or the first link. Every timing signal
    is marked detected and its context occurs in the lowercased content;
    there are at most five. *)
Theorem detected_text_occurs_in_post `{CaseMapping}
        (parsed : ParsedContent) :
  let hook := detectHookType parsed in
  let cta := detectCTAType parsed in
  let lowered := toLowerCase (original parsed) in
  (matchedText hook = []
   \/ includes (matchedText hook) (hookFirstLine parsed) = true
   \/ includes (matchedText hook) (hookFirstTwoLines parsed) = true
   \/ (dtype hook = HookType.QUESTION
       /\ matchedText hook = orEmpty (nth_error (lines parsed) 0)))
  /\ (matchedText cta = []
      \/ includes (matchedText cta)
                  (toLowerCase (join (str " ") (sliceLast 3 (lines parsed))))
         = true
      \/ includes (matchedText cta) lowered = true
      \/ (dtype cta = CTAType.QUESTION_TO_AUDIENCE
          /\ matchedText cta = orEmpty (lastLine (lines parsed)))
      \/ (dtype cta = CTAType.LINK
          /\ matchedText cta = orEmpty (nth_error (links parsed) 0)))
  /\ Forall (fun signal =>
               TimingSignal.detected signal = true
               /\ includes (TimingSignal.context signal) lowered = true)
            (detectTimingSignals parsed)
  /\ (length (detectTimingSignals parsed) <= 5)%nat.
Proof.
  cbv zeta. split; [|split].
  - unfold detectHookType, hookFirstLine, hookFirstTwoLines.
    match goal with
    | |- context [if _ && Qltb (confidence ?b) _ then _ else _] =>
        set (best := b)
    end.
    assert (Hbest : matchedText best = []
                    \/ includes (matchedText best)
                         (orEmpty (option_map toLowerCase
                                              (nth_error (lines parsed) 0)))
                       = true
                    \/ includes (matchedText best)
                         (toLowerCase (join (str " ")
                                            (firstn 2 (lines parsed))))
                       = true).
    { subst best. apply fold_left_inv; [now left|].
      intros b [hookType pats] Hb.
      destruct (HookType.eqb hookType HookType.NONE); [exact Hb|].
      apply fold_left_inv; [exact Hb|].
      intros b' p Hb'.
      destruct (matchEither p _ _) as [m|] eqn:E; [|exact Hb'].
      destruct (Qltb (confidence b') _); [|exact Hb'].
      right. simpl. now apply matchEither_includes with p. }
    destruct (_ && _).
    + right. right. right. split; reflexivity.
    + destruct Hbest as [Hb|[Hb|Hb]]; auto.
  - unfold detectCTAType.
    match goal with
    | |- context [fold_left ?f CTA_PATTERNS ?a] =>
        set (best := fold_left f CTA_PATTERNS a)
    end.
    assert (Hbest : matchedText best = []
                    \/ includes (matchedText best)
                         (toLowerCase (join (str " ")
                                            (sliceLast 3 (lines parsed))))
                       = true
                    \/ includes (matchedText best)
                                (toLowerCase (original parsed)) = true).
    { subst best. apply fold_left_inv; [now left|].
      intros b [ctaType pats] Hb.
      destruct (CTAType.eqb ctaType CTAType.NONE); [exact Hb|].
      apply fold_left_inv; [exact Hb|].
      intros b' p Hb'.
      destruct (matchEither p _ _) as [m|] eqn:E; [|exact Hb'].
      destruct (Qltb (confidence b') _); [|exact Hb'].
      right. simpl. now apply matchEither_includes with p. }
    cbv zeta.
    destruct (endsWithQuestionMark _ && Qltb (confidence best) (7 # 10)).
    + cbn [confidence].
      change (Qltb (75 # 100) (6 # 10)) with false. rewrite andb_false_r.
      right. right. right. left. split; reflexivity.
    + destruct (hasLinks parsed && Qltb (confidence best) (6 # 10)).
      * right. right. right. right. split; reflexivity.
      * destruct Hbest as [Hb|[Hb|Hb]]; auto.
  - unfold detectTimingSignals.
    destruct (@detectTimingSignals_fold _ (toLowerCase (original parsed))
                timePatterns [] (Forall_nil _)) as [Hall Hlen].
    split; [exact Hall|exact Hlen].
Qed.

Lemma Math_min_mono (c a b : Q) :
  (a <= b)%Q -> (Math_min c a <= Math_min c b)%Q.
Proof.
  intros H.
  destruct (Math_min_spec c a) as [[H1 ->]|[H1 ->]],
           (Math_min_spec c b) as [[H2 ->]|[H2 ->]]; lra.
Qed.

Lemma ofZ_lengthZ_nonneg {A} (l : list A) : (0 <= ofZ (lengthZ l))%Q.
Proof. unfold ofZ, lengthZ. rewrite <- (Zle_Qle 0). lia. Qed.

(** X29. A higher effectiveness never lowers the match score: for a format
    with a score that is not negative, raising the score and leaving
    everything else as it is gives a match score, for any topic and any
    options, that is at least as high, with the same matching elements. *)
Theorem calculateMatchScore_monotone `{CaseMapping}
        (format : FormatPattern.t) (higher : Q) (topic : jsstring)
        (options : option MatchOptions) :
  (0 <= FormatPattern.effectivenessScore format)%Q ->
  (FormatPattern.effectivenessScore format <= higher)%Q ->
  (fst (calculateMatchScore format topic options)
   <= fst (calculateMatchScore (withEffectiveness format higher) topic
                               options))%Q
  /\ snd (calculateMatchScore format topic options)
     = snd (calculateMatchScore (withEffectiveness format higher) topic
                                options).
Proof.
  intros H0 Hle. unfold calculateMatchScore, withEffectiveness.
  cbv zeta.
  cbn [FormatPattern.effectivenessScore FormatPattern.tags
       FormatPattern.hookType FormatPattern.bodyType FormatPattern.ctaType
       FormatPattern.usageCount].
  assert (Hbase : (0 <= FormatPattern.effectivenessScore format / 100 * 40)%Q
                  /\ (FormatPattern.effectivenessScore format / 100 * 40
                      <= higher / 100 * 40)%Q).
  { split.
    - apply Qmult_le_0_compat; [|lra].
      apply Qle_shift_div_l; [reflexivity|lra].
    - apply Qmult_le_compat_r; [|lra].
      apply Qmult_le_compat_r; [exact Hle|]. vm_compute. discriminate. }
  destruct Hbase as [Hbase0 Hbase].
  set (e := FormatPattern.effectivenessScore format) in *.
  set (base := (e / 100 * 40)%Q) in *.
  set (base' := (higher / 100 * 40)%Q) in *.
  set (usage := Math_min (ofZ (FormatPattern.usageCount format) * 2) 10).
  match goal with
  | |- context [(ofZ (lengthZ ?l) * 10)%Q] =>
      pose proof (ofZ_lengthZ_nonneg l); set (tagCount := ofZ (lengthZ l)) in *
  end.
  destruct options as [[ph pb pc te me]|]; cbn [option_map preferredHook
    preferredBody preferredCTA targetEmotions minEffectiveness].
  - destruct ph as [h|]; [destruct (HookType.eqb _ h)|];
      (destruct pb as [b|]; [destruct (BodyType.eqb _ b)|]);
      (destruct pc as [c|]; [destruct (CTAType.eqb _ c)|]);
      (destruct te as [emotions|];
       [match goal with
        | |- context [(ofZ (lengthZ ?l) * 8)%Q] =>
            pose proof (ofZ_lengthZ_nonneg l);
            set (emotionCount := ofZ (lengthZ l)) in *
        end|]);
      (destruct me as [m|];
       [destruct (negb (Qeq_bool m 0));
        cbn [andb];
        [destruct (Qltb e m) eqn:E1, (Qltb higher m) eqn:E2;
         try apply Qltb_lt in E1; try apply Qltb_ge in E1;
         try apply Qltb_lt in E2; try apply Qltb_ge in E2|]|]);
      cbn [fst snd]; (split; [apply Math_min_mono; lra|reflexivity]).
  - cbn [fst snd]. split; [apply Math_min_mono; lra|reflexivity].
Qed.

Lemma calculateMatchScore_monotone_witness :
  (fst (calculateMatchScore sampleFormat (str "technology trends") None)
   <= fst (calculateMatchScore (withEffectiveness sampleFormat 90)
                               (str "technology trends") None))%Q
  /\ snd (calculateMatchScore sampleFormat (str "technology trends") None)
     = snd (calculateMatchScore (withEffectiveness sampleFormat 90)
                                (str "technology trends") None).
Proof.
  apply (@calculateMatchScore_monotone asciiCase sampleFormat 90
           (str "technology trends") None).
  - vm_compute. discriminate.
  - vm_compute. discriminate.
Defined.
